(** * honeypot.c: telnet option negotiation and the line editor

    A shallow embedding of [src/honeypot.c] and the properties of its
    negotiation engine ([send_command], [set_options], [negotiate_telnet]),
    its line editor ([readline]) and its session loop
    ([handle_connection]).

    Conventions.
    - A byte is a [Z] in [0, 256); [uchar] is the conversion to
      [unsigned char].  [getc] returns a byte or [EOF] (-1).
    - A C array is a [list Z] of the array's length; reading or writing
      outside of it is undefined behaviour and is the result [Fault].
    - The process state touched by the code (the three streams, the log
      file, the pending alarm and the four global option tables) is the
      record [world]; a C function is a function in the monad [M], whose
      results are: normal return, [_exit], [Fault], or a loop that was cut
      off by its iteration budget ([OutOfFuel]).
    - [fflush] and [sleep] have no effect on this state and are left out.
      [stdout] holds the bytes that [printf] was given: the code never
      flushes standard output and leaves by [_exit], so whether they reach
      the descriptor depends on how the stream is buffered.
    - The functions describe the runs in which no signal arrives.  The
      delivery of SIGALRM during the negotiation, at a moment the model
      leaves open, is a transition of the relation [neg_step].  After the
      negotiation [handle_connection] is a run of the code as long as no
      alarm is pending: when the loop was left with the alarm still set,
      SIGALRM_handler ends the worker when the alarm fires, which the
      function does not show. *)

From Stdlib Require Import ZArith List Lia Bool String Ascii.
From stdpp Require Import base tactics option list relations pretty.
Import ListNotations.

Local Open Scope Z_scope.

(* ===================================================================== *)
(** ** What the C implementation and the header leave open *)

(** [telnet.h] is not among the sources.  The command and option codes it
    defines are parameters of the development; [rfc854] below gives them
    the values of RFC 854/855/857/858/1073/1091/1184/1572 for the concrete
    scenarios. *)
Class telnet_h := {
  IAC : Z; DONT : Z; DO : Z; WONT : Z; WILL : Z; SB : Z; SE : Z; NOP : Z;
  ECHO : Z; SGA : Z; NAWS : Z; TTYPE : Z; LINEMODE : Z; NEW_ENVIRON : Z;
  SEND : Z
}.

Definition rfc854 : telnet_h := {|
  IAC := 255; DONT := 254; DO := 253; WONT := 252; WILL := 251; SB := 250;
  SE := 240; NOP := 241;
  ECHO := 1; SGA := 3; NAWS := 31; TTYPE := 24; LINEMODE := 34;
  NEW_ENVIRON := 39; SEND := 1
|}.

(** Whether plain [char] is signed, and the range of [size_t], are
    implementation-defined; the C standard promises a [SIZE_MAX] of at
    least 65535. *)
Class c_impl := {
  char_signed : bool;
  SIZE_MAX : Z;
  SIZE_MAX_least : 65535 <= SIZE_MAX
}.

Definition lp64_signed_char : c_impl :=
  {| char_signed := true; SIZE_MAX := 2 ^ 64 - 1;
     SIZE_MAX_least := ltac:(discriminate) |}.

Definition uchar (z : Z) : Z := z mod 256.

(** The value of a [char] object whose byte is [b]. *)
Definition char_val `{c_impl} (b : Z) : Z :=
  if char_signed && (128 <=? b) then b - 256 else b.

(** Conversion of an [int] or [size_t] value to [size_t]. *)
Definition to_size_t `{c_impl} (z : Z) : Z := z mod (SIZE_MAX + 1).

Definition EOF : Z := -1.
Definition EXIT_SUCCESS : Z := 0.
Definition EXIT_FAILURE : Z := 1.

(* ===================================================================== *)
(** ** Bytes, strings and arrays *)

Definition bytes (s : string) : list Z :=
  map (fun a => Z.of_N (N_of_ascii a)) (list_ascii_of_string s).

Definition ESC : Z := 27.

(** [printf]'s [%d]. *)
Definition fmt_d (n : Z) : list Z := bytes (pretty n).

(** The bytes of a C string: those before the first NUL. *)
Fixpoint until_nul (l : list Z) : list Z :=
  match l with
  | [] => []
  | c :: r => if c =? 0 then [] else c :: until_nul r
  end.

Definition has_nul (l : list Z) : bool := existsb (fun c => c =? 0) l.

(** Reading the C string stored in [l]; [None] when no NUL ends it inside
    the array. *)
Definition cstring (l : list Z) : option (list Z) :=
  if has_nul l then Some (until_nul l) else None.

(** [a[i]] and [a[i] = v]; [None] outside of the array. *)
Definition arr_get (a : list Z) (i : Z) : option Z :=
  if 0 <=? i then a !! Z.to_nat i else None.

Definition arr_set (a : list Z) (i v : Z) : option (list Z) :=
  if (0 <=? i) && (i <? Z.of_nat (length a))
  then Some (<[Z.to_nat i := v]> a) else None.

(** [strncpy(dst, src, n)], where [src] is what is left of the source array
    from the source pointer on: copies up to the first NUL among the first
    [n] bytes and pads with NULs to [n] bytes.  [None] when it would read
    past [src] or write past [dst]. *)
Definition strncpy (dst src : list Z) (n : Z) : option (list Z) :=
  let k := Z.to_nat n in
  let s := until_nul (take k src) in
  if (negb (has_nul (take k src)) && (length src <? k)%nat)
     || (length dst <? k)%nat
  then None
  else Some (s ++ replicate (k - length s)%nat 0 ++ drop k dst).

(** [memset(a, 0, sizeof(a))]. *)
Definition memset0 (a : list Z) : list Z := replicate (length a) 0.

(* ===================================================================== *)
(** ** The process state and the monad of C functions *)

(** A [FILE*] opened for reading: the bytes not yet read and the
    end-of-file indicator, which a read sets when it finds nothing left. *)
Record FILE_in := { pending : list Z; eof_flag : bool }.

Record world := World {
  input : FILE_in;             (* FILE *input: the connection, reading *)
  stdin : FILE_in;             (* the process's standard input *)
  output : list Z;             (* FILE *output: bytes sent to the peer *)
  logfile : list Z;            (* FILE *logfile *)
  stdout : list Z;
  stderr : list Z;
  alarm_timer : Z;             (* seconds of the pending alarm, 0: none *)
  telnet_options : list Z;     (* unsigned char [256] *)
  telnet_willack : list Z;
  telnet_do_set : list Z;
  telnet_will_set : list Z
}.

Definition set_input (f : FILE_in) (w : world) : world :=
  World f (stdin w) (output w) (logfile w) (stdout w) (stderr w)
        (alarm_timer w) (telnet_options w) (telnet_willack w)
        (telnet_do_set w) (telnet_will_set w).
Definition set_output (o : list Z) (w : world) : world :=
  World (input w) (stdin w) o (logfile w) (stdout w) (stderr w)
        (alarm_timer w) (telnet_options w) (telnet_willack w)
        (telnet_do_set w) (telnet_will_set w).
Definition set_logfile (o : list Z) (w : world) : world :=
  World (input w) (stdin w) (output w) o (stdout w) (stderr w)
        (alarm_timer w) (telnet_options w) (telnet_willack w)
        (telnet_do_set w) (telnet_will_set w).
Definition set_stdout (o : list Z) (w : world) : world :=
  World (input w) (stdin w) (output w) (logfile w) o (stderr w)
        (alarm_timer w) (telnet_options w) (telnet_willack w)
        (telnet_do_set w) (telnet_will_set w).
Definition set_stderr (o : list Z) (w : world) : world :=
  World (input w) (stdin w) (output w) (logfile w) (stdout w) o
        (alarm_timer w) (telnet_options w) (telnet_willack w)
        (telnet_do_set w) (telnet_will_set w).
Definition set_alarm_timer (s : Z) (w : world) : world :=
  World (input w) (stdin w) (output w) (logfile w) (stdout w) (stderr w)
        s (telnet_options w) (telnet_willack w)
        (telnet_do_set w) (telnet_will_set w).
Definition set_telnet_options (t : list Z) (w : world) : world :=
  World (input w) (stdin w) (output w) (logfile w) (stdout w) (stderr w)
        (alarm_timer w) t (telnet_willack w)
        (telnet_do_set w) (telnet_will_set w).
Definition set_telnet_willack (t : list Z) (w : world) : world :=
  World (input w) (stdin w) (output w) (logfile w) (stdout w) (stderr w)
        (alarm_timer w) (telnet_options w) t
        (telnet_do_set w) (telnet_will_set w).
Definition set_telnet_do_set (t : list Z) (w : world) : world :=
  World (input w) (stdin w) (output w) (logfile w) (stdout w) (stderr w)
        (alarm_timer w) (telnet_options w) (telnet_willack w)
        t (telnet_will_set w).
Definition set_telnet_will_set (t : list Z) (w : world) : world :=
  World (input w) (stdin w) (output w) (logfile w) (stdout w) (stderr w)
        (alarm_timer w) (telnet_options w) (telnet_willack w)
        (telnet_do_set w) t.

Inductive result (A : Type) : Type :=
| Ret (a : A) (w : world)          (* the function returned [a] *)
| Exited (status : Z) (w : world)  (* the process called [_exit(status)] *)
| Fault                            (* an access outside of an array *)
| OutOfFuel.                       (* a loop used up its iteration budget *)
Arguments Ret {A} a w.
Arguments Exited {A} status w.
Arguments Fault {A}.
Arguments OutOfFuel {A}.

Definition M (A : Type) : Type := world -> result A.

Definition ret {A} (a : A) : M A := fun w => Ret a w.

Definition bind {A B} (c : M A) (k : A -> M B) : M B :=
  fun w =>
    match c w with
    | Ret a w' => k a w'
    | Exited s w' => Exited s w'
    | Fault => Fault
    | OutOfFuel => OutOfFuel
    end.

Notation "'let*' x ':=' c 'in' k" := (bind c (fun x => k))
  (at level 10, x name, c at level 99, k at level 200,
   format "'[v' 'let*'  x  ':='  c  'in' '/' k ']'").
Notation "c '>>' k" := (bind c (fun _ => k))
  (at level 100, k at level 200, right associativity,
   format "'[v' c  '>>' '/' k ']'").

Definition _exit {A} (status : Z) : M A := fun w => Exited status w.
Definition fault {A} : M A := fun _ => Fault.
Definition out_of_fuel {A} : M A := fun _ => OutOfFuel.

(** An array access: its value, or undefined behaviour. *)
Definition lift {A} (o : option A) : M A :=
  match o with Some a => ret a | None => fault end.

Definition gets {A} (f : world -> A) : M A := fun w => Ret (f w) w.
Definition modify (f : world -> world) : M unit := fun w => Ret tt (f w).

(** [getc] on a [FILE_in]. *)
Definition getc_file (f : FILE_in) : Z * FILE_in :=
  match pending f with
  | [] => (EOF, {| pending := []; eof_flag := true |})
  | b :: r => (b, {| pending := r; eof_flag := eof_flag f |})
  end.

(** [getc(input)], [feof(input)], [feof(stdin)]. *)
Definition getc_input : M Z :=
  fun w => let (c, f) := getc_file (input w) in Ret c (set_input f w).
Definition feof_input : M bool := gets (fun w => eof_flag (input w)).
Definition feof_stdin : M bool := gets (fun w => eof_flag (stdin w)).

(** [putc(c, output)] and [fprintf] of a formatted byte string to each
    stream. *)
Definition fput_output (bs : list Z) : M unit :=
  modify (fun w => set_output (output w ++ bs) w).
Definition putc_output (c : Z) : M unit := fput_output [uchar c].
Definition fput_stderr (bs : list Z) : M unit :=
  modify (fun w => set_stderr (stderr w ++ bs) w).
Definition fput_stdout (bs : list Z) : M unit :=
  modify (fun w => set_stdout (stdout w ++ bs) w).
Definition fput_logfile (bs : list Z) : M unit :=
  modify (fun w => set_logfile (logfile w ++ bs) w).

(** [alarm(seconds)]. *)
Definition alarm (seconds : Z) : M unit := modify (set_alarm_timer seconds).

(** A statement run for each element of [l] in turn. *)
Fixpoint for_each {A} (l : list A) (body : A -> M unit) : M unit :=
  match l with
  | [] => ret tt
  | x :: r => body x >> for_each r body
  end.

(* ===================================================================== *)
(** ** newline, SIGALRM_handler *)

(** [void newline(int n)]: [n] times the telnet line break CR NUL LF. *)
Definition newline (n : Z) : M unit :=
  for_each (seqZ 0 n) (fun _ =>
    putc_output 13 >> putc_output 0 >> putc_output 10).

Definition rejection_banner : list Z :=
  ESC :: bytes "[1;31m*** You must connect using a real telnet client. ***"
  ++ ESC :: bytes "[0m".

(** [void SIGALRM_handler(int sig)]. *)
Definition SIGALRM_handler : M unit :=
  alarm 0 >>
  fput_stderr (bytes "Bad telnet negotiation, exiting." ++ [10]) >>
  fput_output (ESC :: bytes "[?25h" ++ ESC :: bytes "[0m"
               ++ ESC :: bytes "[H" ++ ESC :: bytes "[2J") >>
  fput_output rejection_banner >>
  newline 1 >>
  _exit EXIT_FAILURE.

(* ===================================================================== *)
(** ** readline *)

Inductive loop_ctl (A : Type) : Type :=
| Continue (a : A)   (* [continue], or the end of the body *)
| Break (a : A).     (* [break] *)
Arguments Continue {A} a.
Arguments Break {A} a.

(** The variables of [readline] that its loop changes: the caller's array
    and the cursor [i]. *)
Record rl_vars := { buffer : list Z; rl_i : Z }.

Section Readline.
Context `{CI : c_impl}.

(** The loop test [i < size - 1]: [i] is an [int] and [size] a [size_t],
    so both sides are taken as [size_t]. *)
Definition readline_test (size : Z) (v : rl_vars) : bool :=
  to_size_t (rl_i v) <? to_size_t (size - 1).

(** The body of the [for] loop from [if (c == '\n' || c == '\r')] on:
    what the editor does with the input byte [c]. *)
Definition readline_key (password : Z) (v : rl_vars) (c : Z)
  : M (loop_ctl rl_vars) :=
  if (c =? 10) || (c =? 13) then
    newline 1 >> ret (Break v)
  else if (c =? 8) || (c =? 127) then
    if rl_i v =? 0 then
      ret (Continue {| buffer := buffer v; rl_i := -1 |})
    else if negb (password =? 0) then
      fput_output (ESC :: bytes "[" ++ fmt_d (rl_i v) ++ bytes "D"
                   ++ ESC :: bytes "[K") >>
      ret (Continue {| buffer := buffer v; rl_i := -1 |})
    else
      fput_output (8 :: bytes " " ++ [8]) >>
      ret (Continue {| buffer := buffer v; rl_i := rl_i v - 2 |})
  else if c =? 255 then _exit EXIT_SUCCESS
  else
    let* b := lift (arr_set (buffer v) (rl_i v) c) in
    putc_output (if negb (password =? 0) then 42 else c) >>
    ret (Continue {| buffer := b; rl_i := rl_i v |}).

(** One run of the body of the [for] loop, up to but not including the
    [++i] that follows it. *)
Definition readline_body (password : Z) (v : rl_vars) : M (loop_ctl rl_vars) :=
  let* e := feof_input in
  if (e : bool) then _exit EXIT_SUCCESS else
  let* c := getc_input in
  let c := uchar c in
  let* c := (if c =? 0 then let* c := getc_input in ret (uchar c) else ret c) in
  readline_key password v c.

(** [++i]. *)
Definition rl_incr (v : rl_vars) : rl_vars :=
  {| buffer := buffer v; rl_i := rl_i v + 1 |}.

(** [for (...; i < size - 1; ++i) { body }], started at cursor [rl_i v]. *)
Fixpoint readline_loop (fuel : nat) (size password : Z) (v : rl_vars)
  : M rl_vars :=
  if readline_test size v then
    match fuel with
    | O => out_of_fuel
    | S fuel =>
        let* r := readline_body password v in
        match r with
        | Break v' => ret v'
        | Continue v' => readline_loop fuel size password (rl_incr v')
        end
    end
  else ret v.

(** [void readline(char *buffer, size_t size, int password)]; the result
    is the caller's array after the call. *)
Definition readline (fuel : nat) (buf : list Z) (size password : Z)
  : M (list Z) :=
  fput_output (ESC :: bytes "[?25h") >>
  let* v := readline_loop fuel size password {| buffer := buf; rl_i := 0 |} in
  let* b := lift (arr_set (buffer v) (rl_i v) 0) in
  fput_output (ESC :: bytes "[?25l") >>
  ret b.
End Readline.

(* ===================================================================== *)
(** ** send_command, set_options *)

Section Negotiation.
Context `{TH : telnet_h} `{CI : c_impl}.

(** [void send_command(int cmd, int opt)]. *)
Definition send_command (cmd opt : Z) : M unit :=
  if (cmd =? DO) || (cmd =? DONT) then
    let* t := gets telnet_do_set in
    let* cur := lift (arr_get t opt) in
    if ((cmd =? DO) && negb (cur =? DO))
       || ((cmd =? DONT) && negb (cur =? DONT)) then
      let* t' := lift (arr_set t opt (uchar cmd)) in
      modify (set_telnet_do_set t') >>
      fput_output [uchar IAC; uchar cmd; uchar opt]
    else ret tt
  else if (cmd =? WILL) || (cmd =? WONT) then
    let* t := gets telnet_will_set in
    let* cur := lift (arr_get t opt) in
    if ((cmd =? WILL) && negb (cur =? WILL))
       || ((cmd =? WONT) && negb (cur =? WONT)) then
      let* t' := lift (arr_set t opt (uchar cmd)) in
      modify (set_telnet_will_set t') >>
      fput_output [uchar IAC; uchar cmd; uchar opt]
    else ret tt
  else
    fput_output [uchar IAC; uchar cmd].

(** [telnet_options[o] = v;] and [telnet_willack[o] = v;]. *)
Definition store_telnet_options (o v : Z) : M unit :=
  let* t := gets telnet_options in
  let* t' := lift (arr_set t o (uchar v)) in
  modify (set_telnet_options t').
Definition store_telnet_willack (o v : Z) : M unit :=
  let* t := gets telnet_willack in
  let* t' := lift (arr_set t o (uchar v)) in
  modify (set_telnet_willack t').

(** [void set_options()]. *)
Definition set_options : M unit :=
  store_telnet_options ECHO WILL >>
  store_telnet_options SGA WILL >>
  store_telnet_options NEW_ENVIRON WONT >>
  store_telnet_willack ECHO DONT >>
  store_telnet_willack SGA DO >>
  store_telnet_willack NAWS DO >>
  store_telnet_willack TTYPE DO >>
  store_telnet_willack LINEMODE DONT >>
  store_telnet_willack NEW_ENVIRON DO >>
  for_each (seqZ 0 256) (fun option =>
    let* t := gets telnet_options in
    let* v := lift (arr_get t option) in
    if negb (v =? 0) then send_command v option else ret tt) >>
  for_each (seqZ 0 256) (fun option =>
    let* t := gets telnet_willack in
    let* v := lift (arr_get t option) in
    if negb (v =? 0) then send_command v option else ret tt).

(* =================================================================== *)
(** ** negotiate_telnet *)

(** The local variables of [negotiate_telnet] ([ttype] is never used;
    [opt] and [i] do not outlive one run of the loop body). *)
Record neg_vars := {
  term : list Z;          (* char term[1024] *)
  done : Z;
  sb_mode : Z;
  do_echo : Z;
  terminal_width : Z;
  sb_len : Z;
  sb : list Z             (* char sb[1024] *)
}.

Definition set_term (t : list Z) (v : neg_vars) : neg_vars :=
  {| term := t; done := done v; sb_mode := sb_mode v; do_echo := do_echo v;
     terminal_width := terminal_width v; sb_len := sb_len v; sb := sb v |}.
Definition set_done (d : Z) (v : neg_vars) : neg_vars :=
  {| term := term v; done := d; sb_mode := sb_mode v; do_echo := do_echo v;
     terminal_width := terminal_width v; sb_len := sb_len v; sb := sb v |}.
Definition set_sb_mode (m : Z) (v : neg_vars) : neg_vars :=
  {| term := term v; done := done v; sb_mode := m; do_echo := do_echo v;
     terminal_width := terminal_width v; sb_len := sb_len v; sb := sb v |}.
Definition set_do_echo (e : Z) (v : neg_vars) : neg_vars :=
  {| term := term v; done := done v; sb_mode := sb_mode v; do_echo := e;
     terminal_width := terminal_width v; sb_len := sb_len v; sb := sb v |}.
Definition set_terminal_width (x : Z) (v : neg_vars) : neg_vars :=
  {| term := term v; done := done v; sb_mode := sb_mode v;
     do_echo := do_echo v; terminal_width := x; sb_len := sb_len v;
     sb := sb v |}.
Definition set_sb_len (n : Z) (v : neg_vars) : neg_vars :=
  {| term := term v; done := done v; sb_mode := sb_mode v;
     do_echo := do_echo v; terminal_width := terminal_width v; sb_len := n;
     sb := sb v |}.
Definition set_sb (b : list Z) (v : neg_vars) : neg_vars :=
  {| term := term v; done := done v; sb_mode := sb_mode v;
     do_echo := do_echo v; terminal_width := terminal_width v;
     sb_len := sb_len v; sb := b |}.

(** The variables as the declarations and the [memset] before the loop
    leave them: [term] holds "ansi" and is otherwise zero. *)
Definition neg_init : neg_vars :=
  {| term := bytes "ansi" ++ replicate 1020%nat 0;
     done := 0; sb_mode := 0; do_echo := 0; terminal_width := 80;
     sb_len := 0; sb := replicate 1024%nat 0 |}.

(** [case SE:] *)
Definition neg_case_SE (v : neg_vars) : M neg_vars :=
  let v := set_sb_mode 0 v in
  let* sb0 := lift (arr_get (sb v) 0) in
  if char_val sb0 =? TTYPE then
    alarm 0 >>
    let* t := lift (strncpy (term v) (drop 2 (sb v)) (1024 - 1)) in
    let* t := lift (arr_set t (1024 - 1) 0) in
    ret (set_done (done v + 1) (set_term t v))
  else if char_val sb0 =? NAWS then
    alarm 0 >>
    let* sb2 := lift (arr_get (sb v) 2) in
    ret (set_done (done v + 1) (set_terminal_width (char_val sb2) v))
  else ret v.

(** [case WILL: case WONT:], entered with the verb [i]. *)
Definition neg_case_WILL_WONT (i : Z) (v : neg_vars) : M neg_vars :=
  let* c := getc_input in
  let opt := uchar c in
  let* t := gets telnet_willack in
  let* cur := lift (arr_get t opt) in
  (if cur =? 0 then store_telnet_willack opt WONT else ret tt) >>
  let* t := gets telnet_willack in
  let* cur := lift (arr_get t opt) in
  send_command cur opt >>
  (if (i =? WILL) && (opt =? TTYPE) then
     fput_output [uchar IAC; uchar SB; uchar TTYPE; uchar SEND;
                  uchar IAC; uchar SE]
   else ret tt) >>
  ret v.

(** [case DO: case DONT:], entered with the verb [i]. *)
Definition neg_case_DO_DONT (i : Z) (v : neg_vars) : M neg_vars :=
  let* c := getc_input in
  let opt := uchar c in
  let* t := gets telnet_options in
  let* cur := lift (arr_get t opt) in
  (if cur =? 0 then store_telnet_options opt DONT else ret tt) >>
  let* t := gets telnet_options in
  let* cur := lift (arr_get t opt) in
  send_command cur opt >>
  ret (if opt =? ECHO then set_do_echo (if i =? DO then 1 else 0) v else v).

(** [switch (i) { ... }]: the chain of its cases in source order. *)
Definition neg_switch (i : Z) (v : neg_vars) : M neg_vars :=
  if i =? SE then neg_case_SE v
  else if i =? NOP then send_command NOP 0 >> ret v
  else if (i =? WILL) || (i =? WONT) then neg_case_WILL_WONT i v
  else if (i =? DO) || (i =? DONT) then neg_case_DO_DONT i v
  else if i =? SB then
    ret (set_sb (memset0 (sb v)) (set_sb_len 0 (set_sb_mode 1 v)))
  else if i =? IAC then ret (set_done 2 v)
  else ret v.

(** One run of the body of the [while] loop; [sb_len < (sizeof(sb) - 1)]
    compares an [int] with a [size_t]. *)
Definition negotiate_body (v : neg_vars) : M neg_vars :=
  let* c := getc_input in
  let i := uchar c in
  if i =? IAC then
    let* c := getc_input in
    neg_switch (uchar c) v
  else if negb (sb_mode v =? 0) then
    if to_size_t (sb_len v) <? to_size_t (1024 - 1) then
      let* b := lift (arr_set (sb v) (sb_len v) i) in
      ret (set_sb_len (sb_len v + 1) (set_sb b v))
    else ret v
  else ret v.

(** [while (!feof(stdin) && done < 2) { body }]. *)
Fixpoint negotiate_loop (fuel : nat) (v : neg_vars) : M neg_vars :=
  let* e := feof_stdin in
  if negb e && (done v <? 2) then
    match fuel with
    | O => out_of_fuel
    | S fuel => let* v' := negotiate_body v in negotiate_loop fuel v'
    end
  else ret v.

(** [void negotiate_telnet()].  The C function drops its variables when
    it returns; the embedding returns them, as the capability snapshot
    ([term], [terminal_width], [do_echo]) the loop has computed. *)
Definition negotiate_telnet (fuel : nat) : M neg_vars :=
  set_options >>
  alarm 1 >>
  negotiate_loop fuel neg_init.

(* =================================================================== *)
(** ** handle_connection *)

Definition title : list Z := bytes "Welcome to kexec.com".
Definition heading : list Z :=
  bytes "                  " ++ ESC :: bytes "[1mkexec.com Administration Console"
  ++ ESC :: bytes "[0m".
Definition clear_screen : list Z :=
  ESC :: bytes "[H" ++ ESC :: bytes "[2J" ++ ESC :: bytes "[?25l".
Definition username_prompt : list Z :=
  ESC :: bytes "[1;32mUsername: " ++ ESC :: bytes "[0m".
Definition password_prompt : list Z :=
  ESC :: bytes "[1;32mPassword: " ++ ESC :: bytes "[0m".

(** One run of the body of [while (1)] in [handle_connection], on the
    arrays [username] and [password]. *)
Definition session_body (fuel : nat) (ipaddr : list Z)
    (up : list Z * list Z) : M (list Z * list Z) :=
  let '(username, password) := up in
  fput_output username_prompt >>
  let* username := readline fuel username 1024 0 in
  fput_output password_prompt >>
  let* password := readline fuel password 1024 1 in
  newline 2 >>
  let* ip := lift (cstring ipaddr) in
  let* u := lift (cstring username) in
  let* p := lift (cstring password) in
  fput_logfile (ip ++ bytes " - " ++ u ++ bytes ":" ++ p ++ [10]) >>
  fput_stdout (bytes "Honeypotted: " ++ ip ++ bytes " - " ++ u
               ++ bytes ":" ++ p ++ [10]) >>
  newline 1 >>
  fput_output (ESC :: bytes "[1;31mInvalid credentials. Please try again."
               ++ ESC :: bytes "[0m") >>
  fput_output clear_screen >>
  fput_output heading >>
  newline 2 >>
  (if negb (existsb (Z.eqb 64) u) then
     fput_output (ESC :: bytes "[1;34mBe sure to include the domain in your username (e.g. @gmail.com).") >>
     newline 2
   else ret tt) >>
  ret (username, password).

Fixpoint session_loop (fuel n : nat) (ipaddr : list Z)
    (up : list Z * list Z) : M unit :=
  match n with
  | O => out_of_fuel
  | S n =>
      let* up' := session_body fuel ipaddr up in
      session_loop fuel n ipaddr up'
  end.

(** The terminal titles, the cleared screen and the banner that
    [handle_connection] writes between the negotiation and its loop. *)
Definition greeting : M unit :=
  fput_output (ESC :: bytes "k" ++ title ++ [ESC; 92]) >>
  fput_output (ESC :: bytes "]1;" ++ title ++ [7]) >>
  fput_output (ESC :: bytes "]2;" ++ title ++ [7]) >>
  fput_output clear_screen >>
  fput_output heading >>
  newline 3 >>
  fput_output (bytes "This console uses " ++ ESC :: bytes "[1;34mGoogle App Engine"
               ++ ESC :: bytes "[0m for authentication. To login as") >>
  newline 1 >>
  fput_output (bytes "an administrator, enter the admin account credentials. If you do not") >>
  newline 1 >>
  fput_output (bytes "yet have an account on kexec, enter your Google credentials to begin.") >>
  newline 4.

(** [void handle_connection(int fd, char *ipaddr)], from the point where
    both [fdopen] calls have succeeded: [input] and [output] of the world
    are the two streams of the connection.  [username] and [password] are
    the initial contents of the two uninitialised arrays.  [fuel] bounds
    the iterations of each loop. *)
Definition handle_connection (fuel : nat) (ipaddr username password : list Z)
  : M unit :=
  negotiate_telnet fuel >>
  greeting >>
  session_loop fuel fuel ipaddr (username, password).
End Negotiation.

(** The state of a worker when [handle_connection] starts on a connection
    that will deliver the bytes [inp]: nothing read or written yet, no
    alarm pending, and the four global tables zero as their initialisers
    leave them. *)
Definition fresh_world (inp : list Z) : world :=
  {| input := {| pending := inp; eof_flag := false |};
     stdin := {| pending := []; eof_flag := false |};
     output := []; logfile := []; stdout := []; stderr := [];
     alarm_timer := 0;
     telnet_options := replicate 256%nat 0;
     telnet_willack := replicate 256%nat 0;
     telnet_do_set := replicate 256%nat 0;
     telnet_will_set := replicate 256%nat 0 |}.

(* ===================================================================== *)
(** ** Well-formedness conditions and the transition relations *)

(** What a C compiler and the code's array indexing demand of [telnet.h]:
    every code fits a byte, and the labels of the [switch] in
    [negotiate_telnet] are pairwise different. *)
Record telnet_h_ok `{telnet_h} : Prop := {
  codes_are_bytes :
    Forall (fun c => 0 <= c < 256)
      [IAC; DONT; DO; WONT; WILL; SB; SE; NOP; ECHO; SGA; NAWS; TTYPE;
       LINEMODE; NEW_ENVIRON; SEND];
  switch_labels_differ : NoDup [SE; NOP; WILL; WONT; DO; DONT; SB; IAC]
}.

(** The four global tables have their declared length. *)
Record tables_ok (w : world) : Prop := {
  len_telnet_options : length (telnet_options w) = 256%nat;
  len_telnet_willack : length (telnet_willack w) = 256%nat;
  len_telnet_do_set : length (telnet_do_set w) = 256%nat;
  len_telnet_will_set : length (telnet_will_set w) = 256%nat
}.

(** The two local arrays of [negotiate_telnet] have their declared length,
    the fill level of [sb] is inside its bounds, and the last byte of [sb]
    is NUL. *)
Record vars_ok (v : neg_vars) : Prop := {
  len_sb : length (sb v) = 1024%nat;
  len_term : length (term v) = 1024%nat;
  sb_len_range : 0 <= sb_len v <= 1023;
  sb_last_nul : sb v !! 1023%nat = Some 0
}.

(** One full turn of the [for] loop of [readline]: the test holds, the body
    runs to its end or to a [continue], and [++i] follows. *)
Definition rl_step `{c_impl} (size password : Z)
    (s s' : rl_vars * world) : Prop :=
  readline_test size (fst s) = true /\
  exists v0, readline_body password (fst s) (snd s) = Ret (Continue v0) (snd s')
             /\ fst s' = rl_incr v0.

(** The negotiation as a transition system.  A worker is inside the loop
    of [negotiate_telnet], has left it, or has terminated.  While the alarm
    is pending, SIGALRM may be delivered between any two turns of the loop,
    and runs [SIGALRM_handler]. *)
Inductive neg_state : Type :=
| Looping (v : neg_vars) (w : world)
| Left (v : neg_vars) (w : world)
| Terminated (status : Z) (w : world).

Inductive neg_step `{telnet_h} `{c_impl} : neg_state -> neg_state -> Prop :=
| step_turn v w v' w' :
    negb (eof_flag (stdin w)) && (done v <? 2) = true ->
    negotiate_body v w = Ret v' w' ->
    neg_step (Looping v w) (Looping v' w')
| step_leave v w :
    negb (eof_flag (stdin w)) && (done v <? 2) = false ->
    neg_step (Looping v w) (Left v w)
| step_alarm v w status w' :
    alarm_timer w <> 0 ->
    SIGALRM_handler w = Exited status w' ->
    neg_step (Looping v w) (Terminated status w').

(** The stance [c] for the option [opt] is a negotiation verb and is the
    value agreed for [opt] in the table of its direction. *)
Definition agreed `{telnet_h} (w : world) (c opt : Z) : Prop :=
  ((c = DO \/ c = DONT) /\ arr_get (telnet_do_set w) opt = Some c)
  \/ ((c = WILL \/ c = WONT) /\ arr_get (telnet_will_set w) opt = Some c).

(** The request for the terminal type that follows a WILL TTYPE, sent
    after the reply to the verb [i] for the option [opt]. *)
Definition ttype_request `{telnet_h} (i opt : Z) : list Z :=
  if (i =? WILL) && (opt =? TTYPE)
  then [uchar IAC; uchar SB; uchar TTYPE; uchar SEND; uchar IAC; uchar SE]
  else [].

(** The effect of one sub-negotiation payload byte [b] on the variables:
    the [else if (sb_mode)] branch of the loop body. *)
Definition sb_append (v : neg_vars) (b : Z) : neg_vars :=
  if sb_len v <? 1023
  then set_sb_len (sb_len v + 1)
         (set_sb (<[Z.to_nat (sb_len v) := uchar b]> (sb v)) v)
  else v.

(** The contents of [term] after [strncpy(term, &sb[2], sizeof(term) - 1)]
    and [term[sizeof(term) - 1] = 0], for [term] holding [t] and [sb]
    holding [sbuf]. *)
Definition resolved_term (t sbuf : list Z) : list Z :=
  <[1023%nat := 0]>
    (until_nul (drop 2 sbuf)
     ++ replicate (1023 - length (until_nul (drop 2 sbuf)))%nat 0
     ++ drop 1023 t).

(** What every turn of the loop of [negotiate_telnet] guarantees, from
    variables [v] and world [w] to [v'] and [w']: the arrays stay well
    formed, standard input is not touched, the connection's stream does
    not grow, and the turn either leaves the resolution counter and the
    alarm alone, or counts one resolution and cancels the alarm, or sets
    the counter to 2. *)
Record turn_post (v : neg_vars) (w : world) (v' : neg_vars) (w' : world)
  : Prop := {
  tp_vars : vars_ok v';
  tp_tables : tables_ok w';
  tp_stdin : stdin w' = stdin w;
  tp_input :
    (length (pending (input w')) <= length (pending (input w)))%nat;
  tp_done :
    (done v' = done v /\ alarm_timer w' = alarm_timer w)
    \/ (done v' = done v + 1 /\ alarm_timer w' = 0)
    \/ (done v' = 2 /\ alarm_timer w' = alarm_timer w)
}.

(** The relation between the resolution counter and the alarm in the
    states of the negotiation, and how a terminated worker ended. *)
Definition alarm_follows_done (s : neg_state) : Prop :=
  match s with
  | Looping v w | Left v w =>
      (done v = 0 -> alarm_timer w = 1) /\ (done v = 1 -> alarm_timer w = 0)
  | Terminated status w =>
      status = EXIT_FAILURE /\ alarm_timer w = 0
      /\ exists o, output w = o ++ rejection_banner ++ [13; 0; 10]
  end.

(** The invariant of the negotiation: well-formed arrays and tables, a
    resolution counter that is not negative, and [alarm_follows_done]. *)
Definition neg_inv (s : neg_state) : Prop :=
  match s with
  | Looping v w | Left v w => vars_ok v /\ tables_ok w /\ 0 <= done v
  | Terminated _ _ => True
  end /\ alarm_follows_done s.

(** [emits c bs]: all that [c] does is to send the bytes [bs] to the peer. *)
Definition emits (c : M unit) (bs : list Z) : Prop :=
  forall w, c w = Ret tt (set_output (output w ++ bs) w).

(** The bytes that [greeting] writes. *)
Definition greeting_bytes : list Z :=
  Eval vm_compute in
    match greeting (World {| pending := []; eof_flag := false |}
                      {| pending := []; eof_flag := false |}
                      [] [] [] [] 0 [] [] [] []) with
    | Ret _ w => output w
    | _ => []
    end.

(** Peer input for the scenarios, in the codes of [rfc854]: the answer
    IAC SB TTYPE IS "xterm" IAC SE followed by IAC SB NAWS 0 120 0 24 IAC SE
    (a window of 120 columns and 24 rows), and IAC SB TTYPE IAC SE. *)
Definition xterm_120 : list Z :=
  [255; 250; 24; 0] ++ bytes "xterm"
  ++ [255; 240; 255; 250; 31; 0; 120; 0; 24; 255; 240].

Definition empty_ttype : list Z := [255; 250; 24; 255; 240].

(** The world in which the loop of [negotiate_telnet] starts, under
    [rfc854], on a connection that delivers [inp]. *)
Definition loop_start (inp : list Z) : world :=
  match (@set_options rfc854 >> alarm 1) (fresh_world inp) with
  | Ret _ w => w
  | _ => fresh_world inp
  end.

(** [n] turns of the loop body in a row. *)
Fixpoint turns `{telnet_h} `{c_impl} (n : nat) (v : neg_vars) : M neg_vars :=
  match n with
  | O => ret v
  | S n => let* v' := negotiate_body v in turns n v'
  end.

(** The state of the negotiation, under [rfc854], after the three turns
    that take IAC SB, TTYPE and IAC SE of [empty_ttype]. *)
Definition after_empty_ttype : neg_state :=
  match @turns rfc854 lp64_signed_char 3 neg_init (loop_start empty_ttype) with
  | Ret v w => Looping v w
  | _ => Looping neg_init (loop_start empty_ttype)
  end.

(** A peer address, and the initial contents of an uninitialised array of
    1024 bytes. *)
Definition peer_address : list Z := bytes "::1" ++ [0].
Definition junk : list Z := replicate 1024%nat 7.

(** The variables after [case SB:]. *)
Definition after_SB (v : neg_vars) : neg_vars :=
  set_sb (memset0 (sb v)) (set_sb_len 0 (set_sb_mode 1 v)).

(** The variables after [case SE:] has taken [sb] for a terminal type. *)
Definition after_SE_TTYPE (v : neg_vars) : neg_vars :=
  set_done (done v + 1)
    (set_term (resolved_term (term v) (sb v)) (set_sb_mode 0 v)).

(** The world after a read has found the connection's stream exhausted. *)
Definition at_eof (w : world) : world :=
  if eof_flag (input w) then w
  else set_input {| pending := []; eof_flag := true |} w.

(** The world [w] with the bytes [bs] still to come on the connection. *)
Definition with_pending (bs : list Z) (w : world) : world :=
  set_input {| pending := bs; eof_flag := eof_flag (input w) |} w.

(** What [send_command] and the table updates of the loop leave alone. *)
Record replies_only (w w' : world) : Prop := {
  same_input : input w' = input w;
  same_stdin : stdin w' = stdin w;
  same_alarm_timer : alarm_timer w' = alarm_timer w
}.

(** [wp c Q w]: run in [w], the computation [c] returns, with a value and
    in a world that satisfy [Q]. *)
Definition wp {A} (c : M A) (Q : A -> world -> Prop) (w : world) : Prop :=
  match c w with
  | Ret a w' => Q a w'
  | _ => False
  end.

(* ===================================================================== *)
(** ** The other signal handler *)

(** [void SIGINT_handler(int sig)]. *)
Definition SIGINT_handler : M unit :=
  fput_stderr (bytes "Got CTRL+C, exiting gracefully." ++ [10]) >>
  fput_output (ESC :: bytes "[?25h" ++ ESC :: bytes "[0m"
               ++ ESC :: bytes "[H" ++ ESC :: bytes "[2J") >>
  _exit EXIT_SUCCESS.

(* ===================================================================== *)
(** ** What a computation leaves alone, and what it returns *)

(** [keeps R c]: whenever [c] ends, by returning or by [_exit], the world
    it leaves is related by [R] to the one it started in. *)
Definition keeps {A} (R : relation world) (c : M A) : Prop :=
  forall w, match c w with
            | Ret _ w' | Exited _ w' => R w w'
            | Fault | OutOfFuel => True
            end.

(** [yields c P]: whatever [c] returns satisfies [P]. *)
Definition yields {A} (c : M A) (P : A -> Prop) : Prop :=
  forall w, match c w with Ret a _ => P a | _ => True end.

(** [w'] is [w] after some bytes were read from the connection and some
    were sent to it; nothing else differs. *)
Record talked (w w' : world) : Prop := {
  talked_input : pending (input w') `suffix_of` pending (input w);
  talked_output : output w `prefix_of` output w';
  talked_stdin : stdin w' = stdin w;
  talked_logfile : logfile w' = logfile w;
  talked_stdout : stdout w' = stdout w;
  talked_stderr : stderr w' = stderr w;
  talked_alarm_timer : alarm_timer w' = alarm_timer w;
  talked_telnet_options : telnet_options w' = telnet_options w;
  talked_telnet_willack : telnet_willack w' = telnet_willack w;
  talked_telnet_do_set : telnet_do_set w' = telnet_do_set w;
  talked_telnet_will_set : telnet_will_set w' = telnet_will_set w
}.

(** What the negotiation may do to the world: read from the connection
    and write to it.  The tables and the alarm are its own. *)
Record negotiated (w w' : world) : Prop := {
  negotiated_input : pending (input w') `suffix_of` pending (input w);
  negotiated_output : output w `prefix_of` output w';
  negotiated_stdin : stdin w' = stdin w;
  negotiated_logfile : logfile w' = logfile w;
  negotiated_stdout : stdout w' = stdout w;
  negotiated_stderr : stderr w' = stderr w
}.

(** What the peer sees of a run: how it ended, and the bytes sent. *)
Inductive seen : Type :=
| SeenReturn (o : list Z)
| SeenExit (status : Z) (o : list Z)
| SeenFault
| SeenOutOfFuel.

Definition view {A} (r : result A) : seen :=
  match r with
  | Ret _ w => SeenReturn (output w)
  | Exited s w => SeenExit s (output w)
  | Fault => SeenFault
  | OutOfFuel => SeenOutOfFuel
  end.

(* ===================================================================== *)
(** ** The keys of the line editor *)

(** A byte that [readline] can store at a position below the cursor: it
    is none of the bytes the editor acts upon.  NUL is among them: it is
    stored when it follows a NUL. *)
Definition stored_byte (c : Z) : Prop :=
  0 <= c < 255 /\ c <> 8 /\ c <> 10 /\ c <> 13 /\ c <> 127.

(** A byte of a field that is read back as a C string. *)
Definition field_byte (c : Z) : Prop := stored_byte c /\ c <> 0.

(** The cursor and the array of [readline] between two turns of its loop
    on an array of [size] bytes. *)
Definition rl_ok (size : Z) (v : rl_vars) : Prop :=
  0 <= rl_i v <= size - 1
  /\ Z.of_nat (length (buffer v)) = size
  /\ Forall stored_byte (take (Z.to_nat (rl_i v)) (buffer v)).

(** The kinds of byte that [readline] tells apart. *)
Inductive key_kind : Type := KNul | KEnd | KErase | KStop | KChar.

Definition key_class (c : Z) : key_kind :=
  let c := uchar c in
  if c =? 0 then KNul
  else if (c =? 10) || (c =? 13) then KEnd
  else if (c =? 8) || (c =? 127) then KErase
  else if c =? 255 then KStop
  else KChar.

(** A key of a line under edition: any byte but NUL, 0xff and the two
    line ends. *)
Definition edit_key (c : Z) : Prop := 0 < c < 255 /\ c <> 10 /\ c <> 13.

(** The field after the key [k] was typed into a field that held [line]:
    backspace and delete take the last character away, or the whole field
    when it is masked; any other key is appended. *)
Definition line_after (password : Z) (line : list Z) (k : Z) : list Z :=
  if (k =? 8) || (k =? 127) then
    if negb (password =? 0) then [] else take (length line - 1) line
  else line ++ [k].

(** The bytes sent to the peer for the key [k] typed into [line]. *)
Definition echo_of (password : Z) (line : list Z) (k : Z) : list Z :=
  if (k =? 8) || (k =? 127) then
    if (length line =? 0)%nat then []
    else if negb (password =? 0) then
      ESC :: bytes "[" ++ fmt_d (Z.of_nat (length line)) ++ bytes "D"
      ++ ESC :: bytes "[K"
    else [8; 32; 8]
  else [if negb (password =? 0) then 42 else k].

Fixpoint echoes (password : Z) (line keys : list Z) : list Z :=
  match keys with
  | [] => []
  | k :: r => echo_of password line k
              ++ echoes password (line_after password line k) r
  end.

(** The field that the keys [keys] leave. *)
Definition typed (password : Z) (keys : list Z) : list Z :=
  fold_left (line_after password) keys [].


(** Two states of the editor that differ in the characters typed only. *)
Definition same_shape (s1 s2 : rl_vars * world) : Prop :=
  rl_i (fst s1) = rl_i (fst s2)
  /\ length (buffer (fst s1)) = length (buffer (fst s2))
  /\ map key_class (pending (input (snd s1)))
     = map key_class (pending (input (snd s2)))
  /\ eof_flag (input (snd s1)) = eof_flag (input (snd s2))
  /\ output (snd s1) = output (snd s2).

Definition same_run (r1 r2 : result (loop_ctl rl_vars)) : Prop :=
  match r1, r2 with
  | Ret (Break v1) w1, Ret (Break v2) w2
  | Ret (Continue v1) w1, Ret (Continue v2) w2 => same_shape (v1, w1) (v2, w2)
  | Exited s1 w1, Exited s2 w2 => s1 = s2 /\ output w1 = output w2
  | Fault, Fault | OutOfFuel, OutOfFuel => True
  | _, _ => False
  end.

Definition same_end (r1 r2 : result rl_vars) : Prop :=
  match r1, r2 with
  | Ret v1 w1, Ret v2 w2 => same_shape (v1, w1) (v2, w2)
  | Exited s1 w1, Exited s2 w2 => s1 = s2 /\ output w1 = output w2
  | Fault, Fault | OutOfFuel, OutOfFuel => True
  | _, _ => False
  end.

(* ===================================================================== *)
(** ** The log *)

(** The line that a session turn writes to the log for the peer address
    [ip], the user name [u] and the password [p]. *)
Definition log_line (ip u p : list Z) : list Z :=
  ip ++ bytes " - " ++ u ++ bytes ":" ++ p ++ [10].

Definition domain_hint : list Z :=
  ESC :: bytes "[1;34mBe sure to include the domain in your username (e.g. @gmail.com).".

(** The bytes sent to the peer once both fields are read, for the user
    name [u]. *)
Definition rejection (u : list Z) : list Z :=
  [13; 0; 10; 13; 0; 10] ++ [13; 0; 10]
  ++ (ESC :: bytes "[1;31mInvalid credentials. Please try again."
      ++ ESC :: bytes "[0m")
  ++ clear_screen ++ heading ++ [13; 0; 10; 13; 0; 10]
  ++ (if existsb (Z.eqb 64) u then []
      else domain_hint ++ [13; 0; 10; 13; 0; 10]).

(** The world after a session turn that read both fields and left [w]:
    the credentials are in the log and on standard output, and the
    rejection is on its way to the peer. *)
Definition turned_away (ip u p : list Z) (w : world) : world :=
  set_output (output w ++ rejection u)
    (set_stdout (stdout w ++ bytes "Honeypotted: " ++ log_line ip u p)
       (set_logfile (logfile w ++ log_line ip u p) w)).

(** The text of the log for the credentials [creds] taken from the peer
    [ip]. *)
Definition logged (ip : list Z) (creds : list (list Z * list Z)) : list Z :=
  flat_map (fun c => log_line ip (fst c) (snd c)) creds.

(** What the loop of [readline] makes of the bytes [s] that the stream
    delivers, on an array with room for [cap] characters that holds
    [line] below the cursor: the field and the bytes left unread, or
    [None] when the process ends inside the field (the stream ends, or
    holds 0xff).  [after_nul] tells that the byte before was a NUL that
    was skipped, so that the next byte is taken as it is. *)
Fixpoint read_field (cap : nat) (password : Z) (line : list Z)
    (after_nul : bool) (s : list Z) : option (list Z * list Z) :=
  match s with
  | [] => None
  | b :: r =>
      let c := uchar b in
      if (c =? 0) && negb after_nul then read_field cap password line true r
      else if (c =? 10) || (c =? 13) then Some (line, r)
      else if c =? 255 then None
      else
        let line' := line_after password line c in
        if (length line' <? cap)%nat
        then read_field cap password line' false r
        else Some (line', r)
  end.

(** The credentials that the session loop takes from the bytes [s]: a
    user name, shown, and a password, masked, each read into an array of
    1024 bytes and read back as a C string, as long as both fields are
    complete.  [n] bounds the number of pairs. *)
Fixpoint credentials (n : nat) (s : list Z) : list (list Z * list Z) :=
  match n with
  | O => []
  | S n =>
      match read_field 1023 0 [] false s with
      | None => []
      | Some (u, s1) =>
          match read_field 1023 1 [] false s1 with
          | None => []
          | Some (p, s2) => (until_nul u, until_nul p) :: credentials n s2
          end
      end
  end.

(** The credentials in what is left of a stream: none when its end was
    met already. *)
Definition credentials_in (f : FILE_in) : list (list Z * list Z) :=
  if eof_flag f then []
  else credentials (length (pending f)) (pending f).

(* ===================================================================== *)
(** ** More about the negotiation *)

(** The contents of [sb] once the payload [q] of a sub-negotiation has
    been read: its first 1023 bytes, and NULs. *)
Definition sb_holding (q : list Z) : list Z :=
  take 1023 (map uchar q)
  ++ replicate (1024 - length (take 1023 (map uchar q))) 0.

(** The capabilities that the negotiation has captured, and the payload
    array they are taken from. *)
Record caps_ok (v : neg_vars) : Prop := {
  caps_sb : Forall (fun b => 0 <= b < 256) (sb v);
  caps_term : exists s, cstring (term v) = Some s /\ (length s <= 1021)%nat;
  caps_width : -128 <= terminal_width v <= 255;
  caps_echo : do_echo v = 0 \/ do_echo v = 1
}.

Definition caps_state (s : neg_state) : Prop :=
  match s with
  | Looping v _ | Left v _ => caps_ok v /\ done v <= 2
  | Terminated _ _ => True
  end.

(** The tables of stances hold nothing but verbs of their direction:
    what the server will do in [telnet_options], what the peer is asked
    to do in [telnet_willack].  The zeroed tables of a fresh worker are
    such. *)
Definition stances_ok `{telnet_h} (w : world) : Prop :=
  Forall (fun c => c = 0 \/ c = WILL \/ c = WONT) (telnet_options w)
  /\ Forall (fun c => c = 0 \/ c = DO \/ c = DONT) (telnet_willack w).

(** Every stance of the two tables is the agreed value for its option. *)
Definition settled `{telnet_h} (w : world) : Prop :=
  forall o c,
    0 <= o < 256 -> c <> 0 ->
    arr_get (telnet_options w) o = Some c
    \/ arr_get (telnet_willack w) o = Some c ->
    agreed w c o.

(* ===================================================================== *)
(** ** drop_privileges *)

(** [struct passwd], as far as the code reads it. *)
Record passwd := { pw_uid : Z; pw_gid : Z }.

(** The system calls of [drop_privileges] on a system in state [K].
    What they do to the system and what they return is left open: a call
    gives its return value and the state it leaves.  [perror] and
    [fprintf(stderr, ...)] write to the standard error of that state. *)
Class posix (K : Type) := {
  geteuid : K -> Z;
  getegid : K -> Z;
  getpwnam : string -> K -> option passwd * K;
  chroot : string -> K -> Z * K;
  chdir : string -> K -> Z * K;
  setresgid : Z -> Z -> Z -> K -> Z * K;
  setgroups : list Z -> K -> Z * K;
  setresuid : Z -> Z -> Z -> K -> Z * K;
  perror : string -> K -> K;
  fprintf_stderr : list Z -> K -> K
}.

(** How a function of the start-up ends: it returns, or it calls
    [exit]. *)
Inductive outcome (K : Type) : Type :=
| Returned (k : K)
| Exit (status : Z) (k : K).
Arguments Returned {K} k.
Arguments Exit {K} status k.

(** [void drop_privileges()]. *)
Definition drop_privileges {K} `{posix K} (k : K) : outcome K :=
  if geteuid k =? 0 then
    let (user, k) := getpwnam "nobody" k in
    match user with
    | None => Exit EXIT_FAILURE (perror "getpwnam" k)
    | Some user =>
        let (r, k) := chroot "/var/empty" k in
        if negb (r =? 0) then Exit EXIT_FAILURE (perror "chroot" k) else
        let (r, k) := chdir "/" k in
        if negb (r =? 0) then Exit EXIT_FAILURE (perror "chdir" k) else
        let (r, k) := setresgid (pw_gid user) (pw_gid user) (pw_gid user) k in
        if negb (r =? 0) then Exit EXIT_FAILURE (perror "setresgid" k) else
        let (r, k) := setgroups [pw_gid user] k in
        if negb (r =? 0) then Exit EXIT_FAILURE (perror "setgroups" k) else
        let (r, k) := setresuid (pw_uid user) (pw_uid user) (pw_uid user) k in
        if negb (r =? 0) then Exit EXIT_FAILURE (perror "setresuid" k) else
        if (geteuid k =? 0) || (getegid k =? 0) then
          Exit EXIT_FAILURE
            (fprintf_stderr
               (bytes "Mysteriously still running as root... Goodbye." ++ [10])
               k)
        else Returned k
    end
  else Returned k.

(** A system for the examples: the identity of the process, its root, its
    working directory and its standard error.  Every call succeeds and
    does what POSIX says, and the user database knows "nobody" as
    [nobody]; [perror] writes its argument and a text for the error. *)
Record ids := {
  k_euid : Z; k_egid : Z; k_groups : list Z;
  k_root : string; k_cwd : string; k_stderr : list Z
}.

Definition set_k_stderr (e : list Z) (k : ids) : ids :=
  {| k_euid := k_euid k; k_egid := k_egid k; k_groups := k_groups k;
     k_root := k_root k; k_cwd := k_cwd k; k_stderr := e |}.

Definition plain_system (nobody : option passwd) : posix ids := {|
  geteuid := k_euid;
  getegid := k_egid;
  getpwnam := fun name k =>
    (if String.eqb name "nobody" then nobody else None, k);
  chroot := fun dir k =>
    (0, {| k_euid := k_euid k; k_egid := k_egid k; k_groups := k_groups k;
           k_root := dir; k_cwd := k_cwd k; k_stderr := k_stderr k |});
  chdir := fun dir k =>
    (0, {| k_euid := k_euid k; k_egid := k_egid k; k_groups := k_groups k;
           k_root := k_root k; k_cwd := dir; k_stderr := k_stderr k |});
  setresgid := fun r e s k =>
    (0, {| k_euid := k_euid k; k_egid := e; k_groups := k_groups k;
           k_root := k_root k; k_cwd := k_cwd k; k_stderr := k_stderr k |});
  setgroups := fun g k =>
    (0, {| k_euid := k_euid k; k_egid := k_egid k; k_groups := g;
           k_root := k_root k; k_cwd := k_cwd k; k_stderr := k_stderr k |});
  setresuid := fun r e s k =>
    (0, {| k_euid := e; k_egid := k_egid k; k_groups := k_groups k;
           k_root := k_root k; k_cwd := k_cwd k; k_stderr := k_stderr k |});
  perror := fun s k =>
    set_k_stderr (k_stderr k ++ bytes s ++ bytes ": error" ++ [10]) k;
  fprintf_stderr := fun bs k => set_k_stderr (k_stderr k ++ bs) k
|}.

(* ===================================================================== *)
(** ** Basic facts *)

(** Taking apart [NoDup] and [Forall] over a list that is written out. *)
Ltac nodup_facts H :=
  repeat (apply NoDup_cons in H as [? H]);
  repeat match goal with
         | X : _ ∉ _ |- _ => rewrite !not_elem_of_cons in X
         end.

Ltac forall_facts H := repeat (apply Forall_cons in H as [? H]).

(** Case analysis on every integer comparison of the goal. *)
Ltac case_eqb :=
  repeat match goal with
         | |- context [?a =? ?b] => destruct (Z.eqb_spec a b)
         end.

Lemma rfc854_ok : @telnet_h_ok rfc854.
Proof.
  split.
  - repeat constructor; cbn; lia.
  - cbn. repeat (constructor; [cbn; set_unfold; lia|]). constructor.
Qed.

Lemma uchar_range z : 0 <= uchar z < 256.
Proof. unfold uchar. apply Z.mod_pos_bound. lia. Qed.

Lemma uchar_byte z : 0 <= z < 256 -> uchar z = z.
Proof. intros. unfold uchar. apply Z.mod_small. lia. Qed.

Lemma uchar_EOF : uchar EOF = 255.
Proof. reflexivity. Qed.

Lemma to_size_t_small `{c_impl} z : 0 <= z <= SIZE_MAX -> to_size_t z = z.
Proof. intros. unfold to_size_t. apply Z.mod_small. lia. Qed.

Lemma arr_get_Some a i :
  0 <= i < Z.of_nat (length a) -> exists x, arr_get a i = Some x.
Proof.
  intros Hi. unfold arr_get.
  destruct (Z.leb_spec 0 i); [|lia].
  destruct (lookup_lt_is_Some_2 a (Z.to_nat i)) as [x Hx]; [lia|eauto].
Qed.

Lemma arr_set_Some a i x :
  0 <= i < Z.of_nat (length a) -> arr_set a i x = Some (<[Z.to_nat i := x]> a).
Proof.
  intros Hi. unfold arr_set.
  destruct (Z.leb_spec 0 i); [|lia].
  destruct (Z.ltb_spec i (Z.of_nat (length a))); [done|lia].
Qed.

(* ===================================================================== *)
(** ** The line editor *)

Section ReadlineFacts.
Context `{CI : c_impl}.

Lemma readline_test_spec size v :
  1 <= size <= SIZE_MAX -> 0 <= rl_i v <= size - 1 ->
  readline_test size v = (rl_i v <? size - 1).
Proof.
  intros. unfold readline_test.
  rewrite !to_size_t_small by lia. done.
Qed.

(** What the editor can do to the cursor and to the array on one byte. *)
Lemma readline_key_cursor password v c w :
  0 <= rl_i v < Z.of_nat (length (buffer v)) ->
  match readline_key password v c w with
  | Ret (Break v') _ => v' = v
  | Ret (Continue v') _ =>
      -1 <= rl_i v' <= rl_i v /\ length (buffer v') = length (buffer v)
  | Exited status _ => status = EXIT_SUCCESS
  | Fault => False
  | OutOfFuel => False
  end.
Proof.
  intros Hi. unfold readline_key.
  destruct ((c =? 10) || (c =? 13)); [done|].
  destruct ((c =? 8) || (c =? 127)).
  - destruct (Z.eqb_spec (rl_i v) 0) as [->|]; [cbn; lia|].
    destruct (negb (password =? 0)); cbn; lia.
  - destruct (c =? 255); [done|].
    unfold bind. rewrite arr_set_Some by lia. cbn.
    split; [lia|apply length_insert].
Qed.

Lemma readline_body_cursor password v w :
  0 <= rl_i v < Z.of_nat (length (buffer v)) ->
  match readline_body password v w with
  | Ret (Break v') _ => v' = v
  | Ret (Continue v') _ =>
      -1 <= rl_i v' <= rl_i v /\ length (buffer v') = length (buffer v)
  | Exited status _ => status = EXIT_SUCCESS
  | Fault => False
  | OutOfFuel => False
  end.
Proof.
  intros Hi. unfold readline_body, bind, feof_input, gets, getc_input.
  destruct (eof_flag (input w)); [done|].
  destruct (getc_file (input w)) as [c f].
  destruct (uchar c =? 0).
  - cbn. destruct (getc_file f) as [c' f']. by apply readline_key_cursor.
  - by apply readline_key_cursor.
Qed.

(** The body of the loop on the first byte of the stream, on a NUL and
    at the end of the stream. *)
Lemma readline_body_byte password v w c rest :
  input w = {| pending := c :: rest; eof_flag := false |} ->
  uchar c <> 0 ->
  readline_body password v w
  = readline_key password v (uchar c)
      (set_input {| pending := rest; eof_flag := false |} w).
Proof.
  intros Hin Hc. destruct w; cbn in Hin; subst.
  unfold readline_body, bind, feof_input, gets, getc_input. cbn.
  destruct (Z.eqb_spec (uchar c) 0); [done|reflexivity].
Qed.

Lemma readline_body_NUL password v w rest :
  input w = {| pending := 0 :: rest; eof_flag := false |} ->
  readline_body password v w
  = match rest with
    | [] => readline_key password v 255
              (set_input {| pending := []; eof_flag := true |} w)
    | b :: r => readline_key password v (uchar b)
                  (set_input {| pending := r; eof_flag := false |} w)
    end.
Proof.
  intros Hin. destruct w; cbn in Hin; subst.
  unfold readline_body, bind, feof_input, gets, getc_input. cbn.
  destruct rest; reflexivity.
Qed.

Lemma readline_body_end password v w :
  pending (input w) = [] ->
  readline_body password v w
  = Exited EXIT_SUCCESS
      (if eof_flag (input w) then w
       else set_input {| pending := []; eof_flag := true |} w).
Proof.
  intros Hin. destruct w as [[p e] ?]; cbn in Hin; subst.
  unfold readline_body, bind, feof_input, gets, getc_input. cbn.
  destruct e; reflexivity.
Qed.

(** C3. Along any run of the loop of [readline] on an array of [size]
    bytes, after each fully processed byte (body and [++i]) the cursor is
    in [0, size - 1] and the array keeps its length, so that the
    terminating NUL is written inside the array; the next run of the body
    stays inside the array as well, and leaves the cursor alone when it
    breaks out of the loop; and a backspace or delete met with the cursor
    at 0 leaves cursor and array as they were and sends nothing: the turn
    only consumes the byte. *)
Theorem readline_cursor_in_range size password buf w v' w' :
  1 <= size <= SIZE_MAX ->
  Z.of_nat (length buf) = size ->
  rtc (rl_step size password) ({| buffer := buf; rl_i := 0 |}, w) (v', w') ->
  (0 <= rl_i v' <= size - 1 /\ Z.of_nat (length (buffer v')) = size)
  /\ (exists b, arr_set (buffer v') (rl_i v') 0 = Some b)
  /\ (readline_test size v' = true ->
      match readline_body password v' w' with
      | Ret (Break v'') _ => v'' = v'
      | Ret (Continue v'') _ => -1 <= rl_i v'' <= rl_i v'
      | Exited status _ => status = EXIT_SUCCESS
      | Fault | OutOfFuel => False
      end)
  /\ (forall c rest,
        c = 8 \/ c = 127 ->
        rl_i v' = 0 -> 2 <= size ->
        input w' = {| pending := c :: rest; eof_flag := false |} ->
        rl_step size password (v', w')
          (v', set_input {| pending := rest; eof_flag := false |} w')).
Proof.
  intros Hsize Hlen Hrun.
  assert (Hinv : 0 <= rl_i v' <= size - 1
                 /\ Z.of_nat (length (buffer v')) = size).
  { assert (Hgen : forall s s', rtc (rl_step size password) s s' ->
              0 <= rl_i (fst s) <= size - 1
              /\ Z.of_nat (length (buffer (fst s))) = size ->
              0 <= rl_i (fst s') <= size - 1
              /\ Z.of_nat (length (buffer (fst s'))) = size).
    { induction 1 as [|s1 s2 s3 Hstep _ IH]; [done|].
      intros [Hi1 Hl1]. apply IH.
      destruct Hstep as [Htest (v0 & Hbody & Hincr)].
      rewrite readline_test_spec in Htest by lia.
      apply Z.ltb_lt in Htest.
      pose proof (readline_body_cursor password (fst s1) (snd s1)
                    ltac:(lia)) as Hc.
      rewrite Hbody in Hc. destruct Hc as [Hc1 Hc2].
      rewrite Hincr. cbn. lia. }
    apply (Hgen _ _ Hrun). cbn. lia. }
  split; [exact Hinv|].
  split; [eexists; apply arr_set_Some; lia|].
  split.
  { intros Htest. rewrite readline_test_spec in Htest by lia.
    apply Z.ltb_lt in Htest.
    pose proof (readline_body_cursor password v' w' ltac:(lia)) as Hc.
    destruct (readline_body password v' w') as [[?|?] ?|? ?| |]; tauto. }
  intros c rest Hc Hi0 Hsz Hin.
  split; cbn [fst snd].
  - rewrite readline_test_spec by lia. apply Z.ltb_lt. lia.
  - exists {| buffer := buffer v'; rl_i := -1 |}. split.
    + rewrite (readline_body_byte password v' w' c rest Hin)
        by (destruct Hc as [-> | ->]; done).
      unfold readline_key.
      destruct Hc as [-> | ->]; cbn; rewrite Hi0; reflexivity.
    + destruct v' as [b i]. cbn in *. subst i. reflexivity.
Qed.

(** A NUL read first in a turn of the loop is replaced by the byte after
    it, so when that byte is not a NUL (or there is none) the turn is the
    one the stream without the NUL gives. *)
Lemma readline_body_skips_NUL password v w rest :
  input w = {| pending := 0 :: rest; eof_flag := false |} ->
  (forall b, head rest = Some b -> uchar b <> 0) ->
  readline_body password v w
  = readline_body password v
      (set_input {| pending := rest; eof_flag := false |} w).
Proof.
  intros Hin Hnext.
  rewrite (readline_body_NUL password v w rest Hin).
  destruct rest as [|b rest'].
  - rewrite readline_body_end by done. reflexivity.
  - erewrite readline_body_byte; [reflexivity|reflexivity|].
    by apply Hnext.
Qed.

(** C5, as the code has it. A NUL that the loop of [readline] reads first
    in a turn, at whatever cursor position below [size - 1], is dropped
    and the next byte is taken in its place: if that byte is not itself a
    NUL (or the stream ends there), the loop behaves as on the stream
    without the NUL.  The skip is done once: a NUL that follows the dropped NUL is
    the input byte of the turn, and is stored at the cursor and echoed
    (as itself, or as the mask) like any ordinary character. *)
Theorem readline_skips_one_NUL fuel size password v w rest :
  input w = {| pending := 0 :: rest; eof_flag := false |} ->
  (readline_test size v = true ->
   (forall b, head rest = Some b -> uchar b <> 0) ->
   readline_loop fuel size password v w
   = readline_loop fuel size password v
       (set_input {| pending := rest; eof_flag := false |} w))
  /\ (forall rest',
        rest = 0 :: rest' ->
        0 <= rl_i v < Z.of_nat (length (buffer v)) ->
        readline_body password v w
        = Ret (Continue {| buffer := <[Z.to_nat (rl_i v) := 0]> (buffer v);
                           rl_i := rl_i v |})
              (set_output
                 (output w ++ [if negb (password =? 0) then 42 else 0])
                 (set_input {| pending := rest'; eof_flag := false |} w))).
Proof.
  intros Hin. split.
  - intros Htest Hnext.
    destruct fuel as [|fuel]; cbn; rewrite Htest; [reflexivity|].
    unfold bind.
    rewrite (readline_body_skips_NUL password v w rest Hin Hnext).
    reflexivity.
  - intros rest' -> Hi.
    rewrite (readline_body_NUL password v w _ Hin).
    unfold readline_key, bind. cbn.
    rewrite arr_set_Some by lia. cbn.
    destruct (negb (password =? 0)); reflexivity.
Qed.

(** C6, as the code has it. Once the cursor has reached [size - 1] the
    loop of [readline] ends at once, whatever the stream holds: nothing
    more is read, stored or echoed, and [readline] goes on to write the
    terminating NUL at index [size - 1], to hide the cursor and to
    return.  The bytes of the line that were not read, its terminator
    included, stay in the stream. *)
Theorem readline_full_returns_at_once fuel size password v w :
  1 <= size <= SIZE_MAX ->
  rl_i v = size - 1 ->
  Z.of_nat (length (buffer v)) = size ->
  readline_loop fuel size password v w = Ret v w
  /\ (let* v' := readline_loop fuel size password v in
      let* b := lift (arr_set (buffer v') (rl_i v') 0) in
      fput_output (ESC :: bytes "[?25l") >> ret b) w
     = Ret (<[Z.to_nat (size - 1) := 0]> (buffer v))
           (set_output (output w ++ ESC :: bytes "[?25l") w).
Proof.
  intros Hsize Hi Hlen.
  assert (Hloop : readline_loop fuel size password v w = Ret v w).
  { destruct fuel; cbn; rewrite readline_test_spec by lia;
      destruct (Z.ltb_spec (rl_i v) (size - 1)); try lia; reflexivity. }
  split; [exact Hloop|].
  unfold bind at 1. rewrite Hloop.
  unfold bind. rewrite arr_set_Some by lia. cbn. rewrite Hi. reflexivity.
Qed.
End ReadlineFacts.

(* ===================================================================== *)
(** ** send_command *)

Section SendCommandFacts.
Context `{TH : telnet_h} `{CI : c_impl}.
Hypothesis Hok : telnet_h_ok.

Lemma verbs_differ :
  WILL <> DO /\ WILL <> DONT /\ WONT <> DO /\ WONT <> DONT
  /\ DO <> DONT /\ WILL <> WONT.
Proof.
  destruct Hok as [_ H]. nodup_facts H. intuition congruence.
Qed.

Lemma IAC_differs :
  IAC <> SE /\ IAC <> NOP /\ IAC <> WILL /\ IAC <> WONT /\ IAC <> DO
  /\ IAC <> DONT /\ IAC <> SB.
Proof.
  destruct Hok as [_ H]. nodup_facts H. intuition congruence.
Qed.

Lemma verbs_are_bytes :
  0 <= IAC < 256 /\ 0 <= DONT < 256 /\ 0 <= DO < 256 /\ 0 <= WONT < 256
  /\ 0 <= WILL < 256.
Proof.
  destruct Hok as [H _]. forall_facts H. tauto.
Qed.

Lemma options_are_bytes :
  0 <= ECHO < 256 /\ 0 <= SGA < 256 /\ 0 <= NAWS < 256 /\ 0 <= TTYPE < 256
  /\ 0 <= LINEMODE < 256 /\ 0 <= NEW_ENVIRON < 256.
Proof.
  destruct Hok as [H _]. forall_facts H. tauto.
Qed.

(** [send_command] with a verb of the "peer does" direction. *)
Lemma send_command_DO_DONT cmd opt cur w :
  cmd = DO \/ cmd = DONT ->
  0 <= opt < 256 ->
  arr_get (telnet_do_set w) opt = Some cur ->
  send_command cmd opt w
  = if decide (cur = cmd) then Ret tt w
    else Ret tt (set_output (output w ++ [IAC; cmd; opt])
                   (set_telnet_do_set
                      (<[Z.to_nat opt := cmd]> (telnet_do_set w)) w)).
Proof.
  intros Hcmd Hopt Hcur.
  destruct verbs_differ as (_ & _ & _ & _ & Hdd & _).
  destruct verbs_are_bytes as (HI & HDONT & HDO & _ & _).
  assert (Hin : 0 <= opt < Z.of_nat (length (telnet_do_set w))).
  { unfold arr_get in Hcur. destruct (0 <=? opt); [|done].
    apply lookup_lt_Some in Hcur. lia. }
  assert (Hb : 0 <= cmd < 256) by (destruct Hcmd; subst; lia).
  unfold send_command.
  replace ((cmd =? DO) || (cmd =? DONT)) with true
    by (destruct Hcmd; subst; rewrite Z.eqb_refl; by rewrite ?orb_true_r).
  unfold bind, gets. cbn. rewrite Hcur. cbn.
  case_decide as Hc.
  - subst cur. destruct Hcmd; subst cmd; rewrite !Z.eqb_refl; cbn;
      repeat match goal with
             | |- context [?a =? ?b] => destruct (a =? b)
             end; reflexivity.
  - replace (((cmd =? DO) && negb (cur =? DO))
             || ((cmd =? DONT) && negb (cur =? DONT))) with true.
    2:{ destruct Hcmd; subst cmd; rewrite Z.eqb_refl; cbn;
          destruct (Z.eqb_spec cur DO), (Z.eqb_spec cur DONT);
          cbn; rewrite ?orb_true_r; congruence. }
    rewrite arr_set_Some by done. cbn.
    rewrite !uchar_byte by lia. reflexivity.
Qed.

(** [send_command] with a verb of the "server will" direction. *)
Lemma send_command_WILL_WONT cmd opt cur w :
  cmd = WILL \/ cmd = WONT ->
  0 <= opt < 256 ->
  arr_get (telnet_will_set w) opt = Some cur ->
  send_command cmd opt w
  = if decide (cur = cmd) then Ret tt w
    else Ret tt (set_output (output w ++ [IAC; cmd; opt])
                   (set_telnet_will_set
                      (<[Z.to_nat opt := cmd]> (telnet_will_set w)) w)).
Proof.
  intros Hcmd Hopt Hcur.
  destruct verbs_differ as (H1 & H2 & H3 & H4 & _ & Hww).
  destruct verbs_are_bytes as (HI & _ & _ & HWONT & HWILL).
  assert (Hin : 0 <= opt < Z.of_nat (length (telnet_will_set w))).
  { unfold arr_get in Hcur. destruct (0 <=? opt); [|done].
    apply lookup_lt_Some in Hcur. lia. }
  assert (Hb : 0 <= cmd < 256) by (destruct Hcmd; subst; lia).
  unfold send_command.
  replace ((cmd =? DO) || (cmd =? DONT)) with false.
  2:{ destruct Hcmd; subst cmd.
      - by destruct (Z.eqb_spec WILL DO), (Z.eqb_spec WILL DONT).
      - by destruct (Z.eqb_spec WONT DO), (Z.eqb_spec WONT DONT). }
  replace ((cmd =? WILL) || (cmd =? WONT)) with true
    by (destruct Hcmd; subst; rewrite Z.eqb_refl; by rewrite ?orb_true_r).
  unfold bind, gets. cbn. rewrite Hcur. cbn.
  case_decide as Hc.
  - subst cur. destruct Hcmd; subst cmd; rewrite !Z.eqb_refl; cbn;
      repeat match goal with
             | |- context [?a =? ?b] => destruct (a =? b)
             end; reflexivity.
  - replace (((cmd =? WILL) && negb (cur =? WILL))
             || ((cmd =? WONT) && negb (cur =? WONT))) with true.
    2:{ destruct Hcmd; subst cmd; rewrite Z.eqb_refl; cbn;
          destruct (Z.eqb_spec cur WILL), (Z.eqb_spec cur WONT);
          cbn; rewrite ?orb_true_r; congruence. }
    rewrite arr_set_Some by done. cbn.
    rewrite !uchar_byte by lia. reflexivity.
Qed.

(** C1. For every option code [opt] and every verb [cmd] of either
    direction, [send_command cmd opt] sends the three bytes IAC, [cmd],
    [opt] and records [cmd] as agreed exactly when the value agreed so
    far for [opt], in [telnet_do_set] for DO/DONT and in
    [telnet_will_set] for WILL/WONT, differs from [cmd]; when it equals
    [cmd] nothing is sent and nothing changes.  Hence a second identical
    call right after the first sends nothing. *)
Theorem send_command_only_on_disagreement cmd opt w :
  0 <= opt < 256 ->
  tables_ok w ->
  (cmd = DO \/ cmd = DONT ->
   exists cur,
     arr_get (telnet_do_set w) opt = Some cur /\
     send_command cmd opt w
     = if decide (cur = cmd) then Ret tt w
       else Ret tt (set_output (output w ++ [IAC; cmd; opt])
                      (set_telnet_do_set
                         (<[Z.to_nat opt := cmd]> (telnet_do_set w)) w)))
  /\ (cmd = WILL \/ cmd = WONT ->
      exists cur,
        arr_get (telnet_will_set w) opt = Some cur /\
        send_command cmd opt w
        = if decide (cur = cmd) then Ret tt w
          else Ret tt (set_output (output w ++ [IAC; cmd; opt])
                         (set_telnet_will_set
                            (<[Z.to_nat opt := cmd]> (telnet_will_set w)) w)))
  /\ (cmd = DO \/ cmd = DONT \/ cmd = WILL \/ cmd = WONT ->
      exists w1, send_command cmd opt w = Ret tt w1
                 /\ send_command cmd opt w1 = Ret tt w1).
Proof.
  intros Hopt [_ _ Hdo Hwill].
  destruct (arr_get_Some (telnet_do_set w) opt) as [cd Hcd]; [lia|].
  destruct (arr_get_Some (telnet_will_set w) opt) as [cw Hcw]; [lia|].
  split; [|split].
  - intros Hcmd. exists cd. split; [done|].
    by apply send_command_DO_DONT.
  - intros Hcmd. exists cw. split; [done|].
    by apply send_command_WILL_WONT.
  - intros [Hcmd|[Hcmd|[Hcmd|Hcmd]]].
    1,2: rewrite (send_command_DO_DONT cmd opt cd w) by tauto;
         case_decide as Hc; eexists; (split; [reflexivity|]).
    5,6: rewrite (send_command_WILL_WONT cmd opt cw w) by tauto;
         case_decide as Hc; eexists; (split; [reflexivity|]).
    1,3: rewrite (send_command_DO_DONT cmd opt cd w) by tauto;
         by rewrite decide_True.
    1,2: erewrite (send_command_DO_DONT cmd opt cmd);
         [by rewrite decide_True|tauto|done|];
         cbn; unfold arr_get; destruct (Z.leb_spec 0 opt); [|lia];
         apply list_lookup_insert_eq; lia.
    1,3: rewrite (send_command_WILL_WONT cmd opt cw w) by tauto;
         by rewrite decide_True.
    1,2: erewrite (send_command_WILL_WONT cmd opt cmd);
         [by rewrite decide_True|tauto|done|];
         cbn; unfold arr_get; destruct (Z.leb_spec 0 opt); [|lia];
         apply list_lookup_insert_eq; lia.
Qed.
End SendCommandFacts.

(* ===================================================================== *)
(** ** Reasoning about computations that return *)

Section WP.
Context {A B : Type}.

Lemma wp_ret (a : A) Q w : Q a w -> wp (ret a) Q w.
Proof. done. Qed.

Lemma wp_bind (c : M A) (k : A -> M B) Q w :
  wp c (fun a w' => wp (k a) Q w') w -> wp (bind c k) Q w.
Proof. unfold wp, bind. by destruct (c w). Qed.

Lemma wp_mono (c : M A) (Q Q' : A -> world -> Prop) w :
  wp c Q w -> (forall a w', Q a w' -> Q' a w') -> wp c Q' w.
Proof. unfold wp. destruct (c w); auto. Qed.

Lemma wp_gets (f : world -> A) Q w : Q (f w) w -> wp (gets f) Q w.
Proof. done. Qed.

Lemma wp_lift (o : option A) a Q w : o = Some a -> Q a w -> wp (lift o) Q w.
Proof. by intros ->. Qed.

Lemma wp_intro_ret (c : M A) (Q : A -> world -> Prop) w a w' :
  c w = Ret a w' -> Q a w' -> wp c Q w.
Proof. unfold wp. by intros ->. Qed.

Lemma wp_elim (c : M A) Q w :
  wp c Q w -> exists a w', c w = Ret a w' /\ Q a w'.
Proof. unfold wp. destruct (c w); [eauto|done..]. Qed.

End WP.

Lemma wp_modify f (Q : unit -> world -> Prop) w :
  Q tt (f w) -> wp (modify f) Q w.
Proof. done. Qed.

Lemma wp_getc (Q : Z -> world -> Prop) w :
  Q (fst (getc_file (input w))) (set_input (snd (getc_file (input w))) w) ->
  wp getc_input Q w.
Proof. unfold wp, getc_input. by destruct (getc_file (input w)). Qed.

Lemma getc_file_shorter f :
  (length (pending (snd (getc_file f))) <= length (pending f))%nat
  /\ (pending f <> [] ->
      (length (pending (snd (getc_file f))) < length (pending f))%nat).
Proof. unfold getc_file. destruct (pending f); cbn; [done|lia]. Qed.

Lemma replies_only_trans w1 w2 w3 :
  replies_only w1 w2 -> replies_only w2 w3 -> replies_only w1 w3.
Proof. intros [] []. split; congruence. Qed.

(* ===================================================================== *)
(** ** C strings *)

Lemma until_nul_nonzero l : Forall (fun c => c <> 0) (until_nul l).
Proof.
  induction l as [|c l IH]; cbn; [constructor|].
  destruct (Z.eqb_spec c 0); by constructor.
Qed.

Lemma until_nul_length l : (length (until_nul l) <= length l)%nat.
Proof.
  induction l as [|c l IH]; cbn; [lia|].
  destruct (c =? 0); cbn; lia.
Qed.

Lemma until_nul_app_nul s r :
  Forall (fun c => c <> 0) s -> until_nul (s ++ 0 :: r) = s.
Proof.
  induction 1 as [|c s Hc _ IH]; cbn; [done|].
  destruct (Z.eqb_spec c 0); [done|]. by rewrite IH.
Qed.

Lemma has_nul_app_nul s r : has_nul (s ++ 0 :: r) = true.
Proof.
  unfold has_nul. rewrite existsb_app. cbn [existsb].
  by rewrite Z.eqb_refl, orb_true_r.
Qed.

Lemma has_nul_lookup l i : l !! i = Some 0 -> has_nul l = true.
Proof.
  intros H. unfold has_nul. apply existsb_exists. exists 0.
  split; [|done]. apply list_elem_of_In. by eapply list_elem_of_lookup_2.
Qed.

Lemma until_nul_take k l :
  has_nul (take k l) = true -> until_nul (take k l) = until_nul l.
Proof.
  revert k. induction l as [|c l IH]; intros [|k]; try done.
  unfold has_nul in *. cbn [take existsb until_nul].
  destruct (c =? 0); cbn [orb]; [done|].
  intros H. by rewrite IH.
Qed.

(** The string read back from [s] followed by a NUL. *)
Lemma cstring_app_nul s r :
  Forall (fun c => c <> 0) s -> cstring (s ++ 0 :: r) = Some s.
Proof.
  intros Hs. unfold cstring. by rewrite has_nul_app_nul, until_nul_app_nul.
Qed.

Lemma strncpy_Some dst src n :
  has_nul (take (Z.to_nat n) src) = true ->
  (Z.to_nat n <= length dst)%nat ->
  strncpy dst src n
  = Some (until_nul src
          ++ replicate (Z.to_nat n - length (until_nul src))%nat 0
          ++ drop (Z.to_nat n) dst).
Proof.
  intros Hnul Hlen. unfold strncpy. rewrite Hnul. cbn [negb andb orb].
  destruct (Nat.ltb_spec (length dst) (Z.to_nat n)); [lia|].
  rewrite (until_nul_take _ _ Hnul). reflexivity.
Qed.

(* ===================================================================== *)
(** ** The negotiation engine *)

Section NegotiationFacts.
Context `{TH : telnet_h} `{CI : c_impl}.

Lemma tables_ok_set_input f w : tables_ok w -> tables_ok (set_input f w).
Proof. by intros []. Qed.

Lemma tables_ok_set_output o w : tables_ok w -> tables_ok (set_output o w).
Proof. by intros []. Qed.

Lemma tables_ok_set_alarm_timer s w :
  tables_ok w -> tables_ok (set_alarm_timer s w).
Proof. by intros []. Qed.

(** [send_command] returns, and touches nothing but the stream to the
    peer and the two tables of agreed values. *)
Lemma wp_send_command cmd opt (Q : unit -> world -> Prop) w :
  0 <= opt < 256 ->
  tables_ok w ->
  (forall w', tables_ok w' -> replies_only w w' ->
              telnet_options w' = telnet_options w ->
              telnet_willack w' = telnet_willack w -> Q tt w') ->
  wp (send_command cmd opt) Q w.
Proof.
  intros Hopt Hw HQ. pose proof Hw as [H1 H2 H3 H4].
  unfold send_command.
  destruct ((cmd =? DO) || (cmd =? DONT)).
  - apply wp_bind, wp_gets.
    destruct (arr_get_Some (telnet_do_set w) opt) as [cur Hcur]; [lia|].
    apply wp_bind. eapply wp_lift; [done|].
    destruct (_ || _).
    + apply wp_bind. eapply wp_lift; [apply arr_set_Some; lia|].
      apply wp_bind, wp_modify, wp_modify.
      apply HQ; [|done..].
      split; cbn; rewrite ?length_insert; done.
    + apply wp_ret, HQ; done.
  - destruct ((cmd =? WILL) || (cmd =? WONT)).
    + apply wp_bind, wp_gets.
      destruct (arr_get_Some (telnet_will_set w) opt) as [cur Hcur]; [lia|].
      apply wp_bind. eapply wp_lift; [done|].
      destruct (_ || _).
      * apply wp_bind. eapply wp_lift; [apply arr_set_Some; lia|].
        apply wp_bind, wp_modify, wp_modify.
        apply HQ; [|done..].
        split; cbn; rewrite ?length_insert; done.
      * apply wp_ret, HQ; done.
    + apply wp_modify, HQ; [|done..]. by apply tables_ok_set_output.
Qed.

Lemma wp_store_telnet_willack o x (Q : unit -> world -> Prop) w :
  0 <= o < 256 ->
  tables_ok w ->
  (forall w', tables_ok w' -> replies_only w w' -> Q tt w') ->
  wp (store_telnet_willack o x) Q w.
Proof.
  intros Ho Hw HQ. pose proof Hw as [H1 H2 H3 H4].
  unfold store_telnet_willack.
  apply wp_bind, wp_gets, wp_bind.
  eapply wp_lift; [apply arr_set_Some; lia|].
  apply wp_modify, HQ; [|done].
  split; cbn; rewrite ?length_insert; done.
Qed.

Lemma wp_store_telnet_options o x (Q : unit -> world -> Prop) w :
  0 <= o < 256 ->
  tables_ok w ->
  (forall w', tables_ok w' -> replies_only w w' -> Q tt w') ->
  wp (store_telnet_options o x) Q w.
Proof.
  intros Ho Hw HQ. pose proof Hw as [H1 H2 H3 H4].
  unfold store_telnet_options.
  apply wp_bind, wp_gets, wp_bind.
  eapply wp_lift; [apply arr_set_Some; lia|].
  apply wp_modify, HQ; [|done].
  split; cbn; rewrite ?length_insert; done.
Qed.

Lemma resolved_term_length t sbuf :
  length t = 1024%nat -> length sbuf = 1024%nat ->
  length (resolved_term t sbuf) = 1024%nat.
Proof.
  intros Ht Hs. unfold resolved_term.
  pose proof (until_nul_length (drop 2 sbuf)) as Hl.
  rewrite length_drop in Hl.
  rewrite length_insert, !length_app, length_replicate, length_drop. lia.
Qed.

(** After a terminal-type resolution [term] holds, as a C string, the
    string that starts at [sb[2]]. *)
Lemma resolved_term_cstring t sbuf :
  length sbuf = 1024%nat ->
  cstring (resolved_term t sbuf) = Some (until_nul (drop 2 sbuf)).
Proof.
  intros Hs. unfold resolved_term.
  pose proof (until_nul_length (drop 2 sbuf)) as Hl.
  rewrite length_drop in Hl.
  set (s := until_nul (drop 2 sbuf)) in *.
  destruct (1023 - length s)%nat as [|k] eqn:Ek; [lia|].
  cbn [replicate].
  replace 1023%nat with (length s + S k)%nat at 1 by lia.
  rewrite insert_app_r. cbn [app].
  apply cstring_app_nul, until_nul_nonzero.
Qed.

Lemma sb_has_nul v :
  vars_ok v -> has_nul (take (Z.to_nat (1024 - 1)) (drop 2 (sb v))) = true.
Proof.
  intros [Hl _ _ Hn]. apply (has_nul_lookup _ 1021).
  rewrite lookup_take_lt by lia. by rewrite lookup_drop.
Qed.

(** [case SE:] by the leading byte [x0] of [sb]. *)
Lemma neg_case_SE_eq v w x0 x2 :
  vars_ok v ->
  sb v !! 0%nat = Some x0 -> sb v !! 2%nat = Some x2 ->
  neg_case_SE v w
  = if char_val x0 =? TTYPE then
      Ret (set_done (done v + 1)
             (set_term (resolved_term (term v) (sb v)) (set_sb_mode 0 v)))
          (set_alarm_timer 0 w)
    else if char_val x0 =? NAWS then
      Ret (set_done (done v + 1)
             (set_terminal_width (char_val x2) (set_sb_mode 0 v)))
          (set_alarm_timer 0 w)
    else Ret (set_sb_mode 0 v) w.
Proof.
  intros Hv H0 H2. pose proof Hv as [Hl Ht _ _].
  assert (E0 : arr_get (sb (set_sb_mode 0 v)) 0 = Some x0) by exact H0.
  assert (E2 : arr_get (sb (set_sb_mode 0 v)) 2 = Some x2) by exact H2.
  assert (Es : strncpy (term (set_sb_mode 0 v))
                 (drop 2 (sb (set_sb_mode 0 v))) (1024 - 1)
               = Some (until_nul (drop 2 (sb v))
                       ++ replicate
                            (1023 - length (until_nul (drop 2 (sb v))))%nat 0
                       ++ drop 1023 (term v))).
  { rewrite strncpy_Some;
      [done|exact (sb_has_nul v Hv)|cbn [term set_sb_mode]; lia]. }
  unfold neg_case_SE, bind. rewrite E0. cbn [lift ret].
  destruct (char_val x0 =? TTYPE).
  - rewrite Es. cbn [alarm modify lift ret].
    rewrite arr_set_Some.
    2:{ rewrite !length_app, length_replicate, length_drop.
        pose proof (until_nul_length (drop 2 (sb v))) as Hu.
        rewrite length_drop in Hu. lia. }
    reflexivity.
  - destruct (char_val x0 =? NAWS); [|reflexivity].
    rewrite E2. reflexivity.
Qed.

Lemma turn_post_after v w w1 v' w' :
  stdin w1 = stdin w -> alarm_timer w1 = alarm_timer w ->
  (length (pending (input w1)) <= length (pending (input w)))%nat ->
  turn_post v w1 v' w' -> turn_post v w v' w'.
Proof.
  intros Hs Ha Hi [? ? ? ? ?]. split; try done; try congruence; try lia.
Qed.

Lemma turn_post_replies v w w' :
  vars_ok v -> tables_ok w' -> replies_only w w' -> turn_post v w v w'.
Proof.
  intros Hv Ht [Hi Hs Ha]. split; try done.
  - rewrite Hi. lia.
  - left. done.
Qed.

(** [case WILL: case WONT:] and [case DO: case DONT:] read the option
    byte, update the tables and reply. *)
Lemma wp_neg_case_WILL_WONT i v w :
  vars_ok v -> tables_ok w ->
  wp (neg_case_WILL_WONT i v) (turn_post v w) w.
Proof.
  intros Hv Hw. unfold neg_case_WILL_WONT.
  apply wp_bind, wp_getc.
  set (w1 := set_input _ w).
  assert (Hw1 : tables_ok w1) by by apply tables_ok_set_input.
  pose proof (uchar_range (fst (getc_file (input w)))) as Hopt.
  set (opt := uchar _) in *.
  destruct (getc_file_shorter (input w)) as [Hle _].
  apply wp_bind, wp_gets.
  destruct (arr_get_Some (telnet_willack w1) opt) as [cur Hcur];
    [destruct Hw1; lia|].
  apply wp_bind. eapply wp_lift; [done|].
  apply wp_bind.
  assert (Hrest : forall w2, tables_ok w2 -> replies_only w1 w2 ->
    wp (let* t := gets telnet_willack in
        let* cur := lift (arr_get t opt) in
        send_command cur opt >>
        (if (i =? WILL) && (opt =? TTYPE)
         then fput_output [uchar IAC; uchar SB; uchar TTYPE; uchar SEND;
                           uchar IAC; uchar SE]
         else ret tt) >> ret v) (turn_post v w) w2).
  { intros w2 Hw2 Hr12.
    apply wp_bind, wp_gets.
    destruct (arr_get_Some (telnet_willack w2) opt) as [cur2 Hcur2];
      [destruct Hw2; lia|].
    apply wp_bind. eapply wp_lift; [done|].
    apply wp_bind, wp_send_command; [done..|].
    intros w3 Hw3 Hr23 _ _.
    pose proof (replies_only_trans _ _ _ Hr12 Hr23) as Hr13.
    apply wp_bind.
    destruct (_ && _).
    - apply wp_modify, wp_ret.
      apply (turn_post_after v w w1); [done..|].
      apply turn_post_replies; [done|by apply tables_ok_set_output|].
      destruct Hr13. by split.
    - apply wp_ret, wp_ret.
      apply (turn_post_after v w w1); [done..|].
      by apply turn_post_replies. }
  destruct (cur =? 0).
  - apply wp_store_telnet_willack; [done..|]. apply Hrest.
  - apply wp_ret, Hrest; done.
Qed.

Lemma wp_neg_case_DO_DONT i v w :
  vars_ok v -> tables_ok w ->
  wp (neg_case_DO_DONT i v) (turn_post v w) w.
Proof.
  intros Hv Hw. unfold neg_case_DO_DONT.
  apply wp_bind, wp_getc.
  set (w1 := set_input _ w).
  assert (Hw1 : tables_ok w1) by by apply tables_ok_set_input.
  pose proof (uchar_range (fst (getc_file (input w)))) as Hopt.
  set (opt := uchar _) in *.
  destruct (getc_file_shorter (input w)) as [Hle _].
  apply wp_bind, wp_gets.
  destruct (arr_get_Some (telnet_options w1) opt) as [cur Hcur];
    [destruct Hw1; lia|].
  apply wp_bind. eapply wp_lift; [done|].
  apply wp_bind.
  assert (Hrest : forall w2, tables_ok w2 -> replies_only w1 w2 ->
    wp (let* t := gets telnet_options in
        let* cur := lift (arr_get t opt) in
        send_command cur opt >>
        ret (if opt =? ECHO
             then set_do_echo (if i =? DO then 1 else 0) v else v))
       (turn_post v w) w2).
  { intros w2 Hw2 Hr12.
    apply wp_bind, wp_gets.
    destruct (arr_get_Some (telnet_options w2) opt) as [cur2 Hcur2];
      [destruct Hw2; lia|].
    apply wp_bind. eapply wp_lift; [done|].
    apply wp_bind, wp_send_command; [done..|].
    intros w3 Hw3 Hr23 _ _.
    pose proof (replies_only_trans _ _ _ Hr12 Hr23) as Hr13.
    apply wp_ret.
    apply (turn_post_after _ w w1); [done..|].
    destruct Hr13 as [Hi Hs Ha].
    destruct (opt =? ECHO).
    - split; [by destruct Hv|done|done|rewrite Hi; lia|left; done].
    - by apply turn_post_replies. }
  destruct (cur =? 0).
  - apply wp_store_telnet_options; [done..|]. apply Hrest.
  - apply wp_ret, Hrest; done.
Qed.

Lemma vars_ok_set_done d v : vars_ok v -> vars_ok (set_done d v).
Proof. by intros []. Qed.

Lemma vars_ok_init : vars_ok neg_init.
Proof.
  split; unfold neg_init; cbn [sb term sb_len].
  - apply length_replicate.
  - rewrite length_app, length_replicate. reflexivity.
  - lia.
  - apply lookup_replicate_2. lia.
Qed.

Lemma wp_neg_case_SE v w :
  vars_ok v -> tables_ok w -> wp (neg_case_SE v) (turn_post v w) w.
Proof.
  intros Hv Hw. pose proof Hv as [Hl Ht Hr Hn].
  destruct (lookup_lt_is_Some_2 (sb v) 0) as [x0 H0]; [lia|].
  destruct (lookup_lt_is_Some_2 (sb v) 2) as [x2 H2]; [lia|].
  unfold wp. rewrite (neg_case_SE_eq v w x0 x2) by done.
  destruct (char_val x0 =? TTYPE); [|destruct (char_val x0 =? NAWS)].
  - split; [|by apply tables_ok_set_alarm_timer|done|cbn; lia
             |right; left; done].
    split; cbn; [done|by apply resolved_term_length|done|done].
  - split; [|by apply tables_ok_set_alarm_timer|done|cbn; lia
             |right; left; done].
    by split.
  - split; [by split|done|done|lia|left; done].
Qed.

Lemma wp_neg_switch i v w :
  vars_ok v -> tables_ok w -> wp (neg_switch i v) (turn_post v w) w.
Proof.
  intros Hv Hw. pose proof Hv as [Hl Ht Hr Hn]. unfold neg_switch.
  destruct (i =? SE); [by apply wp_neg_case_SE|].
  destruct (i =? NOP).
  { apply wp_bind, wp_send_command; [lia|done|].
    intros w' Hw' Hr' _ _. apply wp_ret. by apply turn_post_replies. }
  destruct ((i =? WILL) || (i =? WONT)); [by apply wp_neg_case_WILL_WONT|].
  destruct ((i =? DO) || (i =? DONT)); [by apply wp_neg_case_DO_DONT|].
  destruct (i =? SB).
  { apply wp_ret. split; cbn; [|done|done|lia|left; done].
    split; cbn; unfold memset0; rewrite ?length_replicate, ?Hl;
      [done|done|lia|done]. }
  destruct (i =? IAC).
  { apply wp_ret. split; cbn; [by split|done|done|lia|right; right; done]. }
  apply wp_ret. split; [done|done|done|lia|left; done].
Qed.

Lemma sb_test_spec v :
  vars_ok v ->
  (to_size_t (sb_len v) <? to_size_t (1024 - 1)) = (sb_len v <? 1023).
Proof.
  intros [_ _ Hr _]. pose proof SIZE_MAX_least.
  rewrite !to_size_t_small by lia. done.
Qed.

Lemma vars_ok_sb_append v b : vars_ok v -> vars_ok (sb_append v b).
Proof.
  intros Hv. pose proof Hv as [Hl Ht Hr Hn]. unfold sb_append.
  destruct (Z.ltb_spec (sb_len v) 1023); [|done].
  split; cbn; rewrite ?length_insert; [done|done|lia|].
  rewrite list_lookup_insert_ne by lia. done.
Qed.

(** Every turn of the loop returns, preserves the invariants, and reads
    at least one byte when there is one. *)
Lemma wp_negotiate_body v w :
  vars_ok v -> tables_ok w ->
  wp (negotiate_body v)
     (fun v' w' =>
        turn_post v w v' w'
        /\ (pending (input w) <> [] ->
            (length (pending (input w')) < length (pending (input w)))%nat))
     w.
Proof.
  intros Hv Hw. pose proof Hv as [Hl Ht Hr Hn]. unfold negotiate_body.
  apply wp_bind, wp_getc.
  set (w1 := set_input _ w).
  assert (Hw1 : tables_ok w1) by by apply tables_ok_set_input.
  destruct (getc_file_shorter (input w)) as [Hle Hlt].
  destruct (uchar _ =? IAC).
  - apply wp_bind, wp_getc.
    set (w2 := set_input _ w1).
    assert (Hw2 : tables_ok w2) by by apply tables_ok_set_input.
    destruct (getc_file_shorter (input w1)) as [Hle2 _].
    eapply wp_mono; [by apply wp_neg_switch|].
    intros v' w' Hp. cbn beta. split.
    + apply (turn_post_after v w w2); [done|done|cbn in *; lia|done].
    + intros Hne. destruct Hp as [_ _ _ Hi _]. cbn in *.
      specialize (Hlt Hne). lia.
  - destruct (negb (sb_mode v =? 0)).
    + rewrite sb_test_spec by done.
      pose proof (vars_ok_sb_append v (fst (getc_file (input w))) Hv) as Ha.
      unfold sb_append in Ha.
      destruct (Z.ltb_spec (sb_len v) 1023).
      * apply wp_bind. eapply wp_lift; [apply arr_set_Some; lia|].
        apply wp_ret. split; [|done].
        split; [done|done|done|done|left; done].
      * apply wp_ret. split; [|done].
        split; [done|done|done|done|left; done].
    + apply wp_ret. split; [|done].
      split; [done|done|done|done|left; done].
Qed.

(** *** The loop body on given input *)

Lemma with_pending_same bs w : pending (input w) = bs -> with_pending bs w = w.
Proof. destruct w as [[p e] ?]. cbn. by intros ->. Qed.

Lemma getc_input_cons w b rest :
  pending (input w) = b :: rest -> getc_input w = Ret b (with_pending rest w).
Proof.
  destruct w as [[p e] ?]. cbn. intros ->. reflexivity.
Qed.

Lemma getc_input_nil w :
  pending (input w) = [] ->
  getc_input w = Ret EOF (set_input {| pending := []; eof_flag := true |} w).
Proof.
  destruct w as [[p e] ?]. cbn. intros ->. reflexivity.
Qed.

(** IAC and one more byte: the [switch] on that byte. *)
Lemma negotiate_body_command v w b1 b2 rest :
  pending (input w) = b1 :: b2 :: rest ->
  uchar b1 = IAC ->
  negotiate_body v w = neg_switch (uchar b2) v (with_pending rest w).
Proof.
  intros Hin Hb1. unfold negotiate_body, bind.
  rewrite (getc_input_cons w b1 (b2 :: rest) Hin).
  rewrite Hb1, Z.eqb_refl.
  rewrite (getc_input_cons (with_pending (b2 :: rest) w) b2 rest eq_refl).
  reflexivity.
Qed.

(** Any other byte: appended to [sb] in sub-negotiation mode, dropped
    otherwise. *)
Lemma negotiate_body_data v w b rest :
  vars_ok v ->
  pending (input w) = b :: rest ->
  uchar b <> IAC ->
  negotiate_body v w
  = Ret (if sb_mode v =? 0 then v else sb_append v b) (with_pending rest w).
Proof.
  intros Hv Hin Hb. pose proof Hv as [Hl _ Hr _].
  unfold negotiate_body, bind.
  rewrite (getc_input_cons w b rest Hin).
  destruct (Z.eqb_spec (uchar b) IAC); [done|].
  destruct (sb_mode v =? 0); [reflexivity|]. cbn [negb].
  rewrite sb_test_spec by done. unfold sb_append.
  destruct (Z.ltb_spec (sb_len v) 1023); [|reflexivity].
  rewrite arr_set_Some by lia. reflexivity.
Qed.

Section WithHeader.
Hypothesis Hok : telnet_h_ok.

Lemma neg_switch_SB v w :
  neg_switch SB v w
  = Ret (set_sb (memset0 (sb v)) (set_sb_len 0 (set_sb_mode 1 v))) w.
Proof.
  destruct Hok as [_ H]. nodup_facts H.
  unfold neg_switch. rewrite (Z.eqb_refl SB).
  case_eqb; cbn [orb]; solve [reflexivity | intuition congruence].
Qed.

Lemma neg_switch_IAC v w : neg_switch IAC v w = Ret (set_done 2 v) w.
Proof.
  destruct (IAC_differs Hok) as (? & ? & ? & ? & ? & ? & ?).
  unfold neg_switch. rewrite (Z.eqb_refl IAC).
  case_eqb; cbn [orb]; solve [reflexivity | done].
Qed.

(** At the end of the stream [getc] gives [EOF], which read into an
    [unsigned char] is 255: with IAC being 255, the body sees IAC IAC. *)
Lemma negotiate_body_end v w :
  IAC = 255 ->
  pending (input w) = [] ->
  negotiate_body v w
  = Ret (set_done 2 v) (set_input {| pending := []; eof_flag := true |} w).
Proof.
  intros HIAC Hin. unfold negotiate_body, bind.
  rewrite (getc_input_nil w Hin), uchar_EOF, <-HIAC, Z.eqb_refl.
  rewrite getc_input_nil by done.
  rewrite uchar_EOF, <-HIAC, neg_switch_IAC. reflexivity.
Qed.
End WithHeader.

(** *** Repeated peer commands *)

Section Replay.
Hypothesis Hok : telnet_h_ok.

(** Sending a verb that is already agreed sends nothing. *)
Lemma send_command_agreed c opt w :
  0 <= opt < 256 -> agreed w c opt -> send_command c opt w = Ret tt w.
Proof.
  intros Hopt [[Hc Hcur]|[Hc Hcur]].
  - rewrite (send_command_DO_DONT Hok c opt c w Hc Hopt Hcur).
    by rewrite decide_True.
  - rewrite (send_command_WILL_WONT Hok c opt c w Hc Hopt Hcur).
    by rewrite decide_True.
Qed.

(** Sending a verb makes it the agreed one. *)
Lemma send_command_agrees c opt w :
  0 <= opt < 256 -> tables_ok w ->
  c = DO \/ c = DONT \/ c = WILL \/ c = WONT ->
  exists w',
    send_command c opt w = Ret tt w' /\ agreed w' c opt /\ tables_ok w'
    /\ input w' = input w
    /\ telnet_options w' = telnet_options w
    /\ telnet_willack w' = telnet_willack w.
Proof.
  intros Hopt Hw Hc. pose proof Hw as [H1 H2 H3 H4].
  assert (Hins : forall (t : list Z), length t = 256%nat ->
            arr_get (<[Z.to_nat opt := c]> t) opt = Some c).
  { intros t Ht. unfold arr_get. destruct (Z.leb_spec 0 opt); [|lia].
    apply list_lookup_insert_eq. lia. }
  assert (Hd : c = DO \/ c = DONT \/ (c = WILL \/ c = WONT)) by tauto.
  destruct Hd as [Hd|[Hd|Hd]].
  1,2: destruct (arr_get_Some (telnet_do_set w) opt) as [cur Hcur]; [lia|];
       rewrite (send_command_DO_DONT Hok c opt cur w ltac:(tauto) Hopt Hcur);
       case_decide as Hcc; eexists; (split; [reflexivity|]);
       [subst cur; split; [left; split; [tauto|done]|done]
       |split; [left; split; [tauto|cbn; by apply Hins]|];
        split; [split; cbn; rewrite ?length_insert; done|done]].
  destruct (arr_get_Some (telnet_will_set w) opt) as [cur Hcur]; [lia|].
  rewrite (send_command_WILL_WONT Hok c opt cur w Hd Hopt Hcur).
  case_decide as Hcc; eexists; (split; [reflexivity|]).
  - subst cur. split; [right; split; done|done].
  - split; [right; split; [done|cbn; by apply Hins]|].
    split; [split; cbn; rewrite ?length_insert; done|done].
Qed.

(** A WILL or WONT for an option whose stance is set and agreed draws no
    reply: the turn reads the command and sends at most the request for the
    terminal type. *)
Lemma negotiate_body_WILL_WONT_agreed v w i o rest c :
  i = WILL \/ i = WONT ->
  pending (input w) = IAC :: i :: o :: rest ->
  arr_get (telnet_willack w) (uchar o) = Some c -> c <> 0 ->
  agreed w c (uchar o) ->
  negotiate_body v w
  = Ret v (set_output (output w ++ ttype_request i (uchar o))
             (with_pending rest w)).
Proof.
  intros Hi Hin Hc Hc0 Hag.
  destruct (verbs_are_bytes Hok) as (HI & _ & _ & HWO & HWI).
  assert (Hib : 0 <= i < 256) by (destruct Hi; subst; lia).
  rewrite (negotiate_body_command v w IAC i _ Hin) by (by apply uchar_byte).
  rewrite (uchar_byte i) by done.
  assert (Hsw : neg_switch i v = neg_case_WILL_WONT i v).
  { pose proof Hok as [_ H]. nodup_facts H. unfold neg_switch.
    destruct Hi; subst i; rewrite ?Z.eqb_refl;
      case_eqb; cbn [orb]; solve [reflexivity | intuition congruence]. }
  rewrite Hsw. unfold neg_case_WILL_WONT.
  unfold bind at 1.
  rewrite (getc_input_cons (with_pending (o :: rest) w) o rest eq_refl).
  set (w1 := with_pending rest _).
  assert (Hag1 : agreed w1 c (uchar o)) by exact Hag.
  unfold bind at 1, gets. unfold bind at 1.
  change (telnet_willack w1) with (telnet_willack w). rewrite Hc.
  cbn [lift ret].
  destruct (Z.eqb_spec c 0); [done|].
  unfold bind at 1. cbn [ret]. unfold bind at 1, gets. unfold bind at 1.
  change (telnet_willack w1) with (telnet_willack w). rewrite Hc.
  cbn [lift ret]. unfold bind at 1.
  rewrite (send_command_agreed c (uchar o) w1 (uchar_range o) Hag1).
  unfold bind, ttype_request.
  destruct ((i =? WILL) && (uchar o =? TTYPE)); [reflexivity|].
  cbn [ret]. destruct w as [[p e] ?]. cbn. by rewrite app_nil_r.
Qed.

(** A DO or DONT for an option whose stance is set and agreed draws no
    reply. *)
Lemma negotiate_body_DO_DONT_agreed v w i o rest c :
  i = DO \/ i = DONT ->
  pending (input w) = IAC :: i :: o :: rest ->
  arr_get (telnet_options w) (uchar o) = Some c -> c <> 0 ->
  agreed w c (uchar o) ->
  negotiate_body v w
  = Ret (if uchar o =? ECHO
         then set_do_echo (if i =? DO then 1 else 0) v else v)
        (with_pending rest w).
Proof.
  intros Hi Hin Hc Hc0 Hag.
  destruct (verbs_are_bytes Hok) as (HI & HDONT & HDO & _ & _).
  assert (Hib : 0 <= i < 256) by (destruct Hi; subst; lia).
  rewrite (negotiate_body_command v w IAC i _ Hin) by (by apply uchar_byte).
  rewrite (uchar_byte i) by done.
  assert (Hsw : neg_switch i v = neg_case_DO_DONT i v).
  { pose proof Hok as [_ H]. nodup_facts H. unfold neg_switch.
    destruct Hi; subst i; rewrite ?Z.eqb_refl;
      case_eqb; cbn [orb]; solve [reflexivity | intuition congruence]. }
  rewrite Hsw. unfold neg_case_DO_DONT.
  unfold bind at 1.
  rewrite (getc_input_cons (with_pending (o :: rest) w) o rest eq_refl).
  set (w1 := with_pending rest _).
  assert (Hag1 : agreed w1 c (uchar o)) by exact Hag.
  unfold bind at 1, gets. unfold bind at 1.
  change (telnet_options w1) with (telnet_options w). rewrite Hc.
  cbn [lift ret].
  destruct (Z.eqb_spec c 0); [done|].
  unfold bind at 1. cbn [ret]. unfold bind at 1, gets. unfold bind at 1.
  change (telnet_options w1) with (telnet_options w). rewrite Hc.
  cbn [lift ret]. unfold bind at 1.
  rewrite (send_command_agreed c (uchar o) w1 (uchar_range o) Hag1).
  reflexivity.
Qed.

Lemma agreed_set_output o w c opt : agreed w c opt -> agreed (set_output o w) c opt.
Proof. done. Qed.

(** The first WILL or WONT for an option sets its stance, to WONT unless
    the server has one, and gets it agreed. *)
Lemma wp_neg_case_WILL_WONT_agrees i v w o rest :
  WONT <> 0 -> tables_ok w ->
  pending (input w) = o :: rest ->
  (forall c, arr_get (telnet_willack w) (uchar o) = Some c ->
             c = 0 \/ c = DO \/ c = DONT \/ c = WILL \/ c = WONT) ->
  wp (neg_case_WILL_WONT i v)
     (fun v' w' =>
        v' = v /\ tables_ok w' /\ pending (input w') = rest
        /\ exists c, c <> 0
                     /\ arr_get (telnet_willack w') (uchar o) = Some c
                     /\ agreed w' c (uchar o))
     w.
Proof.
  intros HW0 Hw Hin Hst.
  destruct (verbs_are_bytes Hok) as (_ & _ & _ & HWO & _).
  pose proof (uchar_range o) as Hopt.
  unfold neg_case_WILL_WONT. unfold wp, bind at 1.
  rewrite (getc_input_cons w o rest Hin).
  set (w1 := with_pending rest w).
  assert (Hw1 : tables_ok w1) by by apply tables_ok_set_input.
  change (wp (let* t := gets telnet_willack in
              let* cur := lift (arr_get t (uchar o)) in
              (if cur =? 0 then store_telnet_willack (uchar o) WONT
               else ret tt) >>
              let* t := gets telnet_willack in
              let* cur := lift (arr_get t (uchar o)) in
              send_command cur (uchar o) >>
              (if (i =? WILL) && (uchar o =? TTYPE)
               then fput_output [uchar IAC; uchar SB; uchar TTYPE;
                                 uchar SEND; uchar IAC; uchar SE]
               else ret tt) >> ret v)
            (fun v' w' =>
               v' = v /\ tables_ok w' /\ pending (input w') = rest
               /\ exists c, c <> 0
                            /\ arr_get (telnet_willack w') (uchar o) = Some c
                            /\ agreed w' c (uchar o)) w1).
  apply wp_bind, wp_gets.
  destruct (arr_get_Some (telnet_willack w1) (uchar o)) as [c0 Hc0];
    [destruct Hw1; lia|].
  apply wp_bind. eapply wp_lift; [done|].
  assert (Hrest : forall w2 c,
    tables_ok w2 -> pending (input w2) = rest ->
    arr_get (telnet_willack w2) (uchar o) = Some c -> c <> 0 ->
    c = DO \/ c = DONT \/ c = WILL \/ c = WONT ->
    wp (let* t := gets telnet_willack in
        let* cur := lift (arr_get t (uchar o)) in
        send_command cur (uchar o) >>
        (if (i =? WILL) && (uchar o =? TTYPE)
         then fput_output [uchar IAC; uchar SB; uchar TTYPE;
                           uchar SEND; uchar IAC; uchar SE]
         else ret tt) >> ret v)
       (fun v' w' =>
          v' = v /\ tables_ok w' /\ pending (input w') = rest
          /\ exists c, c <> 0
                       /\ arr_get (telnet_willack w') (uchar o) = Some c
                       /\ agreed w' c (uchar o)) w2).
  { intros w2 c Hw2 Hin2 Hc Hcn Hcv.
    apply wp_bind, wp_gets, wp_bind. eapply wp_lift; [done|].
    destruct (send_command_agrees c (uchar o) w2 Hopt Hw2 Hcv)
      as (w3 & Hsend & Hag & Hw3 & Hi3 & _ & Hwa3).
    apply wp_bind. eapply wp_intro_ret; [exact Hsend|].
    apply wp_bind.
    destruct ((i =? WILL) && (uchar o =? TTYPE)).
    - apply wp_modify, wp_ret.
      split; [done|]. split; [by apply tables_ok_set_output|].
      split; [cbn; by rewrite Hi3|].
      exists c. split; [done|]. split; [cbn; by rewrite Hwa3|done].
    - apply wp_ret, wp_ret.
      split; [done|]. split; [done|]. split; [by rewrite Hi3|].
      exists c. split; [done|]. split; [by rewrite Hwa3|done]. }
  destruct (Z.eqb_spec c0 0) as [->|Hn].
  - apply wp_bind. unfold store_telnet_willack.
    apply wp_bind, wp_gets, wp_bind.
    eapply wp_lift; [apply arr_set_Some; destruct Hw1; lia|].
    apply wp_modify.
    apply (Hrest _ WONT).
    + destruct Hw1. split; cbn; rewrite ?length_insert; done.
    + done.
    + cbn [telnet_willack set_telnet_willack telnet_options
           set_telnet_options].
      rewrite (uchar_byte WONT) by lia. unfold arr_get.
      destruct (Z.leb_spec 0 (uchar o)); [|lia].
      apply list_lookup_insert_eq. destruct Hw1. lia.
    + done.
    + tauto.
  - apply wp_bind, wp_ret.
    apply (Hrest _ c0); [done|done|done|done|].
    destruct (Hst c0 Hc0) as [?|?]; [done|done].
Qed.

(** The same for the first DO or DONT, with DONT as the default stance. *)
Lemma wp_neg_case_DO_DONT_agrees i v w o rest :
  DONT <> 0 -> tables_ok w ->
  pending (input w) = o :: rest ->
  (forall c, arr_get (telnet_options w) (uchar o) = Some c ->
             c = 0 \/ c = DO \/ c = DONT \/ c = WILL \/ c = WONT) ->
  wp (neg_case_DO_DONT i v)
     (fun v' w' =>
        v' = (if uchar o =? ECHO
              then set_do_echo (if i =? DO then 1 else 0) v else v)
        /\ tables_ok w' /\ pending (input w') = rest
        /\ exists c, c <> 0
                     /\ arr_get (telnet_options w') (uchar o) = Some c
                     /\ agreed w' c (uchar o))
     w.
Proof.
  intros HD0 Hw Hin Hst.
  destruct (verbs_are_bytes Hok) as (_ & HDONT & _ & _ & _).
  pose proof (uchar_range o) as Hopt.
  unfold neg_case_DO_DONT. unfold wp, bind at 1.
  rewrite (getc_input_cons w o rest Hin).
  set (w1 := with_pending rest w).
  assert (Hw1 : tables_ok w1) by by apply tables_ok_set_input.
  set (Q := fun (v' : neg_vars) (w' : world) =>
        v' = (if uchar o =? ECHO
              then set_do_echo (if i =? DO then 1 else 0) v else v)
        /\ tables_ok w' /\ pending (input w') = rest
        /\ exists c, c <> 0
                     /\ arr_get (telnet_options w') (uchar o) = Some c
                     /\ agreed w' c (uchar o)).
  change (wp (let* t := gets telnet_options in
              let* cur := lift (arr_get t (uchar o)) in
              (if cur =? 0 then store_telnet_options (uchar o) DONT
               else ret tt) >>
              let* t := gets telnet_options in
              let* cur := lift (arr_get t (uchar o)) in
              send_command cur (uchar o) >>
              ret (if uchar o =? ECHO
                   then set_do_echo (if i =? DO then 1 else 0) v else v))
            Q w1).
  apply wp_bind, wp_gets.
  destruct (arr_get_Some (telnet_options w1) (uchar o)) as [c0 Hc0];
    [destruct Hw1; lia|].
  apply wp_bind. eapply wp_lift; [done|].
  assert (Hrest : forall w2 c,
    tables_ok w2 -> pending (input w2) = rest ->
    arr_get (telnet_options w2) (uchar o) = Some c -> c <> 0 ->
    c = DO \/ c = DONT \/ c = WILL \/ c = WONT ->
    wp (let* t := gets telnet_options in
        let* cur := lift (arr_get t (uchar o)) in
        send_command cur (uchar o) >>
        ret (if uchar o =? ECHO
             then set_do_echo (if i =? DO then 1 else 0) v else v))
       Q w2).
  { intros w2 c Hw2 Hin2 Hc Hcn Hcv.
    apply wp_bind, wp_gets, wp_bind. eapply wp_lift; [done|].
    destruct (send_command_agrees c (uchar o) w2 Hopt Hw2 Hcv)
      as (w3 & Hsend & Hag & Hw3 & Hi3 & Hto3 & _).
    apply wp_bind. eapply wp_intro_ret; [exact Hsend|].
    apply wp_ret.
    split; [done|]. split; [done|]. split; [by rewrite Hi3|].
    exists c. split; [done|]. split; [by rewrite Hto3|done]. }
  destruct (Z.eqb_spec c0 0) as [->|Hn].
  - apply wp_bind. unfold store_telnet_options.
    apply wp_bind, wp_gets, wp_bind.
    eapply wp_lift; [apply arr_set_Some; destruct Hw1; lia|].
    apply wp_modify.
    apply (Hrest _ DONT).
    + destruct Hw1. split; cbn; rewrite ?length_insert; done.
    + done.
    + cbn [telnet_willack set_telnet_willack telnet_options
           set_telnet_options].
      rewrite (uchar_byte DONT) by lia. unfold arr_get.
      destruct (Z.leb_spec 0 (uchar o)); [|lia].
      apply list_lookup_insert_eq. destruct Hw1. lia.
    + done.
    + tauto.
  - apply wp_bind, wp_ret.
    apply (Hrest _ c0); [done|done|done|done|].
    destruct (Hst c0 Hc0) as [?|?]; [done|done].
Qed.

(** A peer command sent twice in a row is answered at most once: the
    second WILL or WONT draws no reply, only, for WILL TTYPE, the request
    for the terminal type again; the second DO or DONT draws nothing. *)
Lemma peer_WILL_WONT_twice v w i o rest :
  WONT <> 0 -> tables_ok w ->
  i = WILL \/ i = WONT ->
  pending (input w) = IAC :: i :: o :: IAC :: i :: o :: rest ->
  (forall c, arr_get (telnet_willack w) (uchar o) = Some c ->
             c = 0 \/ c = DO \/ c = DONT \/ c = WILL \/ c = WONT) ->
  exists w1,
    negotiate_body v w = Ret v w1
    /\ negotiate_body v w1
       = Ret v (set_output (output w1 ++ ttype_request i (uchar o))
                  (with_pending rest w1)).
Proof.
  intros HW0 Hw Hi Hin Hst.
  destruct (verbs_are_bytes Hok) as (HI & _ & _ & HWO & HWI).
  assert (Hib : 0 <= i < 256) by (destruct Hi; subst; lia).
  assert (Hsw : neg_switch i v = neg_case_WILL_WONT i v).
  { pose proof Hok as [_ H]. nodup_facts H. unfold neg_switch.
    destruct Hi; subst i; rewrite ?Z.eqb_refl;
      case_eqb; cbn [orb]; solve [reflexivity | intuition congruence]. }
  rewrite (negotiate_body_command v w IAC i _ Hin) by (by apply uchar_byte).
  rewrite (uchar_byte i), Hsw by done.
  destruct (wp_elim _ _ _
              (wp_neg_case_WILL_WONT_agrees i v
                 (with_pending (o :: IAC :: i :: o :: rest) w) o
                 (IAC :: i :: o :: rest) HW0
                 (tables_ok_set_input _ _ Hw) eq_refl Hst))
    as (v1 & w1 & Hrun & -> & Hw1 & Hin1 & c & Hc0 & Hc & Hag).
  exists w1. split; [exact Hrun|].
  by apply (negotiate_body_WILL_WONT_agreed v w1 i o rest c).
Qed.

Lemma peer_DO_DONT_twice v w i o rest :
  DONT <> 0 -> tables_ok w ->
  i = DO \/ i = DONT ->
  pending (input w) = IAC :: i :: o :: IAC :: i :: o :: rest ->
  (forall c, arr_get (telnet_options w) (uchar o) = Some c ->
             c = 0 \/ c = DO \/ c = DONT \/ c = WILL \/ c = WONT) ->
  exists v1 w1,
    negotiate_body v w = Ret v1 w1
    /\ negotiate_body v1 w1 = Ret v1 (with_pending rest w1).
Proof.
  intros HD0 Hw Hi Hin Hst.
  destruct (verbs_are_bytes Hok) as (HI & HDONT & HDO & _ & _).
  assert (Hib : 0 <= i < 256) by (destruct Hi; subst; lia).
  assert (Hsw : neg_switch i v = neg_case_DO_DONT i v).
  { pose proof Hok as [_ H]. nodup_facts H. unfold neg_switch.
    destruct Hi; subst i; rewrite ?Z.eqb_refl;
      case_eqb; cbn [orb]; solve [reflexivity | intuition congruence]. }
  rewrite (negotiate_body_command v w IAC i _ Hin) by (by apply uchar_byte).
  rewrite (uchar_byte i), Hsw by done.
  destruct (wp_elim _ _ _
              (wp_neg_case_DO_DONT_agrees i v
                 (with_pending (o :: IAC :: i :: o :: rest) w) o
                 (IAC :: i :: o :: rest) HD0
                 (tables_ok_set_input _ _ Hw) eq_refl Hst))
    as (v1 & w1 & Hrun & Hv1 & Hw1 & Hin1 & c & Hc0 & Hc & Hag).
  exists v1, w1. split; [exact Hrun|].
  rewrite (negotiate_body_DO_DONT_agreed v1 w1 i o rest c) by done.
  subst v1. by destruct (uchar o =? ECHO).
Qed.
End Replay.

(** *** The loop *)

Lemma negotiate_loop_S n v w :
  negotiate_loop (S n) v w
  = if negb (eof_flag (stdin w)) && (done v <? 2)
    then bind (negotiate_body v) (negotiate_loop n) w
    else Ret v w.
Proof.
  cbn [negotiate_loop]. unfold bind at 1, feof_stdin, gets.
  by destruct (negb (eof_flag (stdin w)) && (done v <? 2)).
Qed.

Lemma negotiate_loop_left n v w :
  negb (eof_flag (stdin w)) && (done v <? 2) = false ->
  negotiate_loop n v w = Ret v w.
Proof.
  intros H. destruct n; cbn [negotiate_loop];
    unfold bind, feof_stdin, gets; by rewrite H.
Qed.

Lemma negotiate_loop_turn n v w v' w' :
  negb (eof_flag (stdin w)) && (done v <? 2) = true ->
  negotiate_body v w = Ret v' w' ->
  negotiate_loop (S n) v w = negotiate_loop n v' w'.
Proof.
  intros H Hb. rewrite negotiate_loop_S, H. unfold bind. by rewrite Hb.
Qed.

(** The loop never faults and never exits the process, whatever the
    stream and the iteration budget. *)
Lemma negotiate_loop_safe n v w :
  vars_ok v -> tables_ok w ->
  match negotiate_loop n v w with
  | Ret v' w' => vars_ok v' /\ tables_ok w'
  | OutOfFuel => True
  | _ => False
  end.
Proof.
  revert v w. induction n as [|n IH]; intros v w Hv Hw.
  - cbn. unfold bind, feof_stdin, gets. by destruct (_ && _).
  - rewrite negotiate_loop_S. destruct (_ && _); [|done].
    destruct (wp_elim _ _ _ (wp_negotiate_body v w Hv Hw))
      as (v' & w' & Hb & [Hp _]).
    unfold bind. rewrite Hb. apply IH; by destruct Hp.
Qed.

(** With IAC being 255 the loop returns on every stream: each turn reads
    a byte, and at the end of the stream the turn sets [done] to 2. *)
Lemma negotiate_loop_returns n v w :
  telnet_h_ok -> IAC = 255 ->
  vars_ok v -> tables_ok w ->
  (length (pending (input w)) < n)%nat ->
  wp (negotiate_loop n v)
     (fun v' w' => vars_ok v' /\ tables_ok w' /\ stdin w' = stdin w
                   /\ negb (eof_flag (stdin w)) && (done v' <? 2) = false)
     w.
Proof.
  intros Hok HIAC. revert v w.
  induction n as [|n IH]; intros v w Hv Hw Hn; [lia|].
  unfold wp. rewrite negotiate_loop_S.
  destruct (negb (eof_flag (stdin w)) && (done v <? 2)) eqn:Hc; [|done].
  destruct (pending (input w)) as [|b rest] eqn:Hin.
  - unfold bind. rewrite negotiate_body_end by done.
    rewrite negotiate_loop_left;
      [|cbn; by rewrite andb_false_r].
    split; [by apply vars_ok_set_done|].
    split; [by apply tables_ok_set_input|].
    split; [done|]. cbn. by rewrite andb_false_r.
  - destruct (wp_elim _ _ _ (wp_negotiate_body v w Hv Hw))
      as (v' & w' & Hb & [Hp Hlt]).
    unfold bind. rewrite Hb.
    destruct Hp as [Hv' Hw' Hs' _ _].
    specialize (Hlt ltac:(by rewrite Hin)). rewrite Hin in Hlt. cbn in *.
    pose proof (IH v' w' Hv' Hw' ltac:(lia)) as Hwp.
    unfold wp in Hwp. destruct (negotiate_loop n v' w'); try done.
    rewrite Hs' in Hwp. done.
Qed.

(** *** Sub-negotiation payload *)

Lemma sb_append_fields v b :
  done (sb_append v b) = done v
  /\ sb_mode (sb_append v b) = sb_mode v
  /\ term (sb_append v b) = term v
  /\ terminal_width (sb_append v b) = terminal_width v
  /\ do_echo (sb_append v b) = do_echo v.
Proof. unfold sb_append. by destruct (sb_len v <? 1023). Qed.

Lemma sb_append_full v b : sb_len v = 1023 -> sb_append v b = v.
Proof. intros H. unfold sb_append. by rewrite H. Qed.

Lemma fold_sb_append_full p v :
  sb_len v = 1023 -> fold_left sb_append p v = v.
Proof.
  intros H. induction p as [|b p IH]; [done|].
  cbn. by rewrite sb_append_full.
Qed.

Lemma fold_sb_append_fields p v :
  done (fold_left sb_append p v) = done v
  /\ sb_mode (fold_left sb_append p v) = sb_mode v
  /\ term (fold_left sb_append p v) = term v
  /\ terminal_width (fold_left sb_append p v) = terminal_width v
  /\ do_echo (fold_left sb_append p v) = do_echo v.
Proof.
  revert v. induction p as [|b p IH]; intros v; [done|].
  cbn. destruct (IH (sb_append v b)) as (-> & -> & -> & -> & ->).
  apply sb_append_fields.
Qed.

Lemma vars_ok_fold_sb_append p v :
  vars_ok v -> vars_ok (fold_left sb_append p v).
Proof.
  revert v. induction p as [|b p IH]; intros v Hv; [done|].
  cbn. by apply IH, vars_ok_sb_append.
Qed.

Lemma sb_len_fold_sb_append p v :
  0 <= sb_len v <= 1023 ->
  sb_len (fold_left sb_append p v)
  = Z.min 1023 (sb_len v + Z.of_nat (length p)).
Proof.
  revert v. induction p as [|b p IH]; intros v Hr; [cbn; lia|].
  cbn [fold_left length]. rewrite IH.
  - unfold sb_append. destruct (Z.ltb_spec (sb_len v) 1023); cbn; lia.
  - unfold sb_append. destruct (Z.ltb_spec (sb_len v) 1023); cbn; lia.
Qed.

(** Payload bytes beyond what [sb] takes do not matter: only the first
    1023, so a fortiori only the first 1024, are kept. *)
Lemma fold_sb_append_take p v k :
  0 <= sb_len v <= 1023 -> (1023 <= k)%nat ->
  fold_left sb_append (take k p) v = fold_left sb_append p v.
Proof.
  intros Hr Hk.
  rewrite <-(take_drop k p) at 2. rewrite fold_left_app.
  destruct (Nat.le_gt_cases (length p) k) as [Hle|Hgt].
  - by rewrite (drop_ge p k Hle).
  - rewrite (fold_sb_append_full (drop k p)); [done|].
    rewrite sb_len_fold_sb_append by done.
    rewrite length_take. lia.
Qed.

(** Bytes of [sb] below the fill level are not written again. *)
Lemma fold_sb_append_lookup p v (k : nat) :
  0 <= sb_len v -> (Z.of_nat k < sb_len v) ->
  sb (fold_left sb_append p v) !! k = sb v !! k.
Proof.
  revert v. induction p as [|b p IH]; intros v H0 Hk; [done|].
  cbn [fold_left]. rewrite IH.
  - unfold sb_append. destruct (sb_len v <? 1023); [|done].
    cbn. apply list_lookup_insert_ne. lia.
  - unfold sb_append. destruct (sb_len v <? 1023); cbn; lia.
  - unfold sb_append. destruct (sb_len v <? 1023); cbn; lia.
Qed.

(** A run of payload bytes in sub-negotiation mode: one turn each. *)
Lemma negotiate_loop_payload p n v w rest :
  eof_flag (stdin w) = false -> done v < 2 ->
  sb_mode v <> 0 -> vars_ok v ->
  Forall (fun b => uchar b <> IAC) p ->
  pending (input w) = p ++ rest ->
  negotiate_loop (length p + n) v w
  = negotiate_loop n (fold_left sb_append p v) (with_pending rest w).
Proof.
  intros Hs Hd Hm Hv Hp. revert v w Hs Hd Hm Hv.
  induction Hp as [|b p Hb Hp IH]; intros v w Hs Hd Hm Hv Hin.
  - cbn. by rewrite with_pending_same.
  - cbn [length Nat.add fold_left].
    rewrite (negotiate_loop_turn _ v w
               (if sb_mode v =? 0 then v else sb_append v b)
               (with_pending (p ++ rest) w)).
    3:{ apply negotiate_body_data; [done|exact Hin|done]. }
    2:{ rewrite Hs. cbn. apply Z.ltb_lt. done. }
    destruct (Z.eqb_spec (sb_mode v) 0); [done|].
    destruct (sb_append_fields v b) as (Hd' & Hm' & _).
    rewrite (IH (sb_append v b) (with_pending (p ++ rest) w));
      [done|done|lia|lia|by apply vars_ok_sb_append|done].
Qed.

(** *** set_options, the alarm handler, the greeting *)

Lemma wp_for_each {X} (l : list X) (body : X -> M unit)
    (I : world -> Prop) w :
  I w ->
  (forall x w, x ∈ l -> I w -> wp (body x) (fun _ w' => I w') w) ->
  wp (for_each l body) (fun _ w' => I w') w.
Proof.
  revert w. induction l as [|x l IH]; intros w Hw Hbody; [done|].
  cbn. apply wp_bind.
  eapply wp_mono; [apply Hbody; [left|done]|].
  intros u w' Hw'. apply IH; [done|].
  intros y w'' Hy. apply Hbody. by right.
Qed.

(** [set_options] returns; it writes to the peer and to the tables only. *)
Lemma wp_set_options w :
  telnet_h_ok -> tables_ok w ->
  wp set_options (fun _ w' => tables_ok w' /\ replies_only w w') w.
Proof.
  intros Hok Hw.
  destruct (options_are_bytes Hok) as (? & ? & ? & ? & ? & ?).
  unfold set_options.
  apply wp_bind, wp_store_telnet_options; [done..|]; intros w1 Hw1 Hr1.
  apply wp_bind, wp_store_telnet_options; [done..|]; intros w2 Hw2 Hr2.
  pose proof (replies_only_trans _ _ _ Hr1 Hr2) as Hr02.
  apply wp_bind, wp_store_telnet_options; [done..|]; intros w3 Hw3 Hr3.
  pose proof (replies_only_trans _ _ _ Hr02 Hr3) as Hr03.
  apply wp_bind, wp_store_telnet_willack; [done..|]; intros w4 Hw4 Hr4.
  pose proof (replies_only_trans _ _ _ Hr03 Hr4) as Hr04.
  apply wp_bind, wp_store_telnet_willack; [done..|]; intros w5 Hw5 Hr5.
  pose proof (replies_only_trans _ _ _ Hr04 Hr5) as Hr05.
  apply wp_bind, wp_store_telnet_willack; [done..|]; intros w6 Hw6 Hr6.
  pose proof (replies_only_trans _ _ _ Hr05 Hr6) as Hr06.
  apply wp_bind, wp_store_telnet_willack; [done..|]; intros w7 Hw7 Hr7.
  pose proof (replies_only_trans _ _ _ Hr06 Hr7) as Hr07.
  apply wp_bind, wp_store_telnet_willack; [done..|]; intros w8 Hw8 Hr8.
  pose proof (replies_only_trans _ _ _ Hr07 Hr8) as Hr08.
  apply wp_bind, wp_store_telnet_willack; [done..|]; intros w9 Hw9 Hr9.
  pose proof (replies_only_trans _ _ _ Hr08 Hr9) as Hr09.
  clear - Hw9 Hr09.
  apply wp_bind.
  eapply wp_mono.
  { apply (wp_for_each _ _ (fun w' => tables_ok w' /\ replies_only w w'));
      [done|].
    intros x wa Hx [Hwa Hra]. apply elem_of_seqZ in Hx.
    apply wp_bind, wp_gets.
    destruct (arr_get_Some (telnet_options wa) x) as [c Hc];
      [destruct Hwa; lia|].
    apply wp_bind. eapply wp_lift; [done|].
    destruct (negb (c =? 0)); [|by apply wp_ret].
    apply wp_send_command; [lia|done|].
    intros wb Hwb Hrb _ _. split; [done|].
    by eapply replies_only_trans. }
  intros u w10 Hw10. cbn beta in *.
  apply (wp_for_each _ _ (fun w' => tables_ok w' /\ replies_only w w'));
    [done|].
  intros x wa Hx [Hwa Hra]. apply elem_of_seqZ in Hx.
  apply wp_bind, wp_gets.
  destruct (arr_get_Some (telnet_willack wa) x) as [c Hc];
    [destruct Hwa; lia|].
  apply wp_bind. eapply wp_lift; [done|].
  destruct (negb (c =? 0)); [|by apply wp_ret].
  apply wp_send_command; [lia|done|].
  intros wb Hwb Hrb _ _. split; [done|].
  by eapply replies_only_trans.
Qed.

Lemma tables_ok_fresh inp : tables_ok (fresh_world inp).
Proof. split; apply length_replicate. Qed.

(** Where the loop of [negotiate_telnet] starts. *)
Lemma negotiation_start w w1 :
  telnet_h_ok -> tables_ok w ->
  (set_options >> alarm 1) w = Ret tt w1 ->
  tables_ok w1 /\ input w1 = input w /\ stdin w1 = stdin w
  /\ alarm_timer w1 = 1.
Proof.
  intros Hok Hw Hrun.
  destruct (wp_elim _ _ _ (wp_set_options w Hok Hw))
    as ([] & w0 & Hset & Hw0 & [Hi Hs _]).
  unfold bind in Hrun. rewrite Hset in Hrun. cbn in Hrun.
  injection Hrun as <-.
  split; [by apply tables_ok_set_alarm_timer|done].
Qed.

Lemma emits_fput bs : emits (fput_output bs) bs.
Proof. done. Qed.

Lemma emits_ret : emits (ret tt) [].
Proof. intros w. destruct w. unfold ret, set_output. cbn. by rewrite app_nil_r. Qed.

Lemma emits_seq c1 c2 b1 b2 :
  emits c1 b1 -> emits c2 b2 -> emits (c1 >> c2) (b1 ++ b2).
Proof.
  intros H1 H2 w. unfold bind. rewrite H1, H2. cbn. by rewrite app_assoc.
Qed.

Lemma emits_eq c b b' : emits c b -> b = b' -> emits c b'.
Proof. by intros H <-. Qed.

Lemma emits_for_each {X} (l : list X) c b :
  emits c b -> emits (for_each l (fun _ => c)) (concat (replicate (length l) b)).
Proof.
  intros H. induction l as [|x l IH]; cbn; [apply emits_ret|].
  by apply emits_seq.
Qed.

Lemma emits_newline n :
  emits (newline n) (concat (replicate (Z.to_nat n) [13; 0; 10])).
Proof.
  unfold newline.
  eapply emits_eq.
  - apply emits_for_each.
    apply (emits_seq _ _ [13] [0; 10]); [done|].
    apply (emits_seq _ _ [0] [10]); done.
  - by rewrite length_seqZ.
Qed.

Lemma newline_1 w :
  newline 1 w = Ret tt (set_output (output w ++ [13; 0; 10]) w).
Proof. apply (emits_newline 1). Qed.

Lemma SIGALRM_handler_exits w :
  exists w', SIGALRM_handler w = Exited EXIT_FAILURE w'
             /\ alarm_timer w' = 0
             /\ exists o, output w' = o ++ rejection_banner ++ [13; 0; 10].
Proof.
  unfold SIGALRM_handler, bind, alarm, fput_stderr, fput_output, modify.
  rewrite newline_1. cbn [_exit].
  eexists. split; [reflexivity|]. split; [reflexivity|].
  cbn [output set_output]. rewrite <-app_assoc. eauto.
Qed.

Lemma greeting_eq w :
  greeting w = Ret tt (set_output (output w ++ greeting_bytes) w).
Proof.
  revert w. change (emits greeting greeting_bytes).
  eapply emits_eq.
  - unfold greeting.
    repeat first [apply emits_newline | apply emits_fput | apply emits_seq].
  - by vm_compute.
Qed.

(** *** Whole sub-negotiations *)

Lemma vars_ok_after_SB v : vars_ok v -> vars_ok (after_SB v).
Proof.
  intros [Hl Ht _ _].
  split; cbn; unfold memset0; rewrite ?length_replicate, ?Hl;
    [done|done|lia|]. apply lookup_replicate_2. lia.
Qed.

Lemma vars_ok_after_SE_TTYPE v : vars_ok v -> vars_ok (after_SE_TTYPE v).
Proof.
  intros [Hl Ht Hr Hn].
  split; cbn; [done|by apply resolved_term_length|done|done].
Qed.

(** IAC SB and a payload [q]: one turn for the command, one for each
    payload byte. *)
Lemma negotiate_loop_SB_payload (Hok : telnet_h_ok) q n v w rest :
  vars_ok v -> eof_flag (stdin w) = false -> done v < 2 ->
  Forall (fun b => uchar b <> IAC) q ->
  pending (input w) = IAC :: SB :: q ++ rest ->
  negotiate_loop (S (length q + n)) v w
  = negotiate_loop n (fold_left sb_append q (after_SB v))
      (with_pending rest w).
Proof.
  intros Hv Hs Hd Hq Hin.
  destruct (verbs_are_bytes Hok) as (HI & _).
  pose proof Hok as [Hbytes _].
  assert (HSB : 0 <= SB < 256).
  { forall_facts Hbytes. tauto. }
  rewrite (negotiate_loop_turn _ v w (after_SB v)
             (with_pending (q ++ rest) w)).
  - rewrite (negotiate_loop_payload q n (after_SB v) _ rest);
      [done|done|done|done|by apply vars_ok_after_SB|done|done].
  - rewrite Hs. cbn. by apply Z.ltb_lt.
  - rewrite (negotiate_body_command v w IAC SB _ Hin)
      by (by apply uchar_byte).
    rewrite (uchar_byte SB) by done.
    by rewrite (neg_switch_SB Hok).
Qed.

(** IAC SE with a terminal type in [sb]. *)
Lemma negotiate_loop_SE_TTYPE n v w rest :
  char_val TTYPE = TTYPE ->
  vars_ok v -> eof_flag (stdin w) = false -> done v < 2 ->
  sb v !! 0%nat = Some TTYPE ->
  pending (input w) = IAC :: SE :: rest ->
  0 <= IAC < 256 -> 0 <= SE < 256 ->
  negotiate_loop (S n) v w
  = negotiate_loop n (after_SE_TTYPE v)
      (set_alarm_timer 0 (with_pending rest w)).
Proof.
  intros Hc Hv Hs Hd H0 Hin HI HSE.
  destruct (lookup_lt_is_Some_2 (sb v) 2) as [x2 H2];
    [destruct Hv; lia|].
  apply negotiate_loop_turn.
  - rewrite Hs. cbn. by apply Z.ltb_lt.
  - rewrite (negotiate_body_command v w IAC SE _ Hin)
      by (by apply uchar_byte).
    rewrite (uchar_byte SE) by done. unfold neg_switch.
    rewrite Z.eqb_refl.
    rewrite (neg_case_SE_eq v _ TTYPE x2 Hv H0 H2), Hc, Z.eqb_refl.
    reflexivity.
Qed.

(** *** Invariants of the negotiation *)

Lemma neg_step_inv s s' : neg_step s s' -> neg_inv s -> neg_inv s'.
Proof.
  intros Hstep Hinv.
  destruct Hstep as [v w v' w' Hc Hb|v w Hc|v w st w' Ha Hh].
  - destruct Hinv as [(Hv & Hw & Hd) [Ha0 Ha1]].
    pose proof (wp_negotiate_body v w Hv Hw) as Hwp.
    unfold wp in Hwp. rewrite Hb in Hwp.
    destruct Hwp as [[Hv' Hw' _ _ Hcase] _].
    apply andb_prop in Hc as [_ Hlt]. apply Z.ltb_lt in Hlt.
    split; [split; [done|split; [done|lia]]|].
    cbn. destruct Hcase as [[-> ->]|[[-> ->]|[-> ->]]]; lia.
  - exact Hinv.
  - split; [done|]. cbn.
    destruct (SIGALRM_handler_exits w) as (w2 & Hx & Hz & Ho).
    rewrite Hx in Hh. injection Hh as <- <-. done.
Qed.

Lemma neg_steps_inv s s' : rtc neg_step s s' -> neg_inv s -> neg_inv s'.
Proof.
  induction 1 as [|s1 s2 s3 Hstep _ IH]; [done|].
  intros Hinv. by apply IH, (neg_step_inv s1).
Qed.

Lemma neg_inv_start w w1 :
  telnet_h_ok -> tables_ok w ->
  (set_options >> alarm 1) w = Ret tt w1 ->
  neg_inv (Looping neg_init w1).
Proof.
  intros Hok Hw Hrun.
  destruct (negotiation_start w w1 Hok Hw Hrun) as (Hw1 & _ & _ & Ha).
  split; [split; [apply vars_ok_init|split; [done|cbn; lia]]|].
  cbn. lia.
Qed.

(** C8, as the code has it. The alarm is set when the negotiation loop
    starts.  In every state the negotiation can reach, on any stream and
    with SIGALRM delivered at any moment the alarm is pending: while the
    resolution counter is 0 the alarm is pending, and once the counter is
    1, that is as soon as the first capability (of either kind) has been
    resolved, the alarm is cancelled; a worker that the alarm has
    terminated has sent the rejection banner and a line break last, and
    has exited with the failure status. *)
Theorem alarm_cancelled_at_first_resolution w w1 s :
  telnet_h_ok -> tables_ok w ->
  (set_options >> alarm 1) w = Ret tt w1 ->
  rtc neg_step (Looping neg_init w1) s ->
  alarm_timer w1 = 1 /\ alarm_follows_done s.
Proof.
  intros Hok Hw Hrun Hreach.
  split; [by destruct (negotiation_start w w1 Hok Hw Hrun) as (_&_&_&?)|].
  apply (neg_steps_inv _ _ Hreach), (neg_inv_start w w1); done.
Qed.

(** C2. On every stream: in each state the negotiation loop can reach,
    [sb] has its 1024 bytes and the fill index [sb_len] is at most 1023,
    and the next turn of the loop returns; [negotiate_telnet] never leaves
    an array.  A payload byte in sub-negotiation mode is written at index
    [sb_len] when that is below 1023, and is dropped otherwise: the turn
    then changes no variable.  And the negotiation goes the same way when
    a sub-negotiation payload is cut down to its first 1024 bytes. *)
Theorem sb_never_overrun :
  telnet_h_ok ->
  (forall w w1 v w',
      tables_ok w ->
      (set_options >> alarm 1) w = Ret tt w1 ->
      rtc neg_step (Looping neg_init w1) (Looping v w') ->
      length (sb v) = 1024%nat /\ 0 <= sb_len v <= 1023
      /\ exists v2 w2, negotiate_body v w' = Ret v2 w2)
  /\ (forall fuel inp,
        match negotiate_telnet fuel (fresh_world inp) with
        | Ret _ _ | OutOfFuel => True
        | Exited _ _ | Fault => False
        end)
  /\ (forall v w b rest,
        vars_ok v -> sb_mode v <> 0 ->
        pending (input w) = b :: rest -> uchar b <> IAC ->
        negotiate_body v w
        = Ret (if sb_len v <? 1023
               then set_sb_len (sb_len v + 1)
                      (set_sb (<[Z.to_nat (sb_len v) := uchar b]> (sb v)) v)
               else v)
              (with_pending rest w))
  /\ (forall v w p rest n,
        vars_ok v -> eof_flag (stdin w) = false -> done v < 2 ->
        Forall (fun b => uchar b <> IAC) p ->
        pending (input w) = IAC :: SB :: p ++ IAC :: SE :: rest ->
        negotiate_loop (S (length p + n)) v w
        = negotiate_loop (S (length (take 1024 p) + n)) v
            (with_pending (IAC :: SB :: take 1024 p ++ IAC :: SE :: rest)
               w)).
Proof.
  intros Hok. split; [|split; [|split]].
  - intros w w1 v w' Hw Hrun Hreach.
    pose proof (neg_steps_inv _ _ Hreach (neg_inv_start w w1 Hok Hw Hrun))
      as [(Hv & Hw' & _) _].
    split; [by destruct Hv|]. split; [by destruct Hv|].
    destruct (wp_elim _ _ _ (wp_negotiate_body v w' Hv Hw'))
      as (v2 & w2 & Hb & _). eauto.
  - intros fuel inp. unfold negotiate_telnet.
    destruct (wp_elim _ _ _
                (wp_set_options (fresh_world inp) Hok (tables_ok_fresh inp)))
      as ([] & w0 & Hset & Hw0 & _).
    unfold bind at 1. rewrite Hset. unfold bind, alarm, modify.
    pose proof (negotiate_loop_safe fuel neg_init (set_alarm_timer 1 w0)
                  vars_ok_init (tables_ok_set_alarm_timer _ _ Hw0)) as Hs.
    by destruct (negotiate_loop fuel neg_init (set_alarm_timer 1 w0)).
  - intros v w b rest Hv Hm Hin Hb.
    rewrite (negotiate_body_data v w b rest Hv Hin Hb).
    destruct (Z.eqb_spec (sb_mode v) 0); [done|]. reflexivity.
  - intros v w p rest n Hv Hs Hd Hp Hin.
    rewrite (negotiate_loop_SB_payload Hok p n v w _ Hv Hs Hd Hp Hin).
    rewrite (negotiate_loop_SB_payload Hok (take 1024 p) n v
               (with_pending (IAC :: SB :: take 1024 p ++ IAC :: SE :: rest)
                  w) _ Hv Hs Hd (Forall_take _ _ _ Hp) eq_refl).
    rewrite (fold_sb_append_take p (after_SB v) 1024) by (cbn; lia).
    reflexivity.
Qed.

(** C10. The loop ends as soon as the resolution counter is 2, and the
    counter does not tell the two capabilities apart: two terminal-type
    answers, IAC SB TTYPE [p1] IAC SE and IAC SB TTYPE [p2] IAC SE, and no
    window-size answer, end the negotiation after their last byte, with
    the counter at 2 and [terminal_width] still at its default 80. *)
Theorem two_answers_of_one_kind_end_negotiation w p1 p2 rest :
  telnet_h_ok -> TTYPE <> IAC -> char_val TTYPE = TTYPE ->
  eof_flag (stdin w) = false ->
  Forall (fun b => uchar b <> IAC) p1 ->
  Forall (fun b => uchar b <> IAC) p2 ->
  pending (input w)
  = IAC :: SB :: (TTYPE :: p1)
    ++ IAC :: SE :: IAC :: SB :: (TTYPE :: p2) ++ IAC :: SE :: rest ->
  (forall n v w0, 2 <= done v -> negotiate_loop n v w0 = Ret v w0)
  /\ exists v',
      negotiate_loop (length p1 + length p2 + 6) neg_init w
      = Ret v' (set_alarm_timer 0 (with_pending rest w))
      /\ done v' = 2 /\ terminal_width v' = 80.
Proof.
  intros Hok Hne Hc Hs Hp1 Hp2 Hin.
  split.
  { intros n v w0 Hd. apply negotiate_loop_left.
    destruct (Z.ltb_spec (done v) 2); [lia|]. by rewrite andb_false_r. }
  destruct (verbs_are_bytes Hok) as (HI & _).
  destruct (options_are_bytes Hok) as (_ & _ & _ & HT & _).
  pose proof Hok as [Hbytes _].
  assert (HSE : 0 <= SE < 256).
  { forall_facts Hbytes. tauto. }
  assert (HTT : uchar TTYPE <> IAC) by by rewrite uchar_byte.
  assert (Hhead : forall q v, vars_ok v ->
    sb (fold_left sb_append (TTYPE :: q) (after_SB v)) !! 0%nat
    = Some TTYPE).
  { intros q v Hv. cbn [fold_left].
    pose proof (vars_ok_after_SB v Hv) as [Hl _ _ _].
    rewrite fold_sb_append_lookup.
    - unfold sb_append. cbn. rewrite uchar_byte by done.
      apply list_lookup_insert_eq.
      change (memset0 (sb v)) with (sb (after_SB v)). rewrite Hl. lia.
    - unfold sb_append. cbn. lia.
    - unfold sb_append. cbn. lia. }
  assert (Hafter : forall q v,
    done (fold_left sb_append q (after_SB v)) = done v
    /\ terminal_width (fold_left sb_append q (after_SB v))
       = terminal_width v).
  { intros q v.
    by destruct (fold_sb_append_fields q (after_SB v))
      as (-> & _ & _ & -> & _). }
  set (va := fold_left sb_append (TTYPE :: p1) (after_SB neg_init)).
  set (vb := after_SE_TTYPE va).
  set (vc := fold_left sb_append (TTYPE :: p2) (after_SB vb)).
  set (vd := after_SE_TTYPE vc).
  assert (Hva : vars_ok va)
    by apply vars_ok_fold_sb_append, vars_ok_after_SB, vars_ok_init.
  assert (Hvb : vars_ok vb) by by apply vars_ok_after_SE_TTYPE.
  assert (Hvc : vars_ok vc)
    by by apply vars_ok_fold_sb_append, vars_ok_after_SB.
  destruct (Hafter (TTYPE :: p1) neg_init) as [Hda Hwa]. fold va in Hda, Hwa.
  change (done neg_init) with 0 in Hda.
  change (terminal_width neg_init) with 80 in Hwa.
  destruct (Hafter (TTYPE :: p2) vb) as [Hdc Hwc]. fold vc in Hdc, Hwc.
  assert (Hdb : done vb = 1)
    by (change (done vb) with (done va + 1); rewrite Hda; reflexivity).
  assert (Hdd : done vd = 2)
    by (change (done vd) with (done vc + 1); rewrite Hdc, Hdb; reflexivity).
  exists vd. split; [|split].
  - replace (length p1 + length p2 + 6)%nat
      with (S (length (TTYPE :: p1)
               + S (S (length (TTYPE :: p2) + 1))))%nat by (cbn; lia).
    set (r3 := IAC :: SE :: rest).
    set (r2 := IAC :: SB :: (TTYPE :: p2) ++ r3).
    set (r1 := IAC :: SE :: r2).
    set (w1 := with_pending r1 w).
    set (w2 := set_alarm_timer 0 (with_pending r2 w1)).
    set (w3 := with_pending r3 w2).
    rewrite (negotiate_loop_SB_payload Hok (TTYPE :: p1) _ neg_init w r1
               vars_ok_init Hs ltac:(change (0 < 2); lia)
               ltac:(by constructor) Hin).
    fold va w1.
    rewrite (negotiate_loop_SE_TTYPE _ va w1 r2
               Hc Hva Hs ltac:(lia) (Hhead p1 neg_init vars_ok_init)
               eq_refl HI HSE).
    fold vb w2.
    rewrite (negotiate_loop_SB_payload Hok (TTYPE :: p2) _ vb w2 r3
               Hvb Hs ltac:(lia) ltac:(by constructor) eq_refl).
    fold vc w3.
    rewrite (negotiate_loop_SE_TTYPE _ vc w3 rest
               Hc Hvc Hs ltac:(lia) (Hhead p2 vb Hvb) eq_refl HI HSE).
    fold vd.
    rewrite negotiate_loop_left; [reflexivity|].
    rewrite Hdd. by rewrite andb_false_r.
  - exact Hdd.
  - change (terminal_width vd) with (terminal_width vc). rewrite Hwc.
    change (terminal_width vb) with (terminal_width va). rewrite Hwa.
    reflexivity.
Qed.

Lemma negotiate_telnet_eq fuel w w1 :
  (set_options >> alarm 1) w = Ret tt w1 ->
  negotiate_telnet fuel w = negotiate_loop fuel neg_init w1.
Proof.
  unfold negotiate_telnet, bind. destruct (set_options w); try done.
  cbn. by intros [= <-].
Qed.

(** A run of turns of the transition system is a run of the loop. *)
Lemma neg_steps_loop s s' :
  rtc neg_step s s' ->
  forall v0 w0 v w,
    s = Looping v0 w0 -> s' = Looping v w ->
    exists k, forall n,
      negotiate_loop (k + n) v0 w0 = negotiate_loop n v w.
Proof.
  induction 1 as [s|s1 s2 s3 Hstep Hrest IH]; intros v0 w0 v w E1 E2.
  - subst. injection E2 as <- <-. by exists 0%nat.
  - subst. inversion Hstep; subst.
    + destruct (IH _ _ v w eq_refl eq_refl) as (k & Hk).
      exists (S k). intros n. cbn [Nat.add].
      rewrite (negotiate_loop_turn _ v0 w0 v' w') by done. apply Hk.
    + inversion Hrest as [|? ? ? Hs]; inversion Hs.
    + inversion Hrest as [|? ? ? Hs]; inversion Hs.
Qed.

(** C4, as the code has it. IAC IAC read by the negotiation loop only
    ends the loop: the turn sets the resolution counter to 2 and changes
    nothing else, no capability, no table, not the alarm, and sends
    nothing, so [negotiate_telnet] returns as after a completed
    handshake.  IAC IAC itself does not terminate the connection.  When
    a capability was resolved before, the alarm is cancelled and
    [handle_connection] goes on with the greeting and the credential
    prompts on the bytes that follow.  When none was resolved, the alarm
    set at the start of the negotiation is still pending when the loop is
    left: the worker is ended when it fires, by [SIGALRM_handler], with
    the rejection banner and the failure status. *)
Theorem IAC_IAC_only_ends_negotiation w w1 v wa rest :
  telnet_h_ok -> tables_ok w ->
  (set_options >> alarm 1) w = Ret tt w1 ->
  rtc neg_step (Looping neg_init w1) (Looping v wa) ->
  eof_flag (stdin wa) = false -> done v < 2 ->
  pending (input wa) = IAC :: IAC :: rest ->
  (forall n v0 w0 rest0,
     eof_flag (stdin w0) = false -> done v0 < 2 ->
     pending (input w0) = IAC :: IAC :: rest0 ->
     negotiate_loop (S n) v0 w0
     = Ret (set_done 2 v0) (with_pending rest0 w0))
  /\ (exists k,
        (forall n,
           negotiate_telnet (k + S n) w
           = Ret (set_done 2 v) (with_pending rest wa))
        /\ (done v = 1 ->
            forall n ipaddr username password,
              handle_connection (k + S n) ipaddr username password w
              = (greeting >>
                 session_loop (k + S n) (k + S n) ipaddr
                   (username, password))
                  (with_pending rest wa)))
  /\ (done v = 1 -> alarm_timer (with_pending rest wa) = 0)
  /\ (done v = 0 ->
      alarm_timer (with_pending rest wa) = 1
      /\ forall wx, exists w',
           SIGALRM_handler wx = Exited EXIT_FAILURE w'
           /\ alarm_timer w' = 0
           /\ exists o, output w' = o ++ rejection_banner ++ [13; 0; 10]).
Proof.
  intros Hok Hw Hrun Hreach Hs Hd Hin.
  destruct (verbs_are_bytes Hok) as (HI & _).
  assert (Hturn : forall n v0 w0 rest0,
            eof_flag (stdin w0) = false -> done v0 < 2 ->
            pending (input w0) = IAC :: IAC :: rest0 ->
            negotiate_loop (S n) v0 w0
            = Ret (set_done 2 v0) (with_pending rest0 w0)).
  { intros n v0 w0 rest0 Hs0 Hd0 Hin0.
    rewrite (negotiate_loop_turn n v0 w0 (set_done 2 v0)
               (with_pending rest0 w0)).
    - apply negotiate_loop_left. cbn. by rewrite andb_false_r.
    - rewrite Hs0. cbn. by apply Z.ltb_lt.
    - rewrite (negotiate_body_command v0 w0 IAC IAC rest0 Hin0)
        by (by apply uchar_byte).
      rewrite uchar_byte by done. by apply neg_switch_IAC. }
  assert (Hloop : forall n,
            negotiate_loop (S n) v wa
            = Ret (set_done 2 v) (with_pending rest wa))
    by (intros n; by apply Hturn).
  pose proof (neg_steps_inv _ _ Hreach (neg_inv_start w w1 Hok Hw Hrun))
    as [_ [Ha0 Ha1]].
  destruct (neg_steps_loop _ _ Hreach _ _ _ _ eq_refl eq_refl) as (k & Hk).
  assert (Hneg : forall n,
            negotiate_telnet (k + S n) w
            = Ret (set_done 2 v) (with_pending rest wa)).
  { intros n. by rewrite (negotiate_telnet_eq _ w w1 Hrun), Hk. }
  split; [exact Hturn|]. split; [|split].
  - exists k. split; [exact Hneg|].
    intros _ n ip u p. unfold handle_connection. unfold bind at 1.
    by rewrite Hneg.
  - intros H1. by apply Ha1.
  - intros H0. split; [by apply Ha0|].
    intros wx. apply SIGALRM_handler_exits.
Qed.
End NegotiationFacts.

(* ===================================================================== *)
(** ** The end of the stream, and the capabilities *)

Section SessionFacts.
Context `{TH : telnet_h} `{CI : c_impl}.

Lemma readline_at_end fuel buf size password w :
  2 <= size <= SIZE_MAX ->
  pending (input w) = [] ->
  readline (S fuel) buf size password w
  = Exited EXIT_SUCCESS
      (at_eof (set_output (output w ++ ESC :: bytes "[?25h") w)).
Proof.
  intros Hsize Hin. unfold readline. unfold bind at 1.
  cbn [fput_output modify].
  set (w1 := set_output _ w).
  cbn [readline_loop]. rewrite readline_test_spec by (cbn; lia).
  cbn [rl_i]. destruct (Z.ltb_spec 0 (size - 1)); [|lia].
  unfold bind. rewrite readline_body_end by done. reflexivity.
Qed.

(** C7, as the code has it. When the stream of the connection is
    exhausted, the line editor ends the session at once and silently: the
    turn of its loop exits the process with the success status, storing
    and sending nothing.  The negotiation does not end the session: at
    the end of the stream the loop of [negotiate_telnet] ends and the
    function returns, as it does on every stream; [handle_connection]
    then sends the greeting and the first prompt, and the session ends
    when [readline] makes its first read. *)
Theorem end_of_stream_ends_session_in_readline w :
  telnet_h_ok -> IAC = 255 ->
  pending (input w) = [] ->
  (forall password v,
      readline_body password v w = Exited EXIT_SUCCESS (at_eof w))
  /\ (forall n v,
        eof_flag (stdin w) = false -> done v < 2 ->
        negotiate_loop (S n) v w
        = Ret (set_done 2 v)
              (set_input {| pending := []; eof_flag := true |} w))
  /\ (forall n m ipaddr username password,
        (greeting >>
         session_loop (S n) (S m) ipaddr (username, password)) w
        = Exited EXIT_SUCCESS
            (at_eof (set_output
                       (output w ++ greeting_bytes ++ username_prompt
                        ++ ESC :: bytes "[?25h") w)))
  /\ (forall inp,
        exists v w',
          negotiate_telnet (S (length inp)) (fresh_world inp) = Ret v w').
Proof.
  intros Hok HIAC Hin. split; [|split; [|split]].
  - intros password v. by apply readline_body_end.
  - intros n v Hs Hd.
    rewrite (negotiate_loop_turn n v w (set_done 2 v)
               (set_input {| pending := []; eof_flag := true |} w)).
    + apply negotiate_loop_left. cbn. by rewrite andb_false_r.
    + rewrite Hs. cbn. by apply Z.ltb_lt.
    + by apply negotiate_body_end.
  - intros n m ip u p. unfold bind at 1. rewrite greeting_eq.
    cbn [session_loop]. unfold bind at 1. unfold session_body.
    unfold bind at 1. cbn [fput_output modify].
    unfold bind at 1.
    pose proof SIZE_MAX_least.
    rewrite readline_at_end by (cbn; done || lia).
    cbn [output set_output]. rewrite <-!app_assoc. reflexivity.
  - intros inp.
    destruct (wp_elim _ _ _
                (wp_set_options (fresh_world inp) Hok (tables_ok_fresh inp)))
      as ([] & w0 & Hset & Hw0 & [Hi0 _ _]).
    assert (Hrun : (set_options >> alarm 1) (fresh_world inp)
                   = Ret tt (set_alarm_timer 1 w0))
      by (unfold bind; by rewrite Hset).
    rewrite (negotiate_telnet_eq _ _ _ Hrun).
    destruct (wp_elim _ _ _
                (negotiate_loop_returns (S (length inp)) neg_init
                   (set_alarm_timer 1 w0) Hok HIAC vars_ok_init
                   (tables_ok_set_alarm_timer _ _ Hw0)
                   ltac:(cbn; rewrite Hi0; cbn; lia)))
      as (v & w' & Hl & _).
    eauto.
Qed.

(** C9. On SE, by the leading byte of [sb]: for the terminal-type option
    [term] becomes the string that starts at [sb[2]]; for the window-size
    option [terminal_width] becomes the value of the [char] [sb[2]], which
    holds the low-order byte of the width that the payload carries in two
    bytes, and is that byte when it is below 128; each of the two counts
    one resolution and cancels the alarm; for any other byte only the
    sub-negotiation mode is left.  The variables start with the terminal
    type "ansi" and the width 80.  A peer that answers with the terminal
    type "xterm" and a window 120 columns wide leaves "xterm" and 120. *)
Theorem SE_resolves_capability v w x0 x2 :
  vars_ok v ->
  sb v !! 0%nat = Some x0 -> sb v !! 2%nat = Some x2 ->
  (exists v',
      neg_case_SE v w
      = Ret v' (if (char_val x0 =? TTYPE) || (char_val x0 =? NAWS)
                then set_alarm_timer 0 w else w)
      /\ sb_mode v' = 0
      /\ if char_val x0 =? TTYPE then
           cstring (term v') = Some (until_nul (drop 2 (sb v)))
           /\ terminal_width v' = terminal_width v
           /\ done v' = done v + 1
         else if char_val x0 =? NAWS then
           terminal_width v' = char_val x2
           /\ term v' = term v
           /\ done v' = done v + 1
         else v' = set_sb_mode 0 v)
  /\ (0 <= x2 < 128 -> char_val x2 = x2)
  /\ (cstring (term neg_init) = Some (bytes "ansi")
      /\ terminal_width neg_init = 80)
  /\ exists v' w',
      @negotiate_telnet rfc854 lp64_signed_char 16 (fresh_world xterm_120)
      = Ret v' w'
      /\ cstring (term v') = Some (bytes "xterm")
      /\ terminal_width v' = 120
      /\ pending (input w') = [].
Proof.
  intros Hv H0 H2. split; [|split; [|split]].
  - rewrite (neg_case_SE_eq v w x0 x2 Hv H0 H2).
    destruct (char_val x0 =? TTYPE); [|destruct (char_val x0 =? NAWS)];
      cbn [orb]; eexists; (split; [reflexivity|]); (split; [reflexivity|]).
    + split; [|done]. cbn [term set_done set_term].
      apply resolved_term_cstring. by destruct Hv.
    + done.
    + done.
  - intros Hx. unfold char_val.
    destruct (Z.leb_spec 128 x2); [lia|]. by rewrite andb_false_r.
  - split; [by vm_compute|reflexivity].
  - eexists _, _. split; [vm_compute; reflexivity|].
    split; [by vm_compute|]. split; reflexivity.
Qed.
End SessionFacts.

(* ===================================================================== *)
(** ** The theorems at work on concrete connections, under [rfc854] *)

Section Concrete.
Local Existing Instance rfc854.
Local Existing Instance lp64_signed_char.

(** What [set_options] announces: WILL ECHO, WILL SGA, WONT NEW-ENVIRON,
    then DONT ECHO, DO SGA, DO TTYPE, DO NAWS, DONT LINEMODE and
    DO NEW-ENVIRON. *)
Example set_options_announces :
  exists w,
    set_options (fresh_world []) = Ret tt w
    /\ output w
       = [IAC; WILL; ECHO; IAC; WILL; SGA; IAC; WONT; NEW_ENVIRON;
          IAC; DONT; ECHO; IAC; DO; SGA; IAC; DO; TTYPE; IAC; DO; NAWS;
          IAC; DONT; LINEMODE; IAC; DO; NEW_ENVIRON].
Proof. eexists. split; [vm_compute; reflexivity|reflexivity]. Qed.

(** A peer that repeats itself: WILL TTYPE twice, DO ECHO twice and WILL
    for option 5 twice, then NOP.  TTYPE and ECHO were agreed on by
    [set_options], so neither is answered again; each WILL TTYPE draws the
    request IAC SB TTYPE SEND IAC SE; option 5 is refused once. *)
Example repeated_commands :
  exists v w,
    negotiate_telnet 8
      (fresh_world [IAC; WILL; TTYPE; IAC; WILL; TTYPE; IAC; DO; ECHO;
                    IAC; DO; ECHO; IAC; WILL; 5; IAC; WILL; 5; IAC; NOP])
    = Ret v w
    /\ output w
       = output (loop_start [])
         ++ [IAC; SB; TTYPE; SEND; IAC; SE; IAC; SB; TTYPE; SEND; IAC; SE;
             IAC; WONT; 5; IAC; NOP]
    /\ do_echo v = 1.
Proof.
  eexists _, _. split; [vm_compute; reflexivity|].
  split; [vm_compute; reflexivity|reflexivity].
Qed.

(** The line editor on "ab", a delete, "c" and LF: unmasked, the delete
    rubs out one character and the field is "ac"; masked, it erases the
    whole echo and the field is "c". *)
Example readline_delete_unmasked :
  exists b w,
    readline 8 junk 1024 0 (fresh_world (bytes "ab" ++ [127] ++ bytes "c" ++ [10]))
    = Ret b w
    /\ cstring b = Some (bytes "ac")
    /\ output w = ESC :: bytes "[?25h" ++ bytes "ab" ++ [8; 32; 8]
                  ++ bytes "c" ++ [13; 0; 10] ++ ESC :: bytes "[?25l".
Proof.
  eexists _, _. split; [vm_compute; reflexivity|].
  split; [vm_compute; reflexivity|reflexivity].
Qed.

Example readline_delete_masked :
  exists b w,
    readline 8 junk 1024 1 (fresh_world (bytes "ab" ++ [127] ++ bytes "c" ++ [10]))
    = Ret b w
    /\ cstring b = Some (bytes "c")
    /\ output w = ESC :: bytes "[?25h" ++ bytes "**"
                  ++ ESC :: bytes "[2D" ++ ESC :: bytes "[K"
                  ++ bytes "*" ++ [13; 0; 10] ++ ESC :: bytes "[?25l".
Proof.
  eexists _, _. split; [vm_compute; reflexivity|].
  split; [vm_compute; reflexivity|reflexivity].
Qed.

(** A whole session: the peer negotiates, sends "alice" and "hunter2",
    each ended by CR NUL, and disconnects.  One line is logged, and the
    session ends with the hint about the domain and a new prompt. *)
Example session_alice :
  exists w,
    handle_connection 32 peer_address junk junk
      (fresh_world (xterm_120 ++ bytes "alice" ++ [13; 0]
                    ++ bytes "hunter2" ++ [13; 0]))
    = Exited EXIT_SUCCESS w
    /\ logfile w = bytes "::1 - alice:hunter2" ++ [10]
    /\ (ESC :: bytes "[1;34mBe sure to include the domain in your username (e.g. @gmail.com)."
        ++ [13; 0; 10; 13; 0; 10] ++ username_prompt ++ ESC :: bytes "[?25h")
       `suffix_of` output w.
Proof.
  eexists. split; [vm_compute; reflexivity|]. split; [reflexivity|].
  apply (bool_decide_unpack _). vm_compute. exact I.
Qed.

Lemma send_command_only_on_disagreement_witness :
  telnet_h_ok /\ 0 <= TTYPE < 256 /\ tables_ok (fresh_world [])
  /\ ((DO = DO \/ DO = DONT ->
       exists cur,
         arr_get (telnet_do_set (fresh_world [])) TTYPE = Some cur /\
         send_command DO TTYPE (fresh_world [])
         = if decide (cur = DO) then Ret tt (fresh_world [])
           else Ret tt (set_output
                          (output (fresh_world []) ++ [IAC; DO; TTYPE])
                          (set_telnet_do_set
                             (<[Z.to_nat TTYPE := DO]>
                                (telnet_do_set (fresh_world [])))
                             (fresh_world []))))
      /\ (DO = WILL \/ DO = WONT ->
          exists cur,
            arr_get (telnet_will_set (fresh_world [])) TTYPE = Some cur /\
            send_command DO TTYPE (fresh_world [])
            = if decide (cur = DO) then Ret tt (fresh_world [])
              else Ret tt (set_output
                             (output (fresh_world []) ++ [IAC; DO; TTYPE])
                             (set_telnet_will_set
                                (<[Z.to_nat TTYPE := DO]>
                                   (telnet_will_set (fresh_world [])))
                                (fresh_world []))))
      /\ (DO = DO \/ DO = DONT \/ DO = WILL \/ DO = WONT ->
          exists w1, send_command DO TTYPE (fresh_world []) = Ret tt w1
                     /\ send_command DO TTYPE w1 = Ret tt w1)).
Proof.
  assert (H1 : 0 <= TTYPE < 256) by (cbn; lia).
  assert (H2 : tables_ok (fresh_world [])) by (split; reflexivity).
  exact (conj rfc854_ok (conj H1 (conj H2
    (send_command_only_on_disagreement rfc854_ok DO TTYPE (fresh_world [])
       H1 H2)))).
Defined.

Lemma readline_cursor_in_range_witness :
  let buf := replicate 1024%nat 0 in
  let v' := {| buffer := <[0%nat := 97]> buf; rl_i := 0 |} in
  let w' := set_output [97; 8; 32; 8] (fresh_world [8]) in
  1 <= 1024 <= SIZE_MAX
  /\ Z.of_nat (length buf) = 1024
  /\ rtc (rl_step 1024 0)
       ({| buffer := buf; rl_i := 0 |}, fresh_world [97; 8; 8]) (v', w')
  /\ ((0 <= rl_i v' <= 1024 - 1 /\ Z.of_nat (length (buffer v')) = 1024)
      /\ (exists b, arr_set (buffer v') (rl_i v') 0 = Some b)
      /\ (readline_test 1024 v' = true ->
          match readline_body 0 v' w' with
          | Ret (Break v'') _ => v'' = v'
          | Ret (Continue v'') _ => -1 <= rl_i v'' <= rl_i v'
          | Exited status _ => status = EXIT_SUCCESS
          | Fault | OutOfFuel => False
          end)
      /\ (forall c rest,
            c = 8 \/ c = 127 ->
            rl_i v' = 0 -> 2 <= 1024 ->
            input w' = {| pending := c :: rest; eof_flag := false |} ->
            rl_step 1024 0 (v', w')
              (v', set_input {| pending := rest; eof_flag := false |} w'))).
Proof.
  intros buf v' w'.
  assert (H1 : 1 <= 1024 <= SIZE_MAX) by (cbn; lia).
  assert (H2 : Z.of_nat (length buf) = 1024) by (vm_compute; reflexivity).
  assert (H3 : rtc (rl_step 1024 0)
                 ({| buffer := buf; rl_i := 0 |}, fresh_world [97; 8; 8])
                 (v', w')).
  { apply (rtc_l _ _ ({| buffer := <[0%nat := 97]> buf; rl_i := 1 |},
                      set_output [97] (fresh_world [8; 8]))).
    { split; [reflexivity|].
      eexists. split; [vm_compute; reflexivity|vm_compute; reflexivity]. }
    apply rtc_once.
    split; [reflexivity|].
    eexists. split; [vm_compute; reflexivity|vm_compute; reflexivity]. }
  exact (conj H1 (conj H2 (conj H3
    (readline_cursor_in_range 1024 0 buf (fresh_world [97; 8; 8]) v' w'
       H1 H2 H3)))).
Defined.

Lemma readline_skips_one_NUL_witness :
  let v := {| buffer := junk; rl_i := 0 |} in
  let w := fresh_world [0; 97; 13] in
  input w = {| pending := 0 :: [97; 13]; eof_flag := false |}
  /\ ((readline_test 1024 v = true ->
       (forall b, head [97; 13] = Some b -> uchar b <> 0) ->
       readline_loop 8 1024 0 v w
       = readline_loop 8 1024 0 v
           (set_input {| pending := [97; 13]; eof_flag := false |} w))
      /\ (forall rest',
            [97; 13] = 0 :: rest' ->
            0 <= rl_i v < Z.of_nat (length (buffer v)) ->
            readline_body 0 v w
            = Ret (Continue
                     {| buffer := <[Z.to_nat (rl_i v) := 0]> (buffer v);
                        rl_i := rl_i v |})
                  (set_output
                     (output w ++ [if negb (0 =? 0) then 42 else 0])
                     (set_input {| pending := rest'; eof_flag := false |}
                        w)))).
Proof.
  intros v w.
  assert (H1 : input w = {| pending := 0 :: [97; 13]; eof_flag := false |})
    by reflexivity.
  exact (conj H1 (readline_skips_one_NUL 8 1024 0 v w [97; 13] H1)).
Defined.

Lemma readline_full_returns_at_once_witness :
  let v := {| buffer := replicate 1024%nat 97; rl_i := 1023 |} in
  let w := fresh_world [98; 13] in
  1 <= 1024 <= SIZE_MAX
  /\ rl_i v = 1024 - 1
  /\ Z.of_nat (length (buffer v)) = 1024
  /\ (readline_loop 0 1024 0 v w = Ret v w
      /\ (let* v' := readline_loop 0 1024 0 v in
          let* b := lift (arr_set (buffer v') (rl_i v') 0) in
          fput_output (ESC :: bytes "[?25l") >> ret b) w
         = Ret (<[Z.to_nat (1024 - 1) := 0]> (buffer v))
               (set_output (output w ++ ESC :: bytes "[?25l") w)).
Proof.
  intros v w.
  assert (H1 : 1 <= 1024 <= SIZE_MAX) by (cbn; lia).
  assert (H2 : rl_i v = 1024 - 1) by reflexivity.
  assert (H3 : Z.of_nat (length (buffer v)) = 1024)
    by (vm_compute; reflexivity).
  exact (conj H1 (conj H2 (conj H3
    (readline_full_returns_at_once 0 1024 0 v w H1 H2 H3)))).
Defined.

Lemma sb_never_overrun_witness :
  telnet_h_ok
  /\ ((forall w w1 v w',
          tables_ok w ->
          (set_options >> alarm 1) w = Ret tt w1 ->
          rtc neg_step (Looping neg_init w1) (Looping v w') ->
          length (sb v) = 1024%nat /\ 0 <= sb_len v <= 1023
          /\ exists v2 w2, negotiate_body v w' = Ret v2 w2)
      /\ (forall fuel inp,
            match negotiate_telnet fuel (fresh_world inp) with
            | Ret _ _ | OutOfFuel => True
            | Exited _ _ | Fault => False
            end)
      /\ (forall v w b rest,
            vars_ok v -> sb_mode v <> 0 ->
            pending (input w) = b :: rest -> uchar b <> IAC ->
            negotiate_body v w
            = Ret (if sb_len v <? 1023
                   then set_sb_len (sb_len v + 1)
                          (set_sb (<[Z.to_nat (sb_len v) := uchar b]> (sb v)) v)
                   else v)
                  (with_pending rest w))
      /\ (forall v w p rest n,
            vars_ok v -> eof_flag (stdin w) = false -> done v < 2 ->
            Forall (fun b => uchar b <> IAC) p ->
            pending (input w) = IAC :: SB :: p ++ IAC :: SE :: rest ->
            negotiate_loop (S (length p + n)) v w
            = negotiate_loop (S (length (take 1024 p) + n)) v
                (with_pending
                   (IAC :: SB :: take 1024 p ++ IAC :: SE :: rest) w))).
Proof.
  exact (conj rfc854_ok (sb_never_overrun rfc854_ok)).
Defined.

(** A terminal-type payload of 2000 bytes and its first 1024 bytes leave
    the same terminal type, the first 1021 bytes after the marker. *)
Example long_payload_is_cut :
  let p := 24 :: 0 :: replicate 1998%nat 120 in
  let run q := negotiate_telnet 2100
                 (fresh_world ([255; 250] ++ q ++ [255; 240])) in
  match run p, run (take 1024 p) with
  | Ret v _, Ret v' _ =>
      v = v' /\ cstring (term v) = Some (replicate 1021%nat 120)
      /\ sb_len v = 1023
  | _, _ => False
  end.
Proof. vm_compute. split; [reflexivity|]. split; reflexivity. Qed.

Lemma IAC_IAC_only_ends_negotiation_witness :
  let rest := [97; 13; 98; 13] in
  let inp := empty_ttype ++ IAC :: IAC :: rest in
  exists v wa,
    turns 3 neg_init (loop_start inp) = Ret v wa
    /\ telnet_h_ok /\ tables_ok (fresh_world inp)
    /\ (set_options >> alarm 1) (fresh_world inp) = Ret tt (loop_start inp)
    /\ rtc neg_step (Looping neg_init (loop_start inp)) (Looping v wa)
    /\ eof_flag (stdin wa) = false /\ done v < 2
    /\ pending (input wa) = IAC :: IAC :: rest
    /\ done v = 1
    /\ (forall n v0 w0 rest0,
          eof_flag (stdin w0) = false -> done v0 < 2 ->
          pending (input w0) = IAC :: IAC :: rest0 ->
          negotiate_loop (S n) v0 w0
          = Ret (set_done 2 v0) (with_pending rest0 w0))
    /\ (exists k,
          (forall n,
             negotiate_telnet (k + S n) (fresh_world inp)
             = Ret (set_done 2 v) (with_pending rest wa))
          /\ (done v = 1 ->
              forall n ipaddr username password,
                handle_connection (k + S n) ipaddr username password
                  (fresh_world inp)
                = (greeting >>
                   session_loop (k + S n) (k + S n) ipaddr
                     (username, password))
                    (with_pending rest wa)))
    /\ (done v = 1 -> alarm_timer (with_pending rest wa) = 0)
    /\ (done v = 0 ->
        alarm_timer (with_pending rest wa) = 1
        /\ forall wx, exists w',
             SIGALRM_handler wx = Exited EXIT_FAILURE w'
             /\ alarm_timer w' = 0
             /\ exists o, output w' = o ++ rejection_banner ++ [13; 0; 10]).
Proof.
  intros rest inp.
  eexists _, _. split; [vm_compute; reflexivity|].
  assert (Hok : telnet_h_ok) by exact rfc854_ok.
  assert (H1 : tables_ok (fresh_world inp)) by (split; reflexivity).
  assert (H2 : (set_options >> alarm 1) (fresh_world inp)
               = Ret tt (loop_start inp)) by (vm_compute; reflexivity).
  match goal with
  | |- _ /\ _ /\ _ /\ rtc _ _ (Looping ?v ?wa) /\ _ =>
      assert (H3 : rtc neg_step (Looping neg_init (loop_start inp))
                     (Looping v wa));
      [|assert (H4 : eof_flag (stdin wa) = false) by reflexivity;
        assert (H5 : done v < 2) by reflexivity;
        assert (H6 : pending (input wa) = IAC :: IAC :: rest) by reflexivity;
        assert (H7 : done v = 1) by reflexivity]
  end.
  { eapply rtc_l; [eapply step_turn; [reflexivity|vm_compute; reflexivity]|].
    eapply rtc_l; [eapply step_turn; [reflexivity|vm_compute; reflexivity]|].
    eapply rtc_l; [eapply step_turn; [reflexivity|vm_compute; reflexivity]|].
    apply rtc_refl. }
  do 8 (split; [assumption|]).
  exact (IAC_IAC_only_ends_negotiation (fresh_world inp) (loop_start inp)
           _ _ rest Hok H1 H2 H3 H4 H5 H6).
Defined.
(** C4 as stated fails: after IAC IAC the session goes on.  The peer
    answers with its terminal type, which cancels the alarm, and then
    sends IAC IAC: it is greeted and prompted, and the credentials "a" and
    "b" it sends next are read and logged; the session lasts until the end
    of the stream. *)
Lemma IAC_IAC_session_goes_on :
  exists w,
    handle_connection 16 peer_address junk junk
      (fresh_world ([IAC; SB; TTYPE; 0] ++ bytes "xterm" ++ [IAC; SE]
                    ++ [IAC; IAC]
                    ++ bytes "a" ++ [13] ++ bytes "b" ++ [13]))
    = Exited EXIT_SUCCESS w
    /\ logfile w = bytes "::1 - a:b" ++ [10]
    /\ pending (input w) = []
    /\ alarm_timer w = 0.
Proof.
  eexists. split; [vm_compute; reflexivity|].
  split; [reflexivity|]. split; reflexivity.
Qed.

(** C5 as stated fails: of two NULs in a row the second is stored and
    echoed.  On NUL NUL "a" CR [readline] stores NUL and "a", so that the
    field read back is empty, and echoes both; on "a" CR the field is
    "a". *)
Lemma NUL_after_NUL_is_stored :
  (exists b w,
      readline 8 junk 1024 0 (fresh_world [0; 0; 97; 13]) = Ret b w
      /\ take 3 b = [0; 97; 0]
      /\ cstring b = Some []
      /\ output w = ESC :: bytes "[?25h" ++ [0; 97; 13; 0; 10]
                    ++ ESC :: bytes "[?25l")
  /\ (exists b w,
        readline 8 junk 1024 0 (fresh_world [97; 13]) = Ret b w
        /\ take 2 b = [97; 0]
        /\ cstring b = Some [97]
        /\ output w = ESC :: bytes "[?25h" ++ [97; 13; 0; 10]
                      ++ ESC :: bytes "[?25l").
Proof.
  split; eexists _, _; (split; [vm_compute; reflexivity|]);
    (split; [reflexivity|]); split; reflexivity.
Qed.

(** C6 as stated fails: on a line of 1024 characters and CR, [readline]
    returns after the 1023rd character; the 1024th and the CR are left in
    the stream. *)
Lemma full_line_leaves_rest_unread :
  exists b w,
    readline 1024 junk 1024 0
      (fresh_world (replicate 1023%nat 97 ++ [98; 13]))
    = Ret b w
    /\ pending (input w) = [98; 13]
    /\ cstring b = Some (replicate 1023%nat 97).
Proof.
  eexists _, _. split; [vm_compute; reflexivity|].
  split; [reflexivity|]. vm_compute. reflexivity.
Qed.

Lemma end_of_stream_ends_session_in_readline_witness :
  let w := fresh_world [] in
  telnet_h_ok /\ IAC = 255 /\ pending (input w) = []
  /\ ((forall password v,
          readline_body password v w = Exited EXIT_SUCCESS (at_eof w))
      /\ (forall n v,
            eof_flag (stdin w) = false -> done v < 2 ->
            negotiate_loop (S n) v w
            = Ret (set_done 2 v)
                  (set_input {| pending := []; eof_flag := true |} w))
      /\ (forall n m ipaddr username password,
            (greeting >>
             session_loop (S n) (S m) ipaddr (username, password)) w
            = Exited EXIT_SUCCESS
                (at_eof (set_output
                           (output w ++ greeting_bytes ++ username_prompt
                            ++ ESC :: bytes "[?25h") w)))
      /\ (forall inp,
            exists v w',
              negotiate_telnet (S (length inp)) (fresh_world inp)
              = Ret v w')).
Proof.
  intros w.
  assert (H1 : IAC = 255) by reflexivity.
  assert (H2 : pending (input w) = []) by reflexivity.
  exact (conj rfc854_ok (conj H1 (conj H2
    (end_of_stream_ends_session_in_readline w rfc854_ok H1 H2)))).
Defined.

(** C7 as stated fails: on a connection that the peer closes without
    sending a byte, the negotiation does not end the session; the
    greeting and the first prompt are still sent. *)
Lemma end_of_stream_in_negotiation_still_prompts :
  exists w,
    handle_connection 2 peer_address junk junk (fresh_world [])
    = Exited EXIT_SUCCESS w
    /\ output w = output (loop_start []) ++ greeting_bytes
                  ++ username_prompt ++ ESC :: bytes "[?25h".
Proof.
  eexists. split; [vm_compute; reflexivity|]. vm_compute. reflexivity.
Qed.

Lemma empty_ttype_reached :
  rtc neg_step (Looping neg_init (loop_start empty_ttype)) after_empty_ttype.
Proof.
  let r := eval vm_compute in after_empty_ttype in
  change after_empty_ttype with r.
  eapply rtc_l; [eapply step_turn; [reflexivity|vm_compute; reflexivity]|].
  eapply rtc_l; [eapply step_turn; [reflexivity|vm_compute; reflexivity]|].
  eapply rtc_l; [eapply step_turn; [reflexivity|vm_compute; reflexivity]|].
  apply rtc_refl.
Qed.

Lemma alarm_cancelled_at_first_resolution_witness :
  telnet_h_ok /\ tables_ok (fresh_world empty_ttype)
  /\ (set_options >> alarm 1) (fresh_world empty_ttype)
     = Ret tt (loop_start empty_ttype)
  /\ rtc neg_step (Looping neg_init (loop_start empty_ttype))
       after_empty_ttype
  /\ (alarm_timer (loop_start empty_ttype) = 1
      /\ alarm_follows_done after_empty_ttype).
Proof.
  assert (H1 : tables_ok (fresh_world empty_ttype)) by (split; reflexivity).
  assert (H2 : (set_options >> alarm 1) (fresh_world empty_ttype)
               = Ret tt (loop_start empty_ttype))
    by (vm_compute; reflexivity).
  exact (conj rfc854_ok (conj H1 (conj H2 (conj empty_ttype_reached
    (alarm_cancelled_at_first_resolution (fresh_world empty_ttype)
       (loop_start empty_ttype) after_empty_ttype
       rfc854_ok H1 H2 empty_ttype_reached))))).
Defined.

(** C8 as stated fails: after the peer's terminal-type answer the loop
    is still running with one capability resolved, fewer than two, and
    the alarm is not pending any more. *)
Lemma alarm_off_with_one_capability :
  rtc neg_step (Looping neg_init (loop_start empty_ttype)) after_empty_ttype
  /\ exists v w,
      after_empty_ttype = Looping v w
      /\ done v = 1 /\ alarm_timer w = 0
      /\ negb (eof_flag (stdin w)) && (done v <? 2) = true.
Proof.
  split; [exact empty_ttype_reached|].
  eexists _, _. split; [vm_compute; reflexivity|].
  split; [reflexivity|]. split; reflexivity.
Qed.

Lemma SE_resolves_capability_witness :
  let v := set_sb ([24; 0] ++ bytes "xterm" ++ replicate 1017%nat 0)
             neg_init in
  let w := fresh_world [] in
  vars_ok v
  /\ sb v !! 0%nat = Some 24 /\ sb v !! 2%nat = Some 120
  /\ ((exists v',
          neg_case_SE v w
          = Ret v' (if (char_val 24 =? TTYPE) || (char_val 24 =? NAWS)
                    then set_alarm_timer 0 w else w)
          /\ sb_mode v' = 0
          /\ if char_val 24 =? TTYPE then
               cstring (term v') = Some (until_nul (drop 2 (sb v)))
               /\ terminal_width v' = terminal_width v
               /\ done v' = done v + 1
             else if char_val 24 =? NAWS then
               terminal_width v' = char_val 120
               /\ term v' = term v
               /\ done v' = done v + 1
             else v' = set_sb_mode 0 v)
      /\ (0 <= 120 < 128 -> char_val 120 = 120)
      /\ (cstring (term neg_init) = Some (bytes "ansi")
          /\ terminal_width neg_init = 80)
      /\ exists v' w',
          negotiate_telnet 16 (fresh_world xterm_120) = Ret v' w'
          /\ cstring (term v') = Some (bytes "xterm")
          /\ terminal_width v' = 120
          /\ pending (input w') = []).
Proof.
  intros v w.
  assert (H1 : vars_ok v).
  { split; [vm_compute; reflexivity|vm_compute; reflexivity
           |vm_compute; split; discriminate|vm_compute; reflexivity]. }
  assert (H2 : sb v !! 0%nat = Some 24) by reflexivity.
  assert (H3 : sb v !! 2%nat = Some 120) by reflexivity.
  exact (conj H1 (conj H2 (conj H3
    (SE_resolves_capability v w 24 120 H1 H2 H3)))).
Defined.

Lemma two_answers_of_one_kind_end_negotiation_witness :
  let p1 := 0 :: bytes "vt100" in
  let p2 := 0 :: bytes "xterm" in
  let w := fresh_world (IAC :: SB :: (TTYPE :: p1)
                        ++ IAC :: SE :: IAC :: SB :: (TTYPE :: p2)
                        ++ IAC :: SE :: [97]) in
  telnet_h_ok /\ TTYPE <> IAC /\ char_val TTYPE = TTYPE
  /\ eof_flag (stdin w) = false
  /\ Forall (fun b => uchar b <> IAC) p1
  /\ Forall (fun b => uchar b <> IAC) p2
  /\ pending (input w)
     = IAC :: SB :: (TTYPE :: p1)
       ++ IAC :: SE :: IAC :: SB :: (TTYPE :: p2) ++ IAC :: SE :: [97]
  /\ ((forall n v w0, 2 <= done v -> negotiate_loop n v w0 = Ret v w0)
      /\ exists v',
          negotiate_loop (length p1 + length p2 + 6) neg_init w
          = Ret v' (set_alarm_timer 0 (with_pending [97] w))
          /\ done v' = 2 /\ terminal_width v' = 80).
Proof.
  intros p1 p2 w.
  assert (H1 : TTYPE <> IAC) by discriminate.
  assert (H2 : char_val TTYPE = TTYPE) by reflexivity.
  assert (H3 : eof_flag (stdin w) = false) by reflexivity.
  assert (H4 : Forall (fun b => uchar b <> IAC) p1)
    by (repeat constructor; discriminate).
  assert (H5 : Forall (fun b => uchar b <> IAC) p2)
    by (repeat constructor; discriminate).
  assert (H6 : pending (input w)
               = IAC :: SB :: (TTYPE :: p1)
                 ++ IAC :: SE :: IAC :: SB :: (TTYPE :: p2)
                 ++ IAC :: SE :: [97]) by reflexivity.
  exact (conj rfc854_ok (conj H1 (conj H2 (conj H3 (conj H4 (conj H5 (conj H6
    (two_answers_of_one_kind_end_negotiation w p1 p2 [97]
       rfc854_ok H1 H2 H3 H4 H5 H6)))))))).
Defined.

(** Two terminal-type answers and no window size, run. *)
Example two_terminal_types_run :
  exists v w,
    negotiate_telnet 20
      (fresh_world ([255; 250; 24; 0] ++ bytes "vt100" ++ [255; 240]
                    ++ [255; 250; 24; 0] ++ bytes "xterm" ++ [255; 240]
                    ++ bytes "alice"))
    = Ret v w
    /\ done v = 2 /\ terminal_width v = 80
    /\ cstring (term v) = Some (bytes "xterm")
    /\ pending (input w) = bytes "alice".
Proof.
  eexists _, _. split; [vm_compute; reflexivity|].
  split; [reflexivity|]. split; [reflexivity|].
  split; [vm_compute; reflexivity|reflexivity].
Qed.
End Concrete.

(* ===================================================================== *)
(** * More of the code

    The rest of this file covers what the line editor, the session loop
    and the negotiation do beyond the properties above, and the start-up
    function [drop_privileges]. *)

(** ** newline *)

(** X1. [newline n] sends the telnet line break CR NUL LF [n] times,
    nothing at all when [n] is zero or negative, and does nothing else. *)
Theorem newline_sends_n_line_breaks n w :
  newline n w
  = Ret tt (set_output
              (output w ++ concat (replicate (Z.to_nat n) [13; 0; 10])) w).
Proof. apply emits_newline. Qed.

(** ** The line editor on any stream *)

Lemma talked_refl w : talked w w.
Proof. by split. Qed.

Lemma talked_trans w1 w2 w3 : talked w1 w2 -> talked w2 w3 -> talked w1 w3.
Proof. intros [] []. split; try congruence; by etrans. Qed.

Lemma talked_sent bs w : talked w (set_output (output w ++ bs) w).
Proof. split; try done. by apply prefix_app_r. Qed.

Lemma talked_read f w :
  pending f `suffix_of` pending (input w) -> talked w (set_input f w).
Proof. intros H. by split. Qed.

Section ReadlineSafety.
Context `{CI : c_impl}.

Lemma rl_ok_store size v c :
  rl_ok size v -> rl_i v < size - 1 -> stored_byte c ->
  rl_ok size (rl_incr {| buffer := <[Z.to_nat (rl_i v) := c]> (buffer v);
                         rl_i := rl_i v |}).
Proof.
  intros (Hi & Hl & Hf) Hlt Hc. unfold rl_ok, rl_incr. cbn.
  rewrite length_insert. split; [lia|]. split; [done|].
  replace (Z.to_nat (rl_i v + 1)) with (S (Z.to_nat (rl_i v))) by lia.
  erewrite take_S_r by (apply list_lookup_insert_eq; lia).
  rewrite take_insert_ge by lia.
  apply Forall_app. split; [done|]. by constructor.
Qed.

Lemma rl_ok_to size v i :
  rl_ok size v -> 0 <= i <= rl_i v ->
  rl_ok size {| buffer := buffer v; rl_i := i |}.
Proof.
  intros (Hi & Hl & Hf) Hk. unfold rl_ok. cbn.
  split; [lia|]. split; [done|].
  replace (Z.to_nat i) with (Z.to_nat i `min` Z.to_nat (rl_i v))%nat by lia.
  rewrite <- take_take. by apply Forall_take.
Qed.

Lemma rl_ok_back size v k :
  rl_ok size v -> -1 <= k < rl_i v \/ (k = -1 /\ rl_i v = 0) ->
  rl_ok size (rl_incr {| buffer := buffer v; rl_i := k |}).
Proof. intros Hok Hk. apply (rl_ok_to size v (k + 1)); [done|lia]. Qed.

Lemma readline_key_ok size password v c w :
  rl_ok size v -> rl_i v < size - 1 -> 0 <= c < 256 ->
  match readline_key password v c w with
  | Ret r w' =>
      talked w w' /\ input w' = input w
      /\ match r with
         | Break v' => v' = v
         | Continue v' => rl_ok size (rl_incr v')
         end
  | Exited status w' => status = EXIT_SUCCESS /\ talked w w'
  | Fault | OutOfFuel => False
  end.
Proof.
  intros Hok Hlt Hc. pose proof Hok as (Hi & Hl & Hf).
  unfold readline_key.
  destruct (Z.eqb_spec c 10) as [->|H10]; cbn [orb].
  { unfold bind. rewrite newline_1. cbn.
    split; [apply talked_sent|]. by destruct w. }
  destruct (Z.eqb_spec c 13) as [->|H13]; cbn [orb].
  { unfold bind. rewrite newline_1. cbn.
    split; [apply talked_sent|]. by destruct w. }
  destruct (Z.eqb_spec c 8) as [->|H8]; cbn [orb];
    [|destruct (Z.eqb_spec c 127) as [->|H127]; cbn [orb]].
  1,2: destruct (Z.eqb_spec (rl_i v) 0) as [H0|H0];
    [cbn; split; [apply talked_refl|]; split; [done|];
     apply rl_ok_back; [done|lia]|];
    destruct (negb (password =? 0)); cbn;
    (split; [apply talked_sent|]); (split; [by destruct w|]);
    apply rl_ok_back; solve [done|lia].
  destruct (Z.eqb_spec c 255) as [->|H255].
  { cbn. split; [done|apply talked_refl]. }
  unfold bind. rewrite arr_set_Some by lia. cbn.
  split; [apply talked_sent|]. split; [by destruct w|].
  apply rl_ok_store; [done|done|]. unfold stored_byte. lia.
Qed.

Lemma readline_key_stop password v w :
  readline_key password v 255 w = Exited EXIT_SUCCESS w.
Proof. reflexivity. Qed.

Lemma readline_body_ok size password v w :
  rl_ok size v -> rl_i v < size - 1 ->
  match readline_body password v w with
  | Ret r w' =>
      talked w w'
      /\ (length (pending (input w')) < length (pending (input w)))%nat
      /\ match r with
         | Break v' => v' = v
         | Continue v' => rl_ok size (rl_incr v')
         end
  | Exited status w' => status = EXIT_SUCCESS /\ talked w w'
  | Fault | OutOfFuel => False
  end.
Proof.
  intros Hok Hlt.
  destruct (input w) as [p e] eqn:Hin.
  destruct e.
  { unfold readline_body, bind, feof_input, gets. rewrite Hin. cbn.
    split; [done|apply talked_refl]. }
  destruct p as [|c rest].
  { rewrite readline_body_end by (by rewrite Hin).
    rewrite Hin. cbn. split; [done|].
    apply talked_read. by rewrite Hin. }
  assert (Hkey : forall c' f,
            pending f `suffix_of` rest ->
            match readline_key password v (uchar c') (set_input f w) with
            | Ret r w' =>
                talked w w'
                /\ (length (pending (input w')) < length (c :: rest))%nat
                /\ match r with
                   | Break v' => v' = v
                   | Continue v' => rl_ok size (rl_incr v')
                   end
            | Exited status w' => status = EXIT_SUCCESS /\ talked w w'
            | Fault | OutOfFuel => False
            end).
  { intros c' f Hf.
    assert (Hrf : talked w (set_input f w)).
    { apply talked_read. rewrite Hin. by apply suffix_cons_r. }
    pose proof (readline_key_ok size password v (uchar c')
                  (set_input f w) Hok Hlt (uchar_range _)) as Hk.
    destruct (readline_key password v (uchar c') (set_input f w))
      as [r w'|s w'| |]; [|by destruct Hk as [-> Ht]; split;
                              [|eapply talked_trans]|done..].
    destruct Hk as (Ht & Hi & Hr). split; [by eapply talked_trans|].
    split; [|done]. rewrite Hi. cbn.
    apply suffix_length in Hf. lia. }
  destruct (Z.eqb_spec (uchar c) 0) as [Hz|Hz].
  - assert (Hb : readline_body password v w
                 = match rest with
                   | [] => readline_key password v 255
                             (set_input {| pending := []; eof_flag := true |} w)
                   | b :: r => readline_key password v (uchar b)
                                 (set_input {| pending := r; eof_flag := false |} w)
                   end).
    { destruct w; cbn in Hin; subst.
      unfold readline_body, bind, feof_input, gets, getc_input. cbn.
      rewrite Hz. cbn. destruct rest; reflexivity. }
    rewrite Hb. destruct rest as [|b r].
    + rewrite readline_key_stop. split; [done|].
      apply talked_read. apply suffix_nil.
    + apply (Hkey b {| pending := r; eof_flag := false |}).
      by apply suffix_cons_r.
  - assert (Hb : readline_body password v w
                 = readline_key password v (uchar c)
                     (set_input {| pending := rest; eof_flag := false |} w)).
    { destruct w; cbn in Hin; subst.
      unfold readline_body, bind, feof_input, gets, getc_input. cbn.
      destruct (Z.eqb_spec (uchar c) 0); [done|reflexivity]. }
    rewrite Hb. by apply (Hkey c {| pending := rest; eof_flag := false |}).
Qed.

Lemma readline_loop_ok fuel size password v w :
  1 <= size <= SIZE_MAX -> rl_ok size v ->
  (length (pending (input w)) < fuel)%nat ->
  match readline_loop fuel size password v w with
  | Ret v' w' =>
      rl_ok size v' /\ talked w w'
      /\ (rl_i v < size - 1 ->
          (length (pending (input w')) < length (pending (input w)))%nat)
  | Exited status w' => status = EXIT_SUCCESS /\ talked w w'
  | Fault | OutOfFuel => False
  end.
Proof.
  intros Hsize. revert v w.
  induction fuel as [|fuel IH]; intros v w Hok Hfuel; [lia|].
  pose proof Hok as (Hi & Hl & Hf).
  cbn [readline_loop]. rewrite readline_test_spec by lia.
  destruct (Z.ltb_spec (rl_i v) (size - 1)) as [Hlt|Hge].
  - unfold bind.
    pose proof (readline_body_ok size password v w Hok Hlt) as Hb.
    destruct (readline_body password v w) as [r w1|s w1| |]; [|done..].
    destruct Hb as (Ht & Hlen & Hr).
    destruct r as [v1|v1].
    + specialize (IH (rl_incr v1) w1 Hr ltac:(lia)).
      destruct (readline_loop fuel size password (rl_incr v1) w1)
        as [v2 w2|s w2| |]; [|by destruct IH as [-> ?]; split;
                                [|eapply talked_trans]|done..].
      destruct IH as (Hok2 & Ht2 & _).
      split; [done|]. split; [by eapply talked_trans|].
      intros _. destruct Ht2 as [Hsuf _ _]. apply suffix_length in Hsuf. lia.
    + subst v1. cbn. split; [done|]. split; [done|]. by intros _.
  - cbn. split; [done|]. split; [apply talked_refl|lia].
Qed.

Lemma until_nul_app_nul_any s r : until_nul (s ++ 0 :: r) = until_nul s.
Proof.
  induction s as [|c s IH]; cbn; [done|].
  destruct (c =? 0); [done|]. by rewrite IH.
Qed.

Lemma until_nul_Forall (P : Z -> Prop) l :
  Forall P l -> Forall P (until_nul l).
Proof.
  induction 1 as [|c l Hc _ IH]; cbn; [done|].
  destruct (c =? 0); by constructor.
Qed.

(** [readline] on any stream. *)
Lemma readline_ok fuel buf size password w :
  1 <= size <= SIZE_MAX ->
  Z.of_nat (length buf) = size ->
  (length (pending (input w)) < fuel)%nat ->
  match readline fuel buf size password w with
  | Ret b w' =>
      length b = length buf
      /\ (exists s, cstring b = Some s /\ Z.of_nat (length s) < size
                    /\ Forall field_byte s)
      /\ talked w w'
      /\ (2 <= size ->
          (length (pending (input w')) < length (pending (input w)))%nat)
  | Exited status w' => status = EXIT_SUCCESS /\ talked w w'
  | Fault | OutOfFuel => False
  end.
Proof.
  intros Hsize Hlen Hfuel. unfold readline, bind, fput_output, modify.
  pose proof (readline_loop_ok fuel size password
                {| buffer := buf; rl_i := 0 |}
                (set_output (output w ++ ESC :: bytes "[?25h") w)
                Hsize) as Hloop.
  cbn [input set_output] in Hloop.
  specialize (Hloop ltac:(split; cbn; [lia|split; [done|constructor]]) Hfuel).
  match type of Hloop with
    match ?r with _ => _ end => destruct r as [v1 w1|s w1| |]
  end; [|by destruct Hloop as [-> ?]; split;
           [|eapply talked_trans; [apply talked_sent|]]|done..].
  destruct Hloop as ((Hi & Hl & Hf) & Ht & Hshort).
  rewrite arr_set_Some by lia. cbn.
  split; [rewrite length_insert; lia|].
  split.
  - exists (until_nul (take (Z.to_nat (rl_i v1)) (buffer v1))).
    rewrite insert_take_drop by lia.
    unfold cstring. rewrite has_nul_app_nul, until_nul_app_nul_any.
    split; [done|]. split.
    + pose proof (until_nul_length (take (Z.to_nat (rl_i v1)) (buffer v1))).
      rewrite length_take in H. lia.
    + apply Forall_and. split; [by apply until_nul_Forall|].
      apply until_nul_nonzero.
  - split.
    + eapply talked_trans; [apply talked_sent|].
      eapply talked_trans; [exact Ht|]. apply talked_sent.
    + intros H2. cbn in Hshort. apply Hshort. lia.
Qed.

(** X2. On every stream, [readline] on an array of [size] bytes stays
    inside the array and needs at most one turn of its loop per byte of
    the stream: it returns, or it ends the process with the success
    status.  The field it returns is a C string shorter than [size] that
    holds no line end, backspace, delete or 0xff byte; the call has read
    at least one byte when [size] is 2 or more, and it has touched
    nothing but the two streams of the connection. *)
Theorem readline_returns_a_clean_field fuel buf size password w :
  1 <= size <= SIZE_MAX ->
  Z.of_nat (length buf) = size ->
  (length (pending (input w)) < fuel)%nat ->
  match readline fuel buf size password w with
  | Ret b w' =>
      length b = length buf
      /\ (exists s, cstring b = Some s /\ Z.of_nat (length s) < size
                    /\ Forall field_byte s)
      /\ talked w w'
      /\ (2 <= size ->
          (length (pending (input w')) < length (pending (input w)))%nat)
  | Exited status w' => status = EXIT_SUCCESS /\ talked w w'
  | Fault | OutOfFuel => False
  end.
Proof. apply readline_ok. Qed.
End ReadlineSafety.

(** ** The line editor on lines of keys, and masking *)

Section ReadlineKeys.
Context `{CI : c_impl}.

(** [readline_key] by the kind of the byte. *)
Lemma readline_key_end password v c w :
  c = 10 \/ c = 13 ->
  readline_key password v c w
  = Ret (Break v) (set_output (output w ++ [13; 0; 10]) w).
Proof.
  intros Hc. unfold readline_key.
  replace ((c =? 10) || (c =? 13)) with true by (destruct Hc; by subst).
  unfold bind. by rewrite newline_1.
Qed.

Lemma readline_key_erase password v c w :
  c = 8 \/ c = 127 ->
  readline_key password v c w
  = if rl_i v =? 0 then Ret (Continue {| buffer := buffer v; rl_i := -1 |}) w
    else if negb (password =? 0) then
      Ret (Continue {| buffer := buffer v; rl_i := -1 |})
          (set_output (output w ++ ESC :: bytes "[" ++ fmt_d (rl_i v)
                       ++ bytes "D" ++ ESC :: bytes "[K") w)
    else
      Ret (Continue {| buffer := buffer v; rl_i := rl_i v - 2 |})
          (set_output (output w ++ [8; 32; 8]) w).
Proof.
  intros Hc. unfold readline_key.
  replace ((c =? 10) || (c =? 13)) with false by (destruct Hc; by subst).
  replace ((c =? 8) || (c =? 127)) with true by (destruct Hc; by subst).
  destruct (rl_i v =? 0); [done|].
  by destruct (negb (password =? 0)).
Qed.

Lemma readline_key_char password v c w :
  c <> 10 -> c <> 13 -> c <> 8 -> c <> 127 -> c <> 255 ->
  readline_key password v c w
  = match arr_set (buffer v) (rl_i v) c with
    | Some b =>
        Ret (Continue {| buffer := b; rl_i := rl_i v |})
            (set_output
               (output w ++ [uchar (if negb (password =? 0) then 42 else c)])
               w)
    | None => Fault
    end.
Proof.
  intros. unfold readline_key.
  destruct (Z.eqb_spec c 10); [done|]. destruct (Z.eqb_spec c 13); [done|].
  destruct (Z.eqb_spec c 8); [done|]. destruct (Z.eqb_spec c 127); [done|].
  destruct (Z.eqb_spec c 255); [done|]. cbn [orb].
  unfold bind. by destruct (arr_set (buffer v) (rl_i v) c).
Qed.

Lemma Forall_line_after (P : Z -> Prop) password line k :
  Forall P line -> P k -> Forall P (line_after password line k).
Proof.
  intros Hl Hk. unfold line_after.
  destruct ((k =? 8) || (k =? 127)).
  - destruct (negb (password =? 0)); [constructor|by apply Forall_take].
  - apply Forall_app. split; [done|by constructor].
Qed.

Lemma Forall_typed (P : Z -> Prop) password keys line :
  Forall P line -> Forall P keys ->
  Forall P (fold_left (line_after password) keys line).
Proof.
  intros Hl Hk. revert line Hl.
  induction Hk as [|k keys Hk _ IH]; intros line Hl; cbn; [done|].
  apply IH. by apply Forall_line_after.
Qed.

Lemma length_line_after password line k :
  (length (line_after password line k) <= S (length line))%nat.
Proof.
  unfold line_after. destruct ((k =? 8) || (k =? 127)).
  - destruct (negb (password =? 0)); cbn; [lia|].
    rewrite length_take. lia.
  - rewrite length_app. cbn. lia.
Qed.

(** The loop of [readline] over keys that leave room in the array: it
    carries out the edition that [line_after] describes on the bytes
    below the cursor, and sends what [echoes] describes. *)
Lemma readline_loop_keys size password keys :
  1 <= size <= SIZE_MAX ->
  Forall edit_key keys ->
  forall fuel v w rest,
    0 <= rl_i v -> rl_i v + Z.of_nat (length keys) <= size - 1 ->
    Z.of_nat (length (buffer v)) = size ->
    input w = {| pending := keys ++ rest; eof_flag := false |} ->
    exists v',
      readline_loop (length keys + fuel) size password v w
      = readline_loop fuel size password v'
          (set_output
             (output w
              ++ echoes password (take (Z.to_nat (rl_i v)) (buffer v)) keys)
             (set_input {| pending := rest; eof_flag := false |} w))
      /\ take (Z.to_nat (rl_i v')) (buffer v')
         = fold_left (line_after password) keys
             (take (Z.to_nat (rl_i v)) (buffer v))
      /\ 0 <= rl_i v' <= rl_i v + Z.of_nat (length keys)
      /\ length (buffer v') = length (buffer v).
Proof.
  intros Hsize Hkeys.
  induction Hkeys as [|k keys Hk _ IH]; intros fuel v w rest Hi Hroom Hl Hin.
  { exists v. cbn. split; [|split; [done|split; [lia|done]]].
    f_equal. destruct w; cbn in *. subst. by rewrite app_nil_r. }
  cbn [length] in Hroom.
  destruct Hk as (Hkb & Hk10 & Hk13).
  assert (Hlen : length (take (Z.to_nat (rl_i v)) (buffer v))
                 = Z.to_nat (rl_i v)) by (rewrite length_take; lia).
  set (w0 := set_input {| pending := keys ++ rest; eof_flag := false |} w).
  assert (Hstep : exists v1 e,
             readline_key password v k w0
             = Ret (Continue v1) (set_output (output w0 ++ e) w0)
             /\ e = echo_of password (take (Z.to_nat (rl_i v)) (buffer v)) k
             /\ take (Z.to_nat (rl_i v1 + 1)) (buffer v1)
                = line_after password (take (Z.to_nat (rl_i v)) (buffer v)) k
             /\ -1 <= rl_i v1 <= rl_i v
             /\ length (buffer v1) = length (buffer v)).
  { unfold echo_of, line_after. rewrite Hlen.
    destruct (Z.eqb_spec k 8) as [H8|H8]; cbn [orb];
      [|destruct (Z.eqb_spec k 127) as [H127|H127]; cbn [orb]].
    1,2: rewrite readline_key_erase by tauto;
      destruct (Z.eqb_spec (rl_i v) 0) as [H0|H0];
      [rewrite H0; cbn;
       eexists _, []; split;
         [f_equal; destruct w; cbn; by rewrite app_nil_r|];
       split; [done|]; cbn; split; [by destruct (negb (password =? 0))|];
       split; [lia|done]
      |destruct (Nat.eqb_spec (Z.to_nat (rl_i v)) 0); [lia|];
       destruct (negb (password =? 0));
       eexists _, _; (split; [reflexivity|]); cbn;
       [split; [by rewrite Z2Nat.id by lia|]; split; [done|];
        split; [lia|done]
       |split; [done|]; split;
        [rewrite take_take; f_equal; lia|split; [lia|done]]]].
    rewrite readline_key_char by lia.
    rewrite arr_set_Some by lia.
    eexists _, _. split; [reflexivity|]. cbn.
    split; [destruct (negb (password =? 0)); [done|by rewrite uchar_byte by lia]|].
    split; [|split; [lia|apply length_insert]].
    replace (Z.to_nat (rl_i v + 1)) with (S (Z.to_nat (rl_i v))) by lia.
    erewrite take_S_r by (apply list_lookup_insert_eq; lia).
    by rewrite take_insert_ge by lia. }
  destruct Hstep as (v1 & e & Hkey & He & Hline & Hi1 & Hl1).
  destruct (IH fuel (rl_incr v1) (set_output (output w0 ++ e) w0) rest)
    as (v' & Hrun & Hline' & Hi' & Hl').
  { cbn. lia. } { cbn. lia. } { cbn. lia. } { done. }
  exists v'. split; [|split; [|split]].
  - cbn [length Nat.add readline_loop].
    rewrite readline_test_spec by lia.
    destruct (Z.ltb_spec (rl_i v) (size - 1)); [|lia].
    unfold bind at 1.
    rewrite (readline_body_byte password v w k (keys ++ rest) Hin)
      by (rewrite uchar_byte; lia).
    rewrite uchar_byte by lia. fold w0. rewrite Hkey, Hrun.
    f_equal. cbn [rl_incr buffer rl_i]. rewrite Hline, He.
    cbn [echoes]. destruct w; cbn. by rewrite app_assoc.
  - rewrite Hline'. cbn [rl_incr buffer rl_i fold_left]. by rewrite Hline.
  - cbn [rl_incr rl_i length] in *. lia.
  - cbn [rl_incr buffer] in Hl'. congruence.
Qed.

(** [readline] on a line of keys that leaves room in the array. *)
Lemma readline_on_keys fuel buf size password keys t rest w :
  1 <= size <= SIZE_MAX ->
  Z.of_nat (length buf) = size ->
  Forall edit_key keys ->
  Z.of_nat (length keys) < size - 1 ->
  t = 10 \/ t = 13 ->
  input w = {| pending := keys ++ t :: rest; eof_flag := false |} ->
  (length keys < fuel)%nat ->
  exists b,
    readline fuel buf size password w
    = Ret b (set_output
               (output w ++ ESC :: bytes "[?25h" ++ echoes password [] keys
                ++ [13; 0; 10] ++ ESC :: bytes "[?25l")
               (set_input {| pending := rest; eof_flag := false |} w))
    /\ cstring b = Some (typed password keys)
    /\ length b = length buf.
Proof.
  intros Hsize Hlen Hkeys Hroom Ht Hin Hfuel.
  replace fuel with (length keys + S (fuel - length keys - 1))%nat by lia.
  set (n := (fuel - length keys - 1)%nat).
  set (w0 := set_output (output w ++ ESC :: bytes "[?25h") w).
  destruct (readline_loop_keys size password keys Hsize Hkeys (S n)
              {| buffer := buf; rl_i := 0 |} w0 (t :: rest))
    as (v' & Hrun & Hline & Hi & Hl); [cbn; lia..|by destruct w|].
  cbn [rl_i buffer] in *.
  change (take (Z.to_nat 0) buf) with (@nil Z) in *.
  fold (typed password keys) in Hline.
  assert (Htlen : length (typed password keys) = Z.to_nat (rl_i v')).
  { rewrite <- Hline, length_take. lia. }
  exists (<[Z.to_nat (rl_i v') := 0]> (buffer v')).
  split; [|split].
  - unfold readline, bind, fput_output, modify. fold w0. rewrite Hrun.
    cbn [readline_loop]. rewrite readline_test_spec by lia.
    destruct (Z.ltb_spec (rl_i v') (size - 1)); [|lia].
    unfold bind.
    erewrite readline_body_byte;
      [|by destruct w|rewrite uchar_byte; destruct Ht; subst; lia].
    rewrite uchar_byte by (destruct Ht; subst; lia).
    rewrite readline_key_end by done.
    cbn. rewrite arr_set_Some by lia. cbn.
    f_equal. destruct w; cbn. by rewrite <- !app_assoc.
  - rewrite insert_take_drop by lia. rewrite Hline.
    apply cstring_app_nul. apply Forall_typed; [constructor|].
    eapply Forall_impl; [exact Hkeys|]. intros c (? & _). lia.
  - rewrite length_insert. lia.
Qed.

(** X3. On a line of keys that is shorter than the array, [readline]
    carries out the edition: a backspace or delete takes the last
    character of the field away, or the whole field when it is masked,
    and any other key is appended; each key is echoed as [echo_of] tells.
    The call reads the line and its end (CR or LF) and nothing after it,
    and returns the edited field as a C string. *)
Theorem readline_carries_out_the_edition fuel buf size password keys t rest w :
  1 <= size <= SIZE_MAX ->
  Z.of_nat (length buf) = size ->
  Forall edit_key keys ->
  Z.of_nat (length keys) < size - 1 ->
  t = 10 \/ t = 13 ->
  input w = {| pending := keys ++ t :: rest; eof_flag := false |} ->
  (length keys < fuel)%nat ->
  exists b,
    readline fuel buf size password w
    = Ret b (set_output
               (output w ++ ESC :: bytes "[?25h" ++ echoes password [] keys
                ++ [13; 0; 10] ++ ESC :: bytes "[?25l")
               (set_input {| pending := rest; eof_flag := false |} w))
    /\ cstring b = Some (typed password keys)
    /\ length b = length buf.
Proof. apply readline_on_keys. Qed.

(** *** Masking *)

Lemma key_class_spec c :
  match key_class c with
  | KNul => uchar c = 0
  | KEnd => uchar c = 10 \/ uchar c = 13
  | KErase => uchar c = 8 \/ uchar c = 127
  | KStop => uchar c = 255
  | KChar => uchar c <> 0 /\ uchar c <> 10 /\ uchar c <> 13 /\ uchar c <> 8
             /\ uchar c <> 127 /\ uchar c <> 255
  end.
Proof.
  unfold key_class.
  destruct (Z.eqb_spec (uchar c) 0); [done|].
  destruct (Z.eqb_spec (uchar c) 10); [by left|].
  destruct (Z.eqb_spec (uchar c) 13); [by right|].
  destruct (Z.eqb_spec (uchar c) 8); [by left|].
  destruct (Z.eqb_spec (uchar c) 127); [by right|].
  destruct (Z.eqb_spec (uchar c) 255); [done|]. cbn. tauto.
Qed.

Lemma readline_key_same password v1 v2 c1 c2 w1 w2 :
  password <> 0 ->
  key_class c1 = key_class c2 ->
  same_shape (v1, w1) (v2, w2) ->
  same_run (readline_key password v1 (uchar c1) w1)
           (readline_key password v2 (uchar c2) w2).
Proof.
  intros Hp Hc (Hi & Hl & Hm & He & Ho). cbn [fst snd] in *.
  pose proof (key_class_spec c1) as H1. pose proof (key_class_spec c2) as H2.
  rewrite <- Hc in H2.
  assert (Hpw : negb (password =? 0) = true)
    by (destruct (Z.eqb_spec password 0); done).
  assert (Hst : forall a1 a2,
             same_run
               match arr_set (buffer v1) (rl_i v1) a1 with
               | Some b =>
                   Ret (Continue {| buffer := b; rl_i := rl_i v1 |})
                     (set_output
                        (output w1
                         ++ [uchar (if negb (password =? 0) then 42 else a1)])
                        w1)
               | None => Fault
               end
               match arr_set (buffer v2) (rl_i v2) a2 with
               | Some b =>
                   Ret (Continue {| buffer := b; rl_i := rl_i v2 |})
                     (set_output
                        (output w2
                         ++ [uchar (if negb (password =? 0) then 42 else a2)])
                        w2)
               | None => Fault
               end).
  { intros a1 a2. unfold arr_set. rewrite Hi, Hl.
    destruct ((0 <=? rl_i v2) && (rl_i v2 <? Z.of_nat (length (buffer v2))));
      [|done].
    cbn. unfold same_shape. cbn. rewrite !length_insert, Hpw, Ho.
    by destruct w1, w2. }
  destruct (key_class c1).
  - rewrite H1, H2, !readline_key_char by done. apply Hst.
  - rewrite !readline_key_end by done. cbn. unfold same_shape. cbn.
    rewrite Ho. by destruct w1, w2.
  - rewrite !readline_key_erase by done. rewrite Hi, Hpw.
    destruct (rl_i v2 =? 0); cbn; unfold same_shape; cbn; rewrite ?Ho;
      by destruct w1, w2.
  - rewrite H1, H2. cbn. done.
  - rewrite !readline_key_char by tauto. apply Hst.
Qed.

Lemma readline_body_same password v1 v2 w1 w2 :
  password <> 0 ->
  same_shape (v1, w1) (v2, w2) ->
  same_run (readline_body password v1 w1) (readline_body password v2 w2).
Proof.
  intros Hp (Hi & Hl & Hm & He & Ho). cbn [fst snd] in *.
  destruct (input w1) as [p1 e1] eqn:Hin1.
  destruct (input w2) as [p2 e2] eqn:Hin2.
  cbn in Hm, He. subst e2.
  destruct e1.
  { unfold readline_body, bind, feof_input, gets. rewrite Hin1, Hin2. by cbn. }
  assert (Hkey : forall c1 c2 f1 f2,
            key_class c1 = key_class c2 ->
            map key_class (pending f1) = map key_class (pending f2) ->
            eof_flag f1 = eof_flag f2 ->
            same_run (readline_key password v1 (uchar c1) (set_input f1 w1))
                     (readline_key password v2 (uchar c2) (set_input f2 w2))).
  { intros c1 c2 f1 f2 Hc Hf He. apply readline_key_same; [done|done|].
    unfold same_shape. cbn. by destruct w1, w2. }
  destruct p1 as [|c1 r1], p2 as [|c2 r2]; try done.
  { rewrite !readline_body_end by (by rewrite ?Hin1, ?Hin2).
    rewrite Hin1, Hin2. cbn. split; [done|]. by destruct w1, w2. }
  cbn in Hm. injection Hm as Hc Hr.
  pose proof (key_class_spec c1) as H1. pose proof (key_class_spec c2) as H2.
  destruct (Z.eqb_spec (uchar c1) 0) as [Hz|Hz].
  - assert (Hz2 : uchar c2 = 0).
    { unfold key_class in Hc. rewrite Hz in Hc. cbn in Hc.
      destruct (Z.eqb_spec (uchar c2) 0); [done|].
      by repeat match type of Hc with
                | context [if ?b then _ else _] => destruct b
                end. }
    assert (Hb : forall v w c r,
               input w = {| pending := c :: r; eof_flag := false |} ->
               uchar c = 0 ->
               readline_body password v w
               = match r with
                 | [] => readline_key password v (uchar EOF)
                           (set_input {| pending := []; eof_flag := true |} w)
                 | b :: r' =>
                     readline_key password v (uchar b)
                       (set_input {| pending := r'; eof_flag := false |} w)
                 end).
    { intros v w c r Hin Hc0. destruct w; cbn in Hin; subst.
      unfold readline_body, bind, feof_input, gets, getc_input. cbn.
      rewrite Hc0. cbn. by destruct r. }
    rewrite (Hb v1 w1 c1 r1 Hin1 Hz), (Hb v2 w2 c2 r2 Hin2 Hz2).
    destruct r1 as [|b1 r1], r2 as [|b2 r2]; try done.
    cbn in Hr. injection Hr as Hb12 Hr. by apply Hkey.
  - assert (Hz2 : uchar c2 <> 0).
    { intros Hz2. unfold key_class in Hc. rewrite Hz2 in Hc. cbn in Hc.
      destruct (Z.eqb_spec (uchar c1) 0); [done|].
      by repeat match type of Hc with
                | context [if ?b then _ else _] => destruct b
                end. }
    rewrite (readline_body_byte password v1 w1 c1 r1 Hin1 Hz).
    rewrite (readline_body_byte password v2 w2 c2 r2 Hin2 Hz2).
    by apply Hkey.
Qed.

Lemma readline_loop_same fuel size password v1 v2 w1 w2 :
  password <> 0 ->
  same_shape (v1, w1) (v2, w2) ->
  same_end (readline_loop fuel size password v1 w1)
           (readline_loop fuel size password v2 w2).
Proof.
  intros Hp. revert v1 v2 w1 w2.
  induction fuel as [|fuel IH]; intros v1 v2 w1 w2 Hs;
    pose proof Hs as (Hi & Hl & Hm & He & Ho); cbn [fst snd] in *;
    cbn [readline_loop]; unfold readline_test; rewrite Hi;
    (destruct (to_size_t (rl_i v2) <? to_size_t (size - 1)); [|done]).
  - done.
  - unfold bind.
    pose proof (readline_body_same password v1 v2 w1 w2 Hp Hs) as Hb.
    destruct (readline_body password v1 w1) as [[a1|a1] w1'|s1 w1'| |],
             (readline_body password v2 w2) as [[a2|a2] w2'|s2 w2'| |];
      try done.
    apply IH. destruct Hb as (Hi' & Hl' & Hrest).
    split; [|split]; cbn in *; [congruence|done|done].
Qed.

(** X4. A masked field gives nothing of its characters away: two runs
    of [readline] with a mask, on streams whose bytes are of the same
    kinds one by one (NUL, line end, erase, 0xff, character), end the same
    way and send the same bytes to the peer, whatever the characters
    are. *)
Theorem readline_masks_password fuel size password buf1 buf2 s1 s2 w :
  password <> 0 ->
  length buf1 = length buf2 ->
  map key_class s1 = map key_class s2 ->
  view (readline fuel buf1 size password (with_pending s1 w))
  = view (readline fuel buf2 size password (with_pending s2 w)).
Proof.
  intros Hp Hl Hm. unfold readline, bind, fput_output, modify.
  pose proof (readline_loop_same fuel size password
                {| buffer := buf1; rl_i := 0 |} {| buffer := buf2; rl_i := 0 |}
                (set_output (output (with_pending s1 w) ++ ESC :: bytes "[?25h")
                   (with_pending s1 w))
                (set_output (output (with_pending s2 w) ++ ESC :: bytes "[?25h")
                   (with_pending s2 w)) Hp) as Hloop.
  match type of Hloop with
  | _ -> same_end ?r1 ?r2 =>
      destruct r1 as [v1 w1|x1 w1| |], r2 as [v2 w2|x2 w2| |]
  end; cbn in Hloop.
  all: try (exfalso; apply Hloop; unfold same_shape; cbn; by repeat split).
  all: try done.
  - destruct Hloop as (Hi & Hl' & _ & _ & Ho);
      [unfold same_shape; cbn; by repeat split|].
    cbn in *. unfold arr_set. rewrite Hi, Hl'.
    destruct ((0 <=? rl_i v2) && (rl_i v2 <? Z.of_nat (length (buffer v2))));
      [|done].
    cbn. by rewrite Ho.
  - destruct Hloop as [-> Ho]; [unfold same_shape; cbn; by repeat split|].
    cbn. by rewrite Ho.
Qed.
End ReadlineKeys.

(** ** What the negotiation leaves alone *)

Section Keeps.
Context (R : relation world) `{!PreOrder R}.

Lemma keeps_ret {A} (a : A) : keeps R (ret a).
Proof. intros w. cbn. reflexivity. Qed.

Lemma keeps_exit {A} s : keeps R (@_exit A s).
Proof. intros w. cbn. reflexivity. Qed.

Lemma keeps_fault {A} : keeps R (@fault A).
Proof. by intros w. Qed.

Lemma keeps_out_of_fuel {A} : keeps R (@out_of_fuel A).
Proof. by intros w. Qed.

Lemma keeps_lift {A} (o : option A) : keeps R (lift o).
Proof. destruct o; [apply keeps_ret|apply keeps_fault]. Qed.

Lemma keeps_gets {A} (f : world -> A) : keeps R (gets f).
Proof. intros w. cbn. reflexivity. Qed.

Lemma keeps_modify f : (forall w, R w (f w)) -> keeps R (modify f).
Proof. intros H w. apply H. Qed.

Lemma keeps_bind {A B} (c : M A) (k : A -> M B) :
  keeps R c -> (forall a, keeps R (k a)) -> keeps R (bind c k).
Proof.
  intros Hc Hk w. unfold bind. specialize (Hc w).
  destruct (c w) as [a w1|s w1| |]; [|done..].
  specialize (Hk a w1).
  destruct (k a w1); [by etrans|by etrans|done..].
Qed.

Lemma keeps_for_each {X} (l : list X) (body : X -> M unit) :
  (forall x, keeps R (body x)) -> keeps R (for_each l body).
Proof.
  intros Hb. induction l as [|x l IH]; cbn; [apply keeps_ret|].
  apply keeps_bind; [apply Hb|done].
Qed.
End Keeps.

Global Instance negotiated_preorder : PreOrder negotiated.
Proof.
  split.
  - by intros w.
  - intros w1 w2 w3 [] []. split; try congruence; by etrans.
Qed.

Global Instance talked_preorder : PreOrder talked.
Proof. split; [exact talked_refl|exact talked_trans]. Qed.

Lemma talked_negotiated w w' : talked w w' -> negotiated w w'.
Proof. intros []. by split. Qed.

Ltac keeps_tac :=
  repeat match goal with
         | |- keeps _ (bind _ _) =>
             apply keeps_bind; [typeclasses eauto| |intros ?]
         | |- keeps _ (ret _) => apply keeps_ret; typeclasses eauto
         | |- keeps _ (lift _) => apply keeps_lift; typeclasses eauto
         | |- keeps _ (gets _) => apply keeps_gets; typeclasses eauto
         | |- keeps _ (_exit _) => apply keeps_exit; typeclasses eauto
         | |- keeps _ out_of_fuel => apply keeps_out_of_fuel
         | |- keeps _ (if ?b then _ else _) => destruct b
         | |- keeps _ (match ?x with _ => _ end) => destruct x
         | |- keeps _ _ => assumption
         end.

Section NegotiationFrame.
Context `{TH : telnet_h} `{CI : c_impl}.

Lemma keeps_fput_output bs : keeps negotiated (fput_output bs).
Proof. intros w. cbn. split; try done. by apply prefix_app_r. Qed.

Lemma keeps_newline n : keeps negotiated (newline n).
Proof.
  unfold newline. apply keeps_for_each; [typeclasses eauto|].
  intros _. unfold putc_output.
  keeps_tac; apply keeps_fput_output.
Qed.

Lemma keeps_getc_input : keeps negotiated getc_input.
Proof.
  intros w. unfold getc_input, getc_file.
  destruct (pending (input w)) eqn:Hp; cbn; split; cbn; rewrite ?Hp;
    try done.
  by apply suffix_cons_r.
Qed.

Lemma keeps_alarm s : keeps negotiated (alarm s).
Proof. by intros w. Qed.

Lemma keeps_send_command cmd opt : keeps negotiated (send_command cmd opt).
Proof.
  unfold send_command.
  keeps_tac; first [apply keeps_fput_output | by intros w].
Qed.

Lemma keeps_store_telnet_willack o x :
  keeps negotiated (store_telnet_willack o x).
Proof. unfold store_telnet_willack. keeps_tac. by intros w. Qed.

Lemma keeps_store_telnet_options o x :
  keeps negotiated (store_telnet_options o x).
Proof. unfold store_telnet_options. keeps_tac. by intros w. Qed.

Lemma keeps_set_options : keeps negotiated set_options.
Proof.
  unfold set_options.
  repeat (apply keeps_bind; [typeclasses eauto
                            |first [apply keeps_store_telnet_options
                                   |apply keeps_store_telnet_willack]
                            |intros _]).
  apply keeps_bind; [typeclasses eauto| |intros _];
    (apply keeps_for_each; [typeclasses eauto|]; intros o;
     keeps_tac; apply keeps_send_command).
Qed.

Lemma keeps_negotiate_body v : keeps negotiated (negotiate_body v).
Proof.
  unfold negotiate_body, neg_switch, neg_case_SE, neg_case_WILL_WONT,
    neg_case_DO_DONT.
  keeps_tac;
    first [ apply keeps_getc_input | apply keeps_alarm
          | apply keeps_send_command | apply keeps_fput_output
          | apply keeps_store_telnet_willack
          | apply keeps_store_telnet_options ].
Qed.

Lemma keeps_negotiate_loop fuel v : keeps negotiated (negotiate_loop fuel v).
Proof.
  revert v. induction fuel as [|fuel IH]; intros v; cbn [negotiate_loop].
  - unfold feof_stdin. keeps_tac.
  - unfold feof_stdin. keeps_tac; [apply keeps_negotiate_body|apply IH].
Qed.

Lemma keeps_negotiate_telnet fuel : keeps negotiated (negotiate_telnet fuel).
Proof.
  unfold negotiate_telnet. keeps_tac;
    first [apply keeps_set_options|apply keeps_alarm
          |apply keeps_negotiate_loop].
Qed.
End NegotiationFrame.

(** ** The session loop *)

Section SessionTurn.
Context `{CI : c_impl}.

Lemma size_1024 : 2 <= 1024 <= SIZE_MAX.
Proof. pose proof SIZE_MAX_least. lia. Qed.

Lemma newline_2 w :
  newline 2 w = Ret tt (set_output (output w ++ [13; 0; 10; 13; 0; 10]) w).
Proof. apply (emits_newline 2). Qed.

Lemma session_body_fields fuel ipaddr ub pb w ub' w1 pb' w2 ip u p :
  readline fuel ub 1024 0 (set_output (output w ++ username_prompt) w)
  = Ret ub' w1 ->
  readline fuel pb 1024 1 (set_output (output w1 ++ password_prompt) w1)
  = Ret pb' w2 ->
  cstring ipaddr = Some ip -> cstring ub' = Some u -> cstring pb' = Some p ->
  session_body fuel ipaddr (ub, pb) w = Ret (ub', pb') (turned_away ip u p w2).
Proof.
  intros H1 H2 Hip Hu Hp.
  unfold session_body, bind, fput_output, fput_logfile, fput_stdout, modify.
  rewrite H1, H2, newline_2, Hip, Hu, Hp. cbn [lift ret].
  unfold turned_away, rejection, log_line, domain_hint.
  destruct w2 as [i0 s0 o0 l0 so0 se0 a0 t1 t2 t3 t4].
  unfold set_output, set_stdout, set_logfile;
    cbn [output stdout logfile input stdin stderr alarm_timer
         telnet_options telnet_willack telnet_do_set telnet_will_set].
  rewrite newline_1.
  unfold set_output;
    cbn [output stdout logfile input stdin stderr alarm_timer
         telnet_options telnet_willack telnet_do_set telnet_will_set].
  rewrite newline_2.
  unfold set_output;
    cbn [output stdout logfile input stdin stderr alarm_timer
         telnet_options telnet_willack telnet_do_set telnet_will_set].
  destruct (existsb (Z.eqb 64) u); cbn [negb ret].
  - do 2 f_equal. rewrite app_nil_r, <- !app_assoc. reflexivity.
  - unfold bind. rewrite newline_2.
    unfold set_output;
      cbn [output stdout logfile input stdin stderr alarm_timer
           telnet_options telnet_willack telnet_do_set telnet_will_set].
    do 2 f_equal. rewrite <- !app_assoc. reflexivity.
Qed.

Lemma session_body_exit_1 fuel ipaddr ub pb w s w1 :
  readline fuel ub 1024 0 (set_output (output w ++ username_prompt) w)
  = Exited s w1 ->
  session_body fuel ipaddr (ub, pb) w = Exited s w1.
Proof.
  intros H1. unfold session_body, bind, fput_output, modify. by rewrite H1.
Qed.

Lemma session_body_exit_2 fuel ipaddr ub pb w ub' w1 s w2 :
  readline fuel ub 1024 0 (set_output (output w ++ username_prompt) w)
  = Ret ub' w1 ->
  readline fuel pb 1024 1 (set_output (output w1 ++ password_prompt) w1)
  = Exited s w2 ->
  session_body fuel ipaddr (ub, pb) w = Exited s w2.
Proof.
  intros H1 H2. unfold session_body, bind, fput_output, modify.
  by rewrite H1, H2.
Qed.



End SessionTurn.

(** ** The fields that the stream holds *)

Section ReadlineField.
Context `{CI : c_impl}.

Lemma read_field_shorter cap password s : forall line after_nul f rest,
  read_field cap password line after_nul s = Some (f, rest) ->
  (length rest < length s)%nat.
Proof.
  induction s as [|b r IH]; intros line a f rest; cbn [read_field]; [done|].
  cbn zeta. intros H.
  destruct ((uchar b =? 0) && negb a).
  { apply IH in H. cbn. lia. }
  destruct ((uchar b =? 10) || (uchar b =? 13)).
  { injection H as _ <-. cbn. lia. }
  destruct (uchar b =? 255); [done|].
  destruct (length _ <? cap)%nat.
  - apply IH in H. cbn. lia.
  - injection H as _ <-. cbn. lia.
Qed.

(** The editor on a byte that is neither a line end nor 0xff. *)
Lemma readline_key_line size password v c w :
  0 <= rl_i v < size - 1 -> Z.of_nat (length (buffer v)) = size ->
  0 <= c < 255 -> c <> 10 -> c <> 13 ->
  exists v1 w1,
    readline_key password v c w = Ret (Continue v1) w1
    /\ input w1 = input w
    /\ take (Z.to_nat (rl_i v1 + 1)) (buffer v1)
       = line_after password (take (Z.to_nat (rl_i v)) (buffer v)) c
    /\ -1 <= rl_i v1 <= rl_i v
    /\ length (buffer v1) = length (buffer v).
Proof.
  intros Hi Hl Hc H10 H13.
  assert (Hlen : length (take (Z.to_nat (rl_i v)) (buffer v))
                 = Z.to_nat (rl_i v)) by (rewrite length_take; lia).
  unfold line_after. rewrite Hlen.
  destruct (Z.eqb_spec c 8) as [H8|H8]; cbn [orb];
    [|destruct (Z.eqb_spec c 127) as [H127|H127]; cbn [orb]].
  1,2: rewrite readline_key_erase by tauto;
    destruct (Z.eqb_spec (rl_i v) 0) as [H0|H0];
    [rewrite H0; cbn; eexists _, _; split; [reflexivity|];
     split; [done|]; cbn; split; [by destruct (negb (password =? 0))|];
     split; [lia|done]
    |destruct (negb (password =? 0));
     eexists _, _; (split; [reflexivity|]); cbn;
     (split; [by destruct w|]);
     [split; [done|]; split; [lia|done]
     |split; [rewrite take_take; f_equal; lia|split; [lia|done]]]].
  rewrite readline_key_char by lia.
  rewrite arr_set_Some by lia.
  eexists _, _. split; [reflexivity|]. cbn.
  split; [by destruct w|].
  split; [|split; [lia|apply length_insert]].
  replace (Z.to_nat (rl_i v + 1)) with (S (Z.to_nat (rl_i v))) by lia.
  erewrite take_S_r by (apply list_lookup_insert_eq; lia).
  by rewrite take_insert_ge by lia.
Qed.

(** The loop of [readline] on any stream. *)
Lemma readline_loop_field size password :
  2 <= size <= SIZE_MAX ->
  forall fuel v w s,
    0 <= rl_i v < size - 1 -> Z.of_nat (length (buffer v)) = size ->
    input w = {| pending := s; eof_flag := false |} ->
    (length s < fuel)%nat ->
    match read_field (Z.to_nat (size - 1)) password
            (take (Z.to_nat (rl_i v)) (buffer v)) false s with
    | Some (line, rest) =>
        exists v' w',
          readline_loop fuel size password v w = Ret v' w'
          /\ take (Z.to_nat (rl_i v')) (buffer v') = line
          /\ 0 <= rl_i v' <= size - 1
          /\ length (buffer v') = length (buffer v)
          /\ input w' = {| pending := rest; eof_flag := false |}
    | None =>
        exists w', readline_loop fuel size password v w
                   = Exited EXIT_SUCCESS w'
    end.
Proof.
  intros Hsize.
  induction fuel as [|fuel IH]; intros v w s Hi Hl Hin Hfuel; [lia|].
  set (cap := Z.to_nat (size - 1)).
  set (line := take (Z.to_nat (rl_i v)) (buffer v)).
  (* the turn from the byte [c] on, with [r] left in the stream *)
  assert (Hkey : forall c r w0,
    0 <= c < 256 -> input w0 = {| pending := r; eof_flag := false |} ->
    (length r < fuel)%nat ->
    match (if (c =? 10) || (c =? 13) then Some (line, r)
           else if c =? 255 then None
           else if (length (line_after password line c) <? cap)%nat
                then read_field cap password (line_after password line c)
                       false r
                else Some (line_after password line c, r)) with
    | Some (line', rest) =>
        exists v' w',
          (let* x := readline_key password v c in
           match x with
           | Break v' => ret v'
           | Continue v' => readline_loop fuel size password (rl_incr v')
           end) w0 = Ret v' w'
          /\ take (Z.to_nat (rl_i v')) (buffer v') = line'
          /\ 0 <= rl_i v' <= size - 1
          /\ length (buffer v') = length (buffer v)
          /\ input w' = {| pending := rest; eof_flag := false |}
    | None =>
        exists w',
          (let* x := readline_key password v c in
           match x with
           | Break v' => ret v'
           | Continue v' => readline_loop fuel size password (rl_incr v')
           end) w0 = Exited EXIT_SUCCESS w'
    end).
  { intros c r w0 Hc Hin0 Hr. unfold bind.
    destruct (Z.eqb_spec c 10) as [H10|H10]; cbn [orb];
      [|destruct (Z.eqb_spec c 13) as [H13|H13]; cbn [orb]].
    1,2: rewrite readline_key_end by tauto; cbn [ret];
      eexists _, _; split; [reflexivity|]; split; [done|];
      split; [lia|]; split; [done|]; by destruct w0.
    destruct (Z.eqb_spec c 255) as [H255|H255].
    { subst c. rewrite readline_key_stop. by eexists. }
    destruct (readline_key_line size password v c w0)
      as (v1 & w1 & Hk & Hi1 & Hline & Hr1 & Hl1); [lia..|].
    rewrite Hk. fold line in Hline.
    assert (Hlen1 : length (line_after password line c)
                    = Z.to_nat (rl_i v1 + 1)).
    { rewrite <- Hline, length_take. lia. }
    rewrite Hlen1.
    destruct (Nat.ltb_spec (Z.to_nat (rl_i v1 + 1)) cap) as [Hlt|Hge].
    - assert (Hi2 : 0 <= rl_i v1 + 1 < size - 1) by (unfold cap in Hlt; lia).
      assert (Hl2 : Z.of_nat (length (buffer v1)) = size) by lia.
      assert (Hin2 : input w1 = {| pending := r; eof_flag := false |})
        by congruence.
      pose proof (IH (rl_incr v1) w1 r Hi2 Hl2 Hin2 Hr) as IH1.
      cbn [rl_incr rl_i buffer] in IH1. rewrite Hline in IH1.
      fold cap in IH1.
      destruct (read_field cap password (line_after password line c)
                  false r) as [[l' rest']|]; [|done].
      destruct IH1 as (v' & w' & ? & ? & ? & ? & ?).
      exists v', w'. repeat split; try done; try lia; congruence.
    - (* the array is full: the loop ends without a read *)
      exists (rl_incr v1), w1.
      assert (Ht : readline_test size (rl_incr v1) = false).
      { rewrite readline_test_spec by (cbn; lia). cbn. lia. }
      split; [destruct fuel; cbn [readline_loop]; by rewrite Ht|].
      cbn [rl_incr rl_i buffer]. split; [done|].
      split; [lia|]. split; [done|]. congruence. }
  cbn [readline_loop]. rewrite readline_test_spec by lia.
  destruct (Z.ltb_spec (rl_i v) (size - 1)); [|lia].
  destruct s as [|b r].
  { cbn [read_field]. unfold bind.
    rewrite readline_body_end by (by rewrite Hin). by eexists. }
  cbn [read_field]. cbn zeta. fold cap line. cbn [negb]. rewrite andb_true_r.
  destruct (Z.eqb_spec (uchar b) 0) as [Hz|Hz].
  - assert (Hb : readline_body password v w
                 = match r with
                   | [] => readline_key password v 255
                             (set_input {| pending := []; eof_flag := true |} w)
                   | b' :: r' =>
                       readline_key password v (uchar b')
                         (set_input {| pending := r'; eof_flag := false |} w)
                   end).
    { destruct w; cbn in Hin; subst.
      unfold readline_body, bind, feof_input, gets, getc_input. cbn.
      rewrite Hz. cbn. destruct r; reflexivity. }
    unfold bind. rewrite Hb.
    destruct r as [|b' r'].
    + cbn [read_field]. rewrite readline_key_stop. by eexists.
    + cbn [read_field]. cbn zeta. cbn [negb]. rewrite andb_false_r.
      assert (Hin0 : input (set_input {| pending := r'; eof_flag := false |} w)
                     = {| pending := r'; eof_flag := false |}) by (by destruct w).
      assert (Hr0 : (length r' < fuel)%nat) by (cbn in Hfuel; lia).
      pose proof (Hkey (uchar b') r' _ (uchar_range _) Hin0 Hr0) as Hk.
      unfold bind in Hk. exact Hk.
  - unfold bind.
    rewrite (readline_body_byte password v w b r Hin Hz).
    assert (Hin0 : input (set_input {| pending := r; eof_flag := false |} w)
                   = {| pending := r; eof_flag := false |}) by (by destruct w).
    assert (Hr0 : (length r < fuel)%nat) by (cbn in Hfuel; lia).
    pose proof (Hkey (uchar b) r _ (uchar_range _) Hin0 Hr0) as Hk.
    unfold bind in Hk. exact Hk.
Qed.
End ReadlineField.

Section SessionCredentials.
Context `{CI : c_impl}.

(** [readline] on any stream. *)
Lemma readline_field fuel buf size password w s :
  2 <= size <= SIZE_MAX ->
  Z.of_nat (length buf) = size ->
  input w = {| pending := s; eof_flag := false |} ->
  (length s < fuel)%nat ->
  match read_field (Z.to_nat (size - 1)) password [] false s with
  | Some (line, rest) =>
      exists b w',
        readline fuel buf size password w = Ret b w'
        /\ cstring b = Some (until_nul line)
        /\ length b = length buf
        /\ input w' = {| pending := rest; eof_flag := false |}
        /\ talked w w'
  | None =>
      exists w', readline fuel buf size password w = Exited EXIT_SUCCESS w'
                 /\ talked w w'
  end.
Proof.
  intros Hsize Hlen Hin Hfuel.
  assert (Hsize1 : 1 <= size <= SIZE_MAX) by lia.
  assert (Hfuel1 : (length (pending (input w)) < fuel)%nat)
    by (by rewrite Hin).
  pose proof (readline_ok fuel buf size password w Hsize1 Hlen Hfuel1) as Hok.
  set (w0 := set_output (output w ++ ESC :: bytes "[?25h") w).
  assert (Hin0 : input w0 = {| pending := s; eof_flag := false |})
    by (by destruct w).
  assert (Hi0 : 0 <= rl_i {| buffer := buf; rl_i := 0 |} < size - 1)
    by (cbn; lia).
  pose proof (readline_loop_field size password Hsize fuel
                {| buffer := buf; rl_i := 0 |} w0 s Hi0 Hlen Hin0 Hfuel)
    as Hf.
  cbn [rl_i buffer] in Hf. change (take (Z.to_nat 0) buf) with (@nil Z) in Hf.
  destruct (read_field (Z.to_nat (size - 1)) password [] false s)
    as [[line rest]|].
  - destruct Hf as (v' & w' & Hrun & Hline & Hi & Hl & Hin').
    assert (Hr : readline fuel buf size password w
                 = Ret (<[Z.to_nat (rl_i v') := 0]> (buffer v'))
                       (set_output (output w' ++ ESC :: bytes "[?25l") w')).
    { unfold readline, bind, fput_output, modify. fold w0. rewrite Hrun.
      rewrite arr_set_Some by lia. reflexivity. }
    rewrite Hr in Hok. destruct Hok as (Hlb & _ & Ht & _).
    eexists _, _. split; [exact Hr|].
    split; [|split; [done|split; [by destruct w'|done]]].
    rewrite insert_take_drop by lia. rewrite Hline.
    unfold cstring. by rewrite has_nul_app_nul, until_nul_app_nul_any.
  - destruct Hf as (w' & Hrun).
    assert (Hr : readline fuel buf size password w = Exited EXIT_SUCCESS w').
    { unfold readline, bind, fput_output, modify. fold w0. by rewrite Hrun. }
    rewrite Hr in Hok. destruct Hok as (_ & Ht). by exists w'.
Qed.

(** [readline] once the end of the stream was met. *)
Lemma readline_at_eof fuel buf size password w :
  2 <= size <= SIZE_MAX -> eof_flag (input w) = true -> (0 < fuel)%nat ->
  readline fuel buf size password w
  = Exited EXIT_SUCCESS (set_output (output w ++ ESC :: bytes "[?25h") w).
Proof.
  intros Hsize He Hfuel. destruct fuel as [|fuel]; [lia|].
  unfold readline, bind, fput_output, modify. cbn [readline_loop].
  rewrite readline_test_spec by (cbn; lia). cbn [rl_i].
  destruct (Z.ltb_spec 0 (size - 1)); [|lia].
  unfold bind, readline_body, bind, feof_input, gets.
  cbn [input set_output]. by rewrite He.
Qed.

(** A turn of the session loop on any stream. *)
Lemma session_body_credentials fuel ipaddr ip ub pb w s :
  length ub = 1024%nat -> length pb = 1024%nat ->
  cstring ipaddr = Some ip ->
  input w = {| pending := s; eof_flag := false |} ->
  (length s < fuel)%nat ->
  match read_field 1023 0 [] false s with
  | None =>
      exists w', session_body fuel ipaddr (ub, pb) w = Exited EXIT_SUCCESS w'
                 /\ talked w w'
  | Some (u, s1) =>
      match read_field 1023 1 [] false s1 with
      | None =>
          exists w',
            session_body fuel ipaddr (ub, pb) w = Exited EXIT_SUCCESS w'
            /\ talked w w'
      | Some (p, s2) =>
          exists ub' pb' w2,
            session_body fuel ipaddr (ub, pb) w
            = Ret (ub', pb') (turned_away ip (until_nul u) (until_nul p) w2)
            /\ length ub' = 1024%nat /\ length pb' = 1024%nat
            /\ input w2 = {| pending := s2; eof_flag := false |}
            /\ talked w w2
      end
  end.
Proof.
  intros Hub Hpb Hip Hin Hfuel.
  pose proof size_1024 as Hsz.
  assert (Hzu : Z.of_nat (length ub) = 1024) by lia.
  assert (Hzp : Z.of_nat (length pb) = 1024) by lia.
  set (w0 := set_output (output w ++ username_prompt) w).
  assert (Hin0 : input w0 = {| pending := s; eof_flag := false |})
    by (by destruct w).
  pose proof (readline_field fuel ub 1024 0 w0 s Hsz Hzu Hin0 Hfuel) as H1.
  change (Z.to_nat (1024 - 1)) with 1023%nat in H1.
  pose proof (read_field_shorter 1023 0 s [] false) as Hs1.
  destruct (read_field 1023 0 [] false s) as [[u s1]|].
  - destruct H1 as (ub' & w1 & E1 & Hu & Hlu & Hin1 & Ht1).
    specialize (Hs1 u s1 eq_refl).
    set (w1' := set_output (output w1 ++ password_prompt) w1).
    assert (Hin1' : input w1' = {| pending := s1; eof_flag := false |})
      by (by destruct w1).
    assert (Hfuel1 : (length s1 < fuel)%nat) by lia.
    pose proof (readline_field fuel pb 1024 1 w1' s1 Hsz Hzp Hin1' Hfuel1)
      as H2.
    change (Z.to_nat (1024 - 1)) with 1023%nat in H2.
    assert (Ht01 : talked w w1').
    { eapply talked_trans; [apply talked_sent|].
      eapply talked_trans; [exact Ht1|apply talked_sent]. }
    destruct (read_field 1023 1 [] false s1) as [[p s2]|].
    + destruct H2 as (pb' & w2 & E2 & Hp & Hlp & Hin2 & Ht2).
      exists ub', pb', w2.
      split; [by apply (session_body_fields _ _ _ _ _ _ _ _ _ _ _ _ E1 E2)|].
      split; [lia|]. split; [lia|]. split; [done|].
      by eapply talked_trans.
    + destruct H2 as (w2 & E2 & Ht2). exists w2.
      split; [by apply (session_body_exit_2 _ _ _ _ _ _ _ _ _ E1 E2)|].
      by eapply talked_trans.
  - destruct H1 as (w1 & E1 & Ht1). exists w1.
    split; [by apply (session_body_exit_1 _ _ _ _ _ _ _ E1)|].
    eapply talked_trans; [apply talked_sent|done].
Qed.

Lemma credentials_nil n : credentials n [] = [].
Proof. by destruct n. Qed.

(** The session loop on any stream: it ends the process when the stream
    ends, or holds 0xff, inside a field, and has logged by then the
    credentials that the stream holds, each on a line. *)
Lemma session_loop_credentials fuel ipaddr ip :
  cstring ipaddr = Some ip ->
  forall n m ub pb w s,
    length ub = 1024%nat -> length pb = 1024%nat ->
    input w = {| pending := s; eof_flag := false |} ->
    (length s < fuel)%nat -> (length s <= n)%nat -> (length s <= m)%nat ->
    exists w',
      session_loop fuel (S n) ipaddr (ub, pb) w = Exited EXIT_SUCCESS w'
      /\ logfile w' = logfile w ++ logged ip (credentials m s)
      /\ stdin w' = stdin w /\ stderr w' = stderr w
      /\ alarm_timer w' = alarm_timer w
      /\ pending (input w') `suffix_of` s.
Proof.
  intros Hip.
  induction n as [|n IH]; intros m ub pb w s Hub Hpb Hin Hfuel Hn Hm.
  - destruct s; [|cbn in Hn; lia].
    pose proof (session_body_credentials fuel ipaddr ip ub pb w []
                  Hub Hpb Hip Hin Hfuel) as Hb.
    cbn [read_field] in Hb. destruct Hb as (w' & Hrun & Ht).
    exists w'. cbn [session_loop]. unfold bind. rewrite Hrun.
    rewrite credentials_nil. cbn [logged flat_map]. rewrite app_nil_r.
    destruct Ht as [Hsuf _ ? ? _ ? ? _ _ _ _].
    rewrite Hin in Hsuf. done.
  - pose proof (session_body_credentials fuel ipaddr ip ub pb w s
                  Hub Hpb Hip Hin Hfuel) as Hb.
    pose proof (read_field_shorter 1023 0 s [] false) as Hs1.
    assert (Hcred : credentials m s
                    = match read_field 1023 0 [] false s with
                      | None => []
                      | Some (u, s1) =>
                          match read_field 1023 1 [] false s1 with
                          | None => []
                          | Some (p, s2) =>
                              (until_nul u, until_nul p)
                              :: credentials (m - 1) s2
                          end
                      end).
    { destruct m as [|m].
      - destruct s; [done|cbn in Hm; lia].
      - cbn [credentials]. by rewrite Nat.sub_succ, Nat.sub_0_r. }
    rewrite Hcred.
    cbn [session_loop]. unfold bind at 1.
    destruct (read_field 1023 0 [] false s) as [[u s1]|].
    + specialize (Hs1 u s1 eq_refl).
      pose proof (read_field_shorter 1023 1 s1 [] false) as Hs2.
      destruct (read_field 1023 1 [] false s1) as [[p s2]|].
      * specialize (Hs2 p s2 eq_refl).
        destruct Hb as (ub' & pb' & w2 & Hrun & Hlu & Hlp & Hin2 & Ht).
        rewrite Hrun.
        destruct (IH (m - 1)%nat ub' pb'
                    (turned_away ip (until_nul u) (until_nul p) w2) s2)
          as (w' & Hloop & Hlog & Hsi & Hse & Ha & Hsuf);
          [done|done|by destruct w2|lia..|].
        exists w'. split; [exact Hloop|].
        destruct Ht as [Hsuf2 _ Hsi2 Hlf2 _ Hse2 Ha2 _ _ _ _].
        rewrite Hlog. cbn [logfile turned_away set_output set_stdout
                           set_logfile stdin stderr alarm_timer] in *.
        rewrite Hlf2. cbn [logged flat_map fst snd].
        split; [by rewrite <- app_assoc|].
        split; [congruence|]. split; [congruence|]. split; [congruence|].
        etrans; [exact Hsuf|]. rewrite Hin2, Hin in Hsuf2. exact Hsuf2.
      * destruct Hb as (w' & Hrun & Ht). rewrite Hrun. exists w'.
        cbn [logged flat_map]. rewrite app_nil_r.
        destruct Ht as [Hsuf _ ? ? _ ? ? _ _ _ _].
        rewrite Hin in Hsuf. done.
    + destruct Hb as (w' & Hrun & Ht). rewrite Hrun. exists w'.
      cbn [logged flat_map]. rewrite app_nil_r.
      destruct Ht as [Hsuf _ ? ? _ ? ? _ _ _ _].
      rewrite Hin in Hsuf. done.
Qed.
End SessionCredentials.

Section Worker.
Context `{TH : telnet_h} `{CI : c_impl}.

Lemma negotiate_telnet_returns fuel w :
  telnet_h_ok -> IAC = 255 -> tables_ok w ->
  (length (pending (input w)) < fuel)%nat ->
  exists v w', negotiate_telnet fuel w = Ret v w'
               /\ negotiated w w' /\ vars_ok v /\ tables_ok w'.
Proof.
  intros Hok HI Hw Hfuel.
  destruct (wp_elim _ _ _ (wp_set_options w Hok Hw))
    as ([] & w0 & Hset & Hw0 & [Hi Hs _]).
  assert (Hrun : (set_options >> alarm 1) w = Ret tt (set_alarm_timer 1 w0)).
  { unfold bind. by rewrite Hset. }
  pose proof (keeps_negotiate_telnet fuel w) as Hk.
  rewrite (negotiate_telnet_eq fuel w _ Hrun) in *.
  destruct (wp_elim _ _ _
              (negotiate_loop_returns fuel neg_init (set_alarm_timer 1 w0)
                 Hok HI vars_ok_init
                 (tables_ok_set_alarm_timer _ _ Hw0)
                 ltac:(cbn; by rewrite Hi)))
    as (v & w' & Hloop & Hv & Hw' & _).
  rewrite Hloop in *. by exists v, w'.
Qed.

(** X9. The negotiation talks to the peer and to nobody else: on every
    stream [negotiate_telnet] returns, and by then it has only read from
    the connection and added to what was sent to it; the log, standard
    output, standard error and standard input are as they were. *)
Theorem negotiation_only_talks_to_the_peer fuel w :
  telnet_h_ok -> IAC = 255 -> tables_ok w ->
  (length (pending (input w)) < fuel)%nat ->
  exists v w',
    negotiate_telnet fuel w = Ret v w'
    /\ pending (input w') `suffix_of` pending (input w)
    /\ output w `prefix_of` output w'
    /\ stdin w' = stdin w /\ logfile w' = logfile w
    /\ stdout w' = stdout w /\ stderr w' = stderr w.
Proof.
  intros Hok HI Hw Hfuel.
  destruct (negotiate_telnet_returns fuel w Hok HI Hw Hfuel)
    as (v & w' & Hrun & [] & _).
  by exists v, w'.
Qed.

(** X8. A worker whose negotiation has resolved a capability, so that
    no alarm is pending, and that no other signal interrupts, ends with
    the stream: [handle_connection] never returns (the two [fclose] after
    its loop are never reached) and never leaves an array; it ends the
    process with the success status.  What it has added to the log by
    then is fixed by the bytes that the negotiation left unread: one line
    for each pair of fields that [credentials] reads from them, in their
    order, and nothing else.  It has written nothing to standard
    error. *)
Theorem worker_ends_with_the_stream fuel ipaddr ip ub pb w v w1 :
  cstring ipaddr = Some ip ->
  length ub = 1024%nat -> length pb = 1024%nat ->
  (length (pending (input w)) < fuel)%nat ->
  negotiate_telnet fuel w = Ret v w1 ->
  alarm_timer w1 = 0 ->
  exists w',
    handle_connection fuel ipaddr ub pb w = Exited EXIT_SUCCESS w'
    /\ logfile w' = logfile w ++ logged ip (credentials_in (input w1))
    /\ stderr w' = stderr w
    /\ stdin w' = stdin w
    /\ alarm_timer w' = 0
    /\ pending (input w') `suffix_of` pending (input w1).
Proof.
  intros Hip Hub Hpb Hfuel Hneg Ha.
  pose proof (keeps_negotiate_telnet fuel w) as Hk. rewrite Hneg in Hk.
  destruct Hk as [Hsuf _ Hsi Hlf _ Hse].
  apply suffix_length in Hsuf.
  unfold handle_connection, bind. rewrite Hneg, greeting_eq.
  set (w2 := set_output (output w1 ++ greeting_bytes) w1).
  destruct fuel as [|n]; [lia|].
  unfold credentials_in.
  destruct (input w1) as [s e] eqn:Hin1. cbn [eof_flag pending] in *.
  destruct e.
  - assert (He : eof_flag (input (set_output (output w2 ++ username_prompt) w2))
                 = true).
    { unfold w2. cbn [input set_output]. by rewrite Hin1. }
    pose proof (readline_at_eof (S n) ub 1024 0 _ size_1024 He
                  ltac:(apply Nat.lt_0_succ)) as Hr.
    pose proof (session_body_exit_1 (S n) ipaddr ub pb w2 _ _ Hr) as Hb.
    eexists. cbn [session_loop]. unfold bind. rewrite Hb.
    split; [reflexivity|]. unfold w2.
    cbn [logfile stderr stdin alarm_timer input set_output logged flat_map].
    rewrite app_nil_r, Hin1. cbn [pending]. done.
  - destruct (session_loop_credentials (S n) ipaddr ip Hip n (length s)
                ub pb w2 s Hub Hpb)
      as (w' & Hrun & Hlog & Hsi' & Hse' & Ha' & Hsuf'); [by destruct w1|lia..|].
    exists w'. split; [exact Hrun|].
    unfold w2 in *. cbn [logfile stderr stdin alarm_timer set_output] in *.
    rewrite Hlog. split; [congruence|]. split; [congruence|].
    split; [congruence|]. split; [congruence|done].
Qed.
End Worker.

Section Lines.
Context `{CI : c_impl}.






End Lines.

(** ** More turns of the negotiation *)

Section NegotiationMore.
Context `{TH : telnet_h} `{CI : c_impl}.

Lemma with_pending_twice a b w :
  with_pending a (with_pending b w) = with_pending a w.
Proof. by destruct w. Qed.

(** X10. What the peer sends ahead of its answers is lost: bytes other
    than IAC that the negotiation meets outside of a sub-negotiation are
    read, one turn each, and dropped; they change no variable, draw no
    reply, and are not kept for the prompts that follow. *)
Theorem data_outside_subnegotiation_is_dropped d n v w rest :
  vars_ok v -> eof_flag (stdin w) = false -> done v < 2 -> sb_mode v = 0 ->
  Forall (fun b => uchar b <> IAC) d ->
  pending (input w) = d ++ rest ->
  negotiate_loop (length d + n) v w = negotiate_loop n v (with_pending rest w).
Proof.
  intros Hv Hs Hd Hm Hd'. revert w Hs.
  induction Hd' as [|b d Hb _ IH]; intros w Hs Hin.
  - cbn. by rewrite with_pending_same.
  - cbn [length Nat.add].
    rewrite (negotiate_loop_turn _ v w v (with_pending (d ++ rest) w)).
    + rewrite IH by done. by rewrite with_pending_twice.
    + rewrite Hs. cbn. by apply Z.ltb_lt.
    + rewrite (negotiate_body_data v w b (d ++ rest) Hv Hin Hb).
      by rewrite Hm.
Qed.

Section Turns.
Hypothesis Hok : telnet_h_ok.

Lemma neg_switch_WILL_WONT i v :
  i = WILL \/ i = WONT -> neg_switch i v = neg_case_WILL_WONT i v.
Proof.
  intros Hi. pose proof Hok as [_ H]. nodup_facts H. unfold neg_switch.
  destruct Hi; subst i; rewrite ?Z.eqb_refl;
    case_eqb; cbn [orb]; solve [reflexivity | intuition congruence].
Qed.

Lemma neg_switch_DO_DONT i v :
  i = DO \/ i = DONT -> neg_switch i v = neg_case_DO_DONT i v.
Proof.
  intros Hi. pose proof Hok as [_ H]. nodup_facts H. unfold neg_switch.
  destruct Hi; subst i; rewrite ?Z.eqb_refl;
    case_eqb; cbn [orb]; solve [reflexivity | intuition congruence].
Qed.

(** The turn of the loop on IAC WILL [o] or IAC WONT [o], for the stance
    [c] that [telnet_willack] holds for [o]. *)
Lemma negotiate_body_WILL_WONT v w i o rest c :
  tables_ok w ->
  i = WILL \/ i = WONT ->
  pending (input w) = IAC :: i :: o :: rest ->
  arr_get (telnet_willack w) (uchar o) = Some c ->
  negotiate_body v w
  = match send_command (if c =? 0 then WONT else c) (uchar o)
            (if c =? 0
             then set_telnet_willack
                    (<[Z.to_nat (uchar o) := WONT]> (telnet_willack w))
                    (with_pending rest w)
             else with_pending rest w) with
    | Ret _ w' =>
        Ret v (set_output (output w' ++ ttype_request i (uchar o)) w')
    | Exited s w' => Exited s w'
    | Fault => Fault
    | OutOfFuel => OutOfFuel
    end.
Proof.
  intros Hw Hi Hin Hc.
  destruct (verbs_are_bytes Hok) as (HI & _ & _ & HWO & HWI).
  assert (Hib : 0 <= i < 256) by (destruct Hi; subst; lia).
  pose proof (uchar_range o) as Ho.
  rewrite (negotiate_body_command v w IAC i _ Hin) by (by apply uchar_byte).
  rewrite (uchar_byte i), neg_switch_WILL_WONT by done.
  unfold neg_case_WILL_WONT.
  unfold bind at 1.
  rewrite (getc_input_cons (with_pending (o :: rest) w) o rest eq_refl).
  rewrite with_pending_twice. set (w1 := with_pending rest w).
  unfold bind at 1, gets. unfold bind at 1.
  change (telnet_willack w1) with (telnet_willack w). rewrite Hc.
  cbn [lift ret].
  assert (Htail : forall c' w2,
             arr_get (telnet_willack w2) (uchar o) = Some c' ->
             (let* t := gets telnet_willack in
              let* cur := lift (arr_get t (uchar o)) in
              send_command cur (uchar o) >>
              (if (i =? WILL) && (uchar o =? TTYPE)
               then fput_output [uchar IAC; uchar SB; uchar TTYPE; uchar SEND;
                                 uchar IAC; uchar SE]
               else ret tt) >>
              ret v) w2
             = match send_command c' (uchar o) w2 with
               | Ret _ w' =>
                   Ret v (set_output (output w' ++ ttype_request i (uchar o))
                            w')
               | Exited s w' => Exited s w'
               | Fault => Fault
               | OutOfFuel => OutOfFuel
               end).
  { intros c' w2 Hc'. unfold bind at 1, gets. unfold bind at 1.
    rewrite Hc'. cbn [lift ret]. unfold bind at 1.
    destruct (send_command c' (uchar o) w2) as [[] w3|s w3| |]; try done.
    unfold bind, ttype_request.
    destruct ((i =? WILL) && (uchar o =? TTYPE)); [reflexivity|].
    cbn [ret]. f_equal. destruct w3. cbn. by rewrite app_nil_r. }
  destruct (Z.eqb_spec c 0) as [->|Hc0].
  - unfold bind at 1. unfold store_telnet_willack.
    unfold bind at 1, gets. unfold bind at 1.
    change (telnet_willack w1) with (telnet_willack w).
    rewrite arr_set_Some by (destruct Hw; lia).
    cbn [lift ret]. unfold bind at 1, modify.
    rewrite (uchar_byte WONT) by done.
    apply Htail. cbn. unfold arr_get.
    destruct (Z.leb_spec 0 (uchar o)); [|lia].
    apply list_lookup_insert_eq. destruct Hw. lia.
  - unfold bind at 1. cbn [ret]. by apply Htail.
Qed.

(** The turn of the loop on IAC DO [o] or IAC DONT [o], for the stance
    [c] that [telnet_options] holds for [o]. *)
Lemma negotiate_body_DO_DONT v w i o rest c :
  tables_ok w ->
  i = DO \/ i = DONT ->
  pending (input w) = IAC :: i :: o :: rest ->
  arr_get (telnet_options w) (uchar o) = Some c ->
  negotiate_body v w
  = match send_command (if c =? 0 then DONT else c) (uchar o)
            (if c =? 0
             then set_telnet_options
                    (<[Z.to_nat (uchar o) := DONT]> (telnet_options w))
                    (with_pending rest w)
             else with_pending rest w) with
    | Ret _ w' =>
        Ret (if uchar o =? ECHO
             then set_do_echo (if i =? DO then 1 else 0) v else v) w'
    | Exited s w' => Exited s w'
    | Fault => Fault
    | OutOfFuel => OutOfFuel
    end.
Proof.
  intros Hw Hi Hin Hc.
  destruct (verbs_are_bytes Hok) as (HI & HDONT & HDO & _ & _).
  assert (Hib : 0 <= i < 256) by (destruct Hi; subst; lia).
  pose proof (uchar_range o) as Ho.
  rewrite (negotiate_body_command v w IAC i _ Hin) by (by apply uchar_byte).
  rewrite (uchar_byte i), neg_switch_DO_DONT by done.
  unfold neg_case_DO_DONT.
  unfold bind at 1.
  rewrite (getc_input_cons (with_pending (o :: rest) w) o rest eq_refl).
  rewrite with_pending_twice. set (w1 := with_pending rest w).
  unfold bind at 1, gets. unfold bind at 1.
  change (telnet_options w1) with (telnet_options w). rewrite Hc.
  cbn [lift ret].
  assert (Htail : forall c' w2,
             arr_get (telnet_options w2) (uchar o) = Some c' ->
             (let* t := gets telnet_options in
              let* cur := lift (arr_get t (uchar o)) in
              send_command cur (uchar o) >>
              ret (if uchar o =? ECHO
                   then set_do_echo (if i =? DO then 1 else 0) v else v)) w2
             = match send_command c' (uchar o) w2 with
               | Ret _ w' =>
                   Ret (if uchar o =? ECHO
                        then set_do_echo (if i =? DO then 1 else 0) v else v)
                       w'
               | Exited s w' => Exited s w'
               | Fault => Fault
               | OutOfFuel => OutOfFuel
               end).
  { intros c' w2 Hc'. unfold bind at 1, gets. unfold bind at 1.
    rewrite Hc'. cbn [lift ret]. unfold bind at 1.
    by destruct (send_command c' (uchar o) w2) as [[] w3|s w3| |]. }
  destruct (Z.eqb_spec c 0) as [->|Hc0].
  - unfold bind at 1. unfold store_telnet_options.
    unfold bind at 1, gets. unfold bind at 1.
    change (telnet_options w1) with (telnet_options w).
    rewrite arr_set_Some by (destruct Hw; lia).
    cbn [lift ret]. unfold bind at 1, modify.
    rewrite (uchar_byte DONT) by done.
    apply Htail. cbn. unfold arr_get.
    destruct (Z.leb_spec 0 (uchar o)); [|lia].
    apply list_lookup_insert_eq. destruct Hw. lia.
  - unfold bind at 1. cbn [ret]. by apply Htail.
Qed.

Lemma arr_get_insert (t : list Z) o x :
  0 <= o < Z.of_nat (length t) -> arr_get (<[Z.to_nat o := x]> t) o = Some x.
Proof.
  intros Ho. unfold arr_get. destruct (Z.leb_spec 0 o); [|lia].
  apply list_lookup_insert_eq. lia.
Qed.

(** X11. An option on which the server has no stance is refused, once:
    a WILL or WONT for it is answered IAC WONT and the option, a DO or
    DONT is answered IAC DONT and the option (whatever the peer's verb
    was), unless that refusal is the agreed value already; the refusal
    becomes the stance and the agreed value.  After WILL TTYPE the
    request for the terminal type follows the reply. *)
Theorem option_without_stance_is_refused v w i o rest :
  tables_ok w ->
  pending (input w) = IAC :: i :: o :: rest ->
  (i = WILL \/ i = WONT ->
   arr_get (telnet_willack w) (uchar o) = Some 0 ->
   arr_get (telnet_will_set w) (uchar o) <> Some WONT ->
   exists w',
     negotiate_body v w = Ret v w'
     /\ output w' = output w ++ [IAC; WONT; uchar o]
                    ++ ttype_request i (uchar o)
     /\ arr_get (telnet_willack w') (uchar o) = Some WONT
     /\ arr_get (telnet_will_set w') (uchar o) = Some WONT
     /\ pending (input w') = rest)
  /\ (i = DO \/ i = DONT ->
      arr_get (telnet_options w) (uchar o) = Some 0 ->
      arr_get (telnet_do_set w) (uchar o) <> Some DONT ->
      exists w',
        negotiate_body v w
        = Ret (if uchar o =? ECHO
               then set_do_echo (if i =? DO then 1 else 0) v else v) w'
        /\ output w' = output w ++ [IAC; DONT; uchar o]
        /\ arr_get (telnet_options w') (uchar o) = Some DONT
        /\ arr_get (telnet_do_set w') (uchar o) = Some DONT
        /\ pending (input w') = rest).
Proof.
  intros Hw Hin. pose proof (uchar_range o) as Ho. pose proof Hw as [].
  split.
  - intros Hi Hc Hset.
    rewrite (negotiate_body_WILL_WONT v w i o rest 0 Hw Hi Hin Hc).
    cbn [Z.eqb].
    destruct (arr_get_Some (telnet_will_set w) (uchar o)) as [cur Hcur];
      [lia|].
    erewrite (send_command_WILL_WONT Hok WONT (uchar o) cur);
      [|by right|done|exact Hcur].
    rewrite decide_False by congruence.
    eexists. split; [reflexivity|]. cbn.
    split; [by rewrite <- app_assoc|].
    split; [apply arr_get_insert; lia|].
    split; [apply arr_get_insert; lia|done].
  - intros Hi Hc Hset.
    rewrite (negotiate_body_DO_DONT v w i o rest 0 Hw Hi Hin Hc).
    cbn [Z.eqb].
    destruct (arr_get_Some (telnet_do_set w) (uchar o)) as [cur Hcur];
      [lia|].
    erewrite (send_command_DO_DONT Hok DONT (uchar o) cur);
      [|by right|done|exact Hcur].
    rewrite decide_False by congruence.
    eexists. split; [reflexivity|]. cbn.
    split; [done|].
    split; [apply arr_get_insert; lia|].
    split; [apply arr_get_insert; lia|done].
Qed.
End Turns.
End NegotiationMore.

Section Alternation.
Context `{TH : telnet_h} `{CI : c_impl}.
Hypothesis Hok : telnet_h_ok.

(** One DO and one WILL for an option that the peer is asked to enable
    ([telnet_willack] holds DO) and on which the server has no stance of
    its own: the first is answered DONT, the second DO, and the tables
    are as before but for the stance DONT. *)
Lemma DO_then_WILL v w o rest :
  DO <> 0 -> DONT <> 0 -> tables_ok w -> 0 <= o < 256 -> o <> ECHO ->
  arr_get (telnet_willack w) o = Some DO ->
  arr_get (telnet_options w) o = Some 0
  \/ arr_get (telnet_options w) o = Some DONT ->
  arr_get (telnet_do_set w) o = Some DO ->
  pending (input w) = IAC :: DO :: o :: IAC :: WILL :: o :: rest ->
  exists w1 w2,
    negotiate_body v w = Ret v w1
    /\ negotiate_body v w1 = Ret v w2
    /\ output w2 = output w ++ [IAC; DONT; o; IAC; DO; o]
                   ++ ttype_request WILL o
    /\ pending (input w2) = rest
    /\ stdin w2 = stdin w
    /\ tables_ok w2
    /\ arr_get (telnet_willack w2) o = Some DO
    /\ arr_get (telnet_options w2) o = Some DONT
    /\ arr_get (telnet_do_set w2) o = Some DO.
Proof.
  intros HDO0 HDONT0 Hw Ho HE Hack Hopt Hset Hin.
  destruct (verbs_differ Hok) as (_ & _ & _ & _ & Hdd & _).
  pose proof Hw as [L1 L2 L3 L4].
  assert (Hu : uchar o = o) by (by apply uchar_byte).
  (* the DO *)
  assert (H1 : exists w1,
             negotiate_body v w = Ret v w1
             /\ output w1 = output w ++ [IAC; DONT; o]
             /\ pending (input w1) = IAC :: WILL :: o :: rest
             /\ stdin w1 = stdin w /\ tables_ok w1
             /\ telnet_willack w1 = telnet_willack w
             /\ arr_get (telnet_options w1) o = Some DONT
             /\ arr_get (telnet_do_set w1) o = Some DONT).
  { destruct Hopt as [Hopt|Hopt].
    - rewrite (negotiate_body_DO_DONT Hok v w DO o _ 0 Hw
                 ltac:(by left) Hin) by (by rewrite Hu).
      cbn [Z.eqb]. rewrite Hu.
      erewrite (send_command_DO_DONT Hok DONT o DO);
        [|by right|done|exact Hset].
      rewrite decide_False by done.
      destruct (Z.eqb_spec o ECHO); [done|].
      eexists. split; [reflexivity|]. cbn.
      split; [done|]. split; [done|]. split; [done|].
      split; [split; cbn; rewrite ?length_insert; done|].
      split; [done|].
      split; apply arr_get_insert; lia.
    - rewrite (negotiate_body_DO_DONT Hok v w DO o _ DONT Hw
                 ltac:(by left) Hin) by (by rewrite Hu).
      destruct (Z.eqb_spec DONT 0); [done|]. rewrite Hu.
      erewrite (send_command_DO_DONT Hok DONT o DO);
        [|by right|done|exact Hset].
      rewrite decide_False by done.
      destruct (Z.eqb_spec o ECHO); [done|].
      eexists. split; [reflexivity|]. cbn.
      split; [done|]. split; [done|]. split; [done|].
      split; [split; cbn; rewrite ?length_insert; done|].
      split; [done|].
      split; [done|apply arr_get_insert; lia]. }
  destruct H1 as (w1 & Hb1 & Ho1 & Hi1 & Hs1 & Hw1 & Ha1 & Hp1 & Hd1).
  exists w1.
  rewrite (negotiate_body_WILL_WONT Hok v w1 WILL o _ DO Hw1
             ltac:(by left) Hi1) by (by rewrite Hu, Ha1).
  destruct (Z.eqb_spec DO 0); [done|]. rewrite Hu.
  erewrite (send_command_DO_DONT Hok DO o DONT);
    [|by left|done|exact Hd1].
  rewrite decide_False by done.
  pose proof Hw1 as [M1 M2 M3 M4].
  eexists. split; [exact Hb1|]. split; [reflexivity|]. cbn.
  split; [rewrite Ho1, <- !app_assoc; reflexivity|].
  split; [done|]. split; [done|].
  split; [split; cbn; rewrite ?length_insert; done|].
  split; [by rewrite Ha1|].
  split; [done|apply arr_get_insert; lia].
Qed.

(** X12. The replies to an option are not bounded when the peer
    alternates its verbs.  For an option that the peer is asked to enable
    and on which the server has no stance of its own (NAWS and TTYPE
    after [set_options]), DO and WILL both go by the agreed value of
    [telnet_do_set]: DO sets it to DONT, WILL sets it back to DO, and each
    of them is answered, as many times as the peer repeats the pair. *)
Theorem alternating_commands_are_answered_every_time k : forall n v w o rest,
  DO <> 0 -> DONT <> 0 -> tables_ok w -> 0 <= o < 256 -> o <> ECHO ->
  eof_flag (stdin w) = false -> done v < 2 ->
  arr_get (telnet_willack w) o = Some DO ->
  arr_get (telnet_options w) o = Some 0
  \/ arr_get (telnet_options w) o = Some DONT ->
  arr_get (telnet_do_set w) o = Some DO ->
  pending (input w)
  = concat (replicate k [IAC; DO; o; IAC; WILL; o]) ++ rest ->
  exists w',
    negotiate_loop (2 * k + n) v w = negotiate_loop n v w'
    /\ output w' = output w
                   ++ concat (replicate k ([IAC; DONT; o; IAC; DO; o]
                                           ++ ttype_request WILL o))
    /\ pending (input w') = rest.
Proof.
  induction k as [|k IH];
    intros n v w o rest HDO0 HDONT0 Hw Ho HE Hs Hd Hack Hopt Hset Hin.
  - exists w. cbn. by rewrite app_nil_r.
  - cbn [replicate concat] in Hin. rewrite <- app_assoc in Hin.
    destruct (DO_then_WILL v w o _ HDO0 HDONT0 Hw Ho HE Hack Hopt Hset Hin)
      as (w1 & w2 & Hb1 & Hb2 & Ho2 & Hi2 & Hs2 & Hw2 & Ha2 & Hp2 & Hd2).
    assert (Hs1 : stdin w1 = stdin w).
    { pose proof (keeps_negotiate_body v w) as Hk. rewrite Hb1 in Hk.
      by destruct Hk. }
    destruct (IH n v w2 o rest HDO0 HDONT0 Hw2 Ho HE) as (w' & Hrun & Ho' & Hi');
      [congruence|done|done|by right|done|done|].
    exists w'. split; [|split; [|done]].
    + replace (2 * S k + n)%nat with (S (S (2 * k + n))) by lia.
      rewrite (negotiate_loop_turn _ v w v w1);
        [|rewrite Hs; cbn; by apply Z.ltb_lt|done].
      rewrite (negotiate_loop_turn _ v w1 v w2);
        [done|rewrite Hs1, Hs; cbn; by apply Z.ltb_lt|done].
    + rewrite Ho', Ho2. cbn [replicate concat]. by rewrite <- !app_assoc.
Qed.
End Alternation.

Section Capture.
Context `{TH : telnet_h} `{CI : c_impl}.

Lemma sb_fold_content q : forall s pre,
  sb s = pre ++ replicate (1024 - length pre) 0 ->
  sb_len s = Z.of_nat (length pre) ->
  (length pre <= 1023)%nat ->
  sb (fold_left sb_append q s)
  = take 1023 (pre ++ map uchar q)
    ++ replicate (1024 - length (take 1023 (pre ++ map uchar q))) 0.
Proof.
  induction q as [|b q IH]; intros s pre Hsb Hlen Hpre.
  - cbn. rewrite app_nil_r, take_ge by lia. done.
  - cbn [fold_left map]. unfold sb_append at 2.
    destruct (Z.ltb_spec (sb_len s) 1023) as [Hlt|Hge].
    + rewrite (IH _ (pre ++ [uchar b])).
      * by rewrite <- app_assoc.
      * cbn. rewrite Hsb, Hlen, Nat2Z.id.
        rewrite insert_app_r_alt by lia.
        rewrite Nat.sub_diag, length_app. cbn [length].
        replace (1024 - length pre)%nat with (S (1024 - (length pre + 1)))
          by lia.
        cbn. by rewrite <- app_assoc.
      * cbn. rewrite length_app. cbn. lia.
      * rewrite length_app. cbn. lia.
    + rewrite (IH s pre Hsb Hlen Hpre).
      rewrite !take_app_le by lia. done.
Qed.

Lemma sb_after_payload v q :
  vars_ok v -> sb (fold_left sb_append q (after_SB v)) = sb_holding q.
Proof.
  intros [Hl _ _ _].
  rewrite (sb_fold_content q (after_SB v) []); [done| |done|cbn; lia].
  cbn. unfold memset0. by rewrite Hl.
Qed.

Lemma length_sb_holding q : length (sb_holding q) = 1024%nat.
Proof.
  unfold sb_holding. rewrite length_app, length_replicate, length_take.
  lia.
Qed.

Lemma drop_2_sb_holding a b q :
  drop 2 (sb_holding (a :: b :: q))
  = take 1021 (map uchar q)
    ++ replicate (1022 - length (take 1021 (map uchar q))) 0.
Proof.
  unfold sb_holding. cbn [map].
  change (take 1023 (uchar a :: uchar b :: map uchar q))
    with (uchar a :: uchar b :: take 1021 (map uchar q)).
  cbn [app drop length]. by rewrite drop_0.
Qed.

Lemma until_nul_drop_2_sb_holding a b q :
  until_nul (drop 2 (sb_holding (a :: b :: q)))
  = until_nul (take 1021 (map uchar q)).
Proof.
  rewrite drop_2_sb_holding.
  assert (H : (length (take 1021 (map uchar q)) <= 1021)%nat)
    by (rewrite length_take; lia).
  replace (1022 - length (take 1021 (map uchar q)))%nat
    with (S (1021 - length (take 1021 (map uchar q)))) by lia.
  cbn [replicate]. apply until_nul_app_nul_any.
Qed.

Lemma until_nul_id l : Forall (fun c => c <> 0) l -> until_nul l = l.
Proof.
  induction 1 as [|c l Hc _ IH]; cbn; [done|].
  destruct (Z.eqb_spec c 0); [done|]. by rewrite IH.
Qed.

(** IAC SB TTYPE, a marker byte [m], the name, IAC SE. *)
Lemma negotiate_loop_terminal_type (Hok : telnet_h_ok) n v w m name rest :
  TTYPE <> IAC -> char_val TTYPE = TTYPE ->
  vars_ok v -> eof_flag (stdin w) = false -> done v < 2 ->
  uchar m <> IAC -> Forall (fun b => uchar b <> IAC) name ->
  pending (input w)
  = IAC :: SB :: (TTYPE :: m :: name) ++ IAC :: SE :: rest ->
  exists v',
    negotiate_loop (length name + 4 + n) v w
    = negotiate_loop n v' (set_alarm_timer 0 (with_pending rest w))
    /\ vars_ok v'
    /\ sb v' = sb_holding (TTYPE :: m :: name)
    /\ cstring (term v') = Some (until_nul (take 1021 (map uchar name)))
    /\ done v' = done v + 1
    /\ terminal_width v' = terminal_width v.
Proof.
  intros HTI Hc Hv Hs Hd Hm Hname Hin.
  destruct (verbs_are_bytes Hok) as (HI & _).
  destruct (options_are_bytes Hok) as (_ & _ & _ & HT & _).
  pose proof Hok as [Hbytes _].
  assert (HSE : 0 <= SE < 256) by (forall_facts Hbytes; tauto).
  set (q := TTYPE :: m :: name) in *.
  set (s1 := fold_left sb_append q (after_SB v)).
  assert (Hq : Forall (fun b => uchar b <> IAC) q).
  { subst q. constructor; [by rewrite uchar_byte|]. by constructor. }
  assert (Hv1 : vars_ok s1)
    by (by apply vars_ok_fold_sb_append, vars_ok_after_SB).
  assert (Hsb1 : sb s1 = sb_holding q) by (by apply sb_after_payload).
  destruct (fold_sb_append_fields q (after_SB v)) as (Hd1 & _ & _ & Hw1 & _).
  fold s1 in Hd1, Hw1.
  change (done (after_SB v)) with (done v) in Hd1.
  change (terminal_width (after_SB v)) with (terminal_width v) in Hw1.
  exists (after_SE_TTYPE s1).
  split; [|split; [by apply vars_ok_after_SE_TTYPE|split; [done|split]]].
  - replace (length name + 4 + n)%nat with (S (length q + S n))
      by (subst q; cbn; lia).
    rewrite (negotiate_loop_SB_payload Hok q (S n) v w (IAC :: SE :: rest))
      by done.
    fold s1.
    rewrite (negotiate_loop_SE_TTYPE n s1 _ rest); try done.
    + lia.
    + rewrite Hsb1. subst q. unfold sb_holding. cbn.
      by rewrite uchar_byte.
  - cbn [after_SE_TTYPE term set_done set_term].
    rewrite resolved_term_cstring by (destruct Hv1; done).
    rewrite Hsb1. subst q. by rewrite until_nul_drop_2_sb_holding.
  - cbn [after_SE_TTYPE done terminal_width set_done set_term set_sb_mode].
    split; lia.
Qed.

(** X14. The terminal type is captured from the answer IAC SB TTYPE, one
    marker byte, the name, IAC SE: the loop takes one turn for each
    command and each payload byte, counts one resolution, cancels the
    alarm, and leaves in [term] the C string of the first 1021 bytes of
    the name, which is the name itself when it is that short and holds
    no NUL.  A longer name is cut. *)
Theorem terminal_type_is_captured (Hok : telnet_h_ok) n v w m name rest :
  TTYPE <> IAC -> char_val TTYPE = TTYPE ->
  vars_ok v -> eof_flag (stdin w) = false -> done v < 2 ->
  uchar m <> IAC -> Forall (fun b => uchar b <> IAC) name ->
  pending (input w)
  = IAC :: SB :: (TTYPE :: m :: name) ++ IAC :: SE :: rest ->
  exists v',
    negotiate_loop (length name + 4 + n) v w
    = negotiate_loop n v' (set_alarm_timer 0 (with_pending rest w))
    /\ cstring (term v') = Some (until_nul (take 1021 (map uchar name)))
    /\ (Forall (fun b => uchar b <> 0) name -> (length name <= 1021)%nat ->
        cstring (term v') = Some (map uchar name))
    /\ done v' = done v + 1
    /\ terminal_width v' = terminal_width v.
Proof.
  intros HTI Hc Hv Hs Hd Hm Hname Hin.
  destruct (negotiate_loop_terminal_type Hok n v w m name rest
              HTI Hc Hv Hs Hd Hm Hname Hin)
    as (v' & Hrun & _ & _ & Ht & Hd' & Hw').
  exists v'. split; [done|]. split; [done|]. split; [|done].
  intros Hnz Hlen. rewrite Ht. f_equal.
  rewrite take_ge by (rewrite length_map; lia).
  apply until_nul_id. by apply Forall_map.
Qed.
End Capture.

Lemma yields_ret {A} (a : A) (P : A -> Prop) : P a -> yields (ret a) P.
Proof. by intros H w. Qed.

Lemma yields_bind {A B} (c : M A) (k : A -> M B) (P : B -> Prop) :
  (forall a, yields (k a) P) -> yields (bind c k) P.
Proof.
  intros H w. unfold bind. destruct (c w) as [a w'|? ?| |]; [|done..].
  apply H.
Qed.

Lemma yields_lift {A B} (o : option A) (k : A -> M B) (P : B -> Prop) :
  (forall a, o = Some a -> yields (k a) P) -> yields (bind (lift o) k) P.
Proof.
  intros H w. unfold bind. destruct o as [a|]; [|done]. cbn. by apply H.
Qed.

Section Capabilities.
Context `{TH : telnet_h} `{CI : c_impl}.

Lemma char_val_range b : 0 <= b < 256 -> -128 <= char_val b <= 255.
Proof.
  intros Hb. unfold char_val.
  destruct char_signed; cbn; [|lia].
  destruct (Z.leb_spec 128 b); lia.
Qed.

Lemma until_nul_before l (k : nat) :
  l !! k = Some 0 -> (length (until_nul l) <= k)%nat.
Proof.
  revert k. induction l as [|c l IH]; intros k Hk; [done|].
  cbn. destruct (Z.eqb_spec c 0); [cbn; lia|].
  destruct k as [|k]; cbn in Hk; [congruence|].
  cbn. apply IH in Hk. lia.
Qed.

Lemma caps_ok_init : caps_ok neg_init.
Proof.
  split.
  - change (sb neg_init) with (replicate 1024%nat 0).
    apply Forall_replicate. lia.
  - exists (bytes "ansi").
    change (term neg_init) with (bytes "ansi" ++ 0 :: replicate 1019%nat 0).
    split; [|vm_compute; lia].
    apply cstring_app_nul. by repeat constructor.
  - change (terminal_width neg_init) with 80. lia.
  - by left.
Qed.

Lemma yields_neg_case_SE v :
  vars_ok v -> caps_ok v -> yields (neg_case_SE v) caps_ok.
Proof.
  intros Hv [Hsb Ht Hwd He] w. pose proof Hv as [Hl Hlt Hr Hn].
  destruct (lookup_lt_is_Some_2 (sb v) 0) as [x0 H0]; [lia|].
  destruct (lookup_lt_is_Some_2 (sb v) 2) as [x2 H2]; [lia|].
  rewrite (neg_case_SE_eq v w x0 x2 Hv H0 H2).
  destruct (char_val x0 =? TTYPE); [|destruct (char_val x0 =? NAWS)].
  - split; cbn; [done| |done|done].
    exists (until_nul (drop 2 (sb v))).
    split; [by apply resolved_term_cstring|].
    apply until_nul_before. rewrite lookup_drop. exact Hn.
  - split; cbn; [done|done| |done].
    apply char_val_range.
    by apply (Forall_lookup_1 _ _ _ _ Hsb H2).
  - by split.
Qed.

Lemma yields_negotiate_body v :
  vars_ok v -> caps_ok v -> yields (negotiate_body v) caps_ok.
Proof.
  intros Hv Hc. pose proof Hc as [Hsb Ht Hwd He].
  unfold negotiate_body.
  apply yields_bind; intros c.
  destruct (uchar c =? IAC).
  - apply yields_bind; intros c'. unfold neg_switch.
    destruct (uchar c' =? SE); [by apply yields_neg_case_SE|].
    destruct (uchar c' =? NOP);
      [apply yields_bind; intros _; by apply yields_ret|].
    destruct ((uchar c' =? WILL) || (uchar c' =? WONT)).
    { unfold neg_case_WILL_WONT.
      repeat (apply yields_bind; intros ?). by apply yields_ret. }
    destruct ((uchar c' =? DO) || (uchar c' =? DONT)).
    { unfold neg_case_DO_DONT.
      repeat (apply yields_bind; intros ?). apply yields_ret.
      destruct (_ =? ECHO); [|done].
      split; cbn; [done|done|done|].
      destruct (_ =? DO); [by right|by left]. }
    destruct (uchar c' =? SB).
    { apply yields_ret. split; cbn; [|done|done|done].
      unfold memset0. apply Forall_replicate. lia. }
    destruct (uchar c' =? IAC); apply yields_ret; [by split|done].
  - destruct (negb (sb_mode v =? 0)); [|by apply yields_ret].
    destruct (_ <? _); [|by apply yields_ret].
    apply yields_lift. intros b Hb. apply yields_ret.
    unfold arr_set in Hb. destruct (_ && _); [|done].
    injection Hb as <-.
    split; cbn; [|done|done|done].
    apply Forall_insert; [done|]. apply uchar_range.
Qed.

Lemma caps_step s s' :
  neg_step s s' -> neg_inv s -> caps_state s -> caps_state s'.
Proof.
  intros Hstep Hinv Hcaps.
  destruct Hstep as [v w v' w' Hc Hb|v w Hc|v w st w' Ha Hh]; [|done..].
  destruct Hinv as [(Hv & Hw & Hd0) _]. destruct Hcaps as [Hcap Hd2].
  cbn. split.
  - pose proof (yields_negotiate_body v Hv Hcap w) as Hy.
    by rewrite Hb in Hy.
  - destruct (wp_elim _ _ _ (wp_negotiate_body v w Hv Hw))
      as (v2 & w2 & Hb2 & [Hp _]).
    rewrite Hb in Hb2. injection Hb2 as <- <-.
    apply andb_true_iff in Hc as [_ Hlt]. apply Z.ltb_lt in Hlt.
    destruct Hp as [_ _ _ _ Hdone]. lia.
Qed.

Lemma caps_steps s s' :
  rtc neg_step s s' -> neg_inv s -> caps_state s -> caps_state s'.
Proof.
  induction 1 as [|s1 s2 s3 Hstep _ IH]; [done|].
  intros Hinv Hcaps. apply IH.
  - by eapply neg_step_inv.
  - by eapply caps_step.
Qed.

(** X16. Whatever the peer sends and whenever SIGALRM arrives, the
    capabilities that the negotiation holds are well formed in every
    state it can reach: [term] is a C string of at most 1021 bytes,
    [terminal_width] is the value of one [char] (so a width above 127 or
    255 does not come out as sent), [do_echo] is 0 or 1 and the
    resolution counter is between 0 and 2. *)
Theorem captured_capabilities_are_well_formed w w1 v w' :
  telnet_h_ok -> tables_ok w ->
  (set_options >> alarm 1) w = Ret tt w1 ->
  rtc neg_step (Looping neg_init w1) (Looping v w')
  \/ rtc neg_step (Looping neg_init w1) (Left v w') ->
  (exists s, cstring (term v) = Some s /\ (length s <= 1021)%nat)
  /\ -128 <= terminal_width v <= 255
  /\ (do_echo v = 0 \/ do_echo v = 1)
  /\ 0 <= done v <= 2.
Proof.
  intros Hok Hw Hrun Hreach.
  pose proof (neg_inv_start w w1 Hok Hw Hrun) as Hinv0.
  assert (Hc0 : caps_state (Looping neg_init w1)).
  { split; [apply caps_ok_init|cbn; lia]. }
  assert (H : forall s, rtc neg_step (Looping neg_init w1) s ->
                        neg_inv s /\ caps_state s).
  { intros s Hs. split; [by eapply neg_steps_inv|by eapply caps_steps]. }
  destruct Hreach as [Hr|Hr]; apply H in Hr as [[(_ & _ & Hd0) _] [[] Hd2]];
    cbn in *; repeat split; try done; lia.
Qed.

(** X15. IAC SE is not checked against an open sub-negotiation, and
    [sb] keeps its payload after it: a second IAC SE right after a
    terminal-type answer takes the same payload for a terminal type
    again, counts a second resolution and so ends the negotiation, with
    [terminal_width] still at the value it had. *)
Theorem bare_SE_counts_the_last_payload_again (Hok : telnet_h_ok)
    n v w m name rest :
  TTYPE <> IAC -> char_val TTYPE = TTYPE ->
  vars_ok v -> eof_flag (stdin w) = false -> done v = 0 ->
  uchar m <> IAC -> Forall (fun b => uchar b <> IAC) name ->
  pending (input w)
  = IAC :: SB :: (TTYPE :: m :: name) ++ IAC :: SE :: IAC :: SE :: rest ->
  exists v',
    negotiate_loop (length name + 5 + n) v w
    = Ret v' (set_alarm_timer 0 (with_pending rest w))
    /\ done v' = 2
    /\ terminal_width v' = terminal_width v
    /\ cstring (term v') = Some (until_nul (take 1021 (map uchar name))).
Proof.
  intros HTI Hc Hv Hs Hd Hm Hname Hin.
  destruct (verbs_are_bytes Hok) as (HI & _).
  destruct (options_are_bytes Hok) as (_ & _ & _ & HT & _).
  pose proof Hok as [Hbytes _].
  assert (HSE : 0 <= SE < 256) by (forall_facts Hbytes; tauto).
  destruct (negotiate_loop_terminal_type Hok (S n) v w m name
              (IAC :: SE :: rest) HTI Hc Hv Hs ltac:(lia) Hm Hname Hin)
    as (v1 & Hrun & Hv1 & Hsb1 & Ht1 & Hd1 & Hw1).
  exists (after_SE_TTYPE v1).
  split; [|split; [|split]].
  - replace (length name + 5 + n)%nat with (length name + 4 + S n)%nat by lia.
    rewrite Hrun.
    rewrite (negotiate_loop_SE_TTYPE n v1 _ rest); try done.
    + rewrite negotiate_loop_left.
      * f_equal; by destruct w.
      * cbn. rewrite Hd1, Hd. cbn. apply andb_false_r.
    + lia.
    + rewrite Hsb1. unfold sb_holding. cbn. by rewrite uchar_byte.
  - cbn. lia.
  - cbn. done.
  - cbn [after_SE_TTYPE term set_done set_term].
    rewrite resolved_term_cstring by (destruct Hv1; done).
    rewrite Hsb1. by rewrite until_nul_drop_2_sb_holding.
Qed.
End Capabilities.

Lemma for_each_inv {X} (l : list X) (body : X -> M unit)
    (I : list X -> world -> Prop) w :
  I [] w ->
  (forall pre x w, x ∈ l -> I pre w ->
                   exists w', body x w = Ret tt w' /\ I (pre ++ [x]) w') ->
  exists w', for_each l body w = Ret tt w' /\ I l w'.
Proof.
  intros H0 Hbody.
  assert (Hgen : forall suf pre w,
             suf ⊆ l -> I pre w ->
             exists w', for_each suf body w = Ret tt w' /\ I (pre ++ suf) w').
  { induction suf as [|x suf IH]; intros pre w0 Hsub Hpre.
    - exists w0. by rewrite app_nil_r.
    - destruct (Hbody pre x w0) as (w1 & Hb & H1); [set_solver|done|].
      destruct (IH (pre ++ [x]) w1) as (w2 & Hr & H2); [set_solver|done|].
      exists w2. split.
      + cbn. unfold bind. by rewrite Hb.
      + by rewrite <- app_assoc in H2. }
  by apply (Hgen l [] w).
Qed.

Section Settling.
Context `{TH : telnet_h} `{CI : c_impl}.
Hypothesis Hok : telnet_h_ok.

Lemma arr_get_insert_ne (t : list Z) o x c :
  0 <= o -> 0 <= x -> o <> x ->
  arr_get (<[Z.to_nat x := c]> t) o = arr_get t o.
Proof.
  intros Ho Hx Hne. unfold arr_get. destruct (0 <=? o); [|done].
  apply list_lookup_insert_ne. lia.
Qed.

Lemma arr_get_elem (t : list Z) o c (P : Z -> Prop) :
  Forall P t -> arr_get t o = Some c -> P c.
Proof.
  intros Ht Hc. unfold arr_get in Hc. destruct (0 <=? o); [|done].
  by apply (Forall_lookup_1 _ _ _ _ Ht Hc).
Qed.

Lemma store_telnet_options_eq o x w :
  0 <= o < 256 -> 0 <= x < 256 -> tables_ok w ->
  store_telnet_options o x w
  = Ret tt (set_telnet_options (<[Z.to_nat o := x]> (telnet_options w)) w).
Proof.
  intros Ho Hx [L1 L2 L3 L4]. unfold store_telnet_options, bind, gets.
  rewrite arr_set_Some by lia. cbn. by rewrite uchar_byte.
Qed.

Lemma store_telnet_willack_eq o x w :
  0 <= o < 256 -> 0 <= x < 256 -> tables_ok w ->
  store_telnet_willack o x w
  = Ret tt (set_telnet_willack (<[Z.to_nat o := x]> (telnet_willack w)) w).
Proof.
  intros Ho Hx [L1 L2 L3 L4]. unfold store_telnet_willack, bind, gets.
  rewrite arr_set_Some by lia. cbn. by rewrite uchar_byte.
Qed.

(** The first loop of [set_options]: announcing what the server will
    do. *)
Lemma announce_options w :
  tables_ok w ->
  Forall (fun c => c = 0 \/ c = WILL \/ c = WONT) (telnet_options w) ->
  exists w',
    for_each (seqZ 0 256) (fun option =>
      let* t := gets telnet_options in
      let* v := lift (arr_get t option) in
      if negb (v =? 0) then send_command v option else ret tt) w
    = Ret tt w'
    /\ tables_ok w'
    /\ telnet_options w' = telnet_options w
    /\ telnet_willack w' = telnet_willack w
    /\ telnet_do_set w' = telnet_do_set w
    /\ forall o c, 0 <= o < 256 -> c <> 0 ->
                   arr_get (telnet_options w') o = Some c ->
                   arr_get (telnet_will_set w') o = Some c.
Proof.
  intros Hw Hst.
  match goal with
  | |- exists w', for_each ?l ?b _ = _ /\ _ =>
      destruct (for_each_inv l b
                  (fun pre w' =>
                     tables_ok w'
                     /\ telnet_options w' = telnet_options w
                     /\ telnet_willack w' = telnet_willack w
                     /\ telnet_do_set w' = telnet_do_set w
                     /\ forall o c, o ∈ pre -> 0 <= o < 256 -> c <> 0 ->
                                    arr_get (telnet_options w) o = Some c ->
                                    arr_get (telnet_will_set w') o = Some c)
                  w)
        as (w' & Hrun & Hw' & Ho' & Ha' & Hd' & Hall)
  end.
  { do 4 (split; [done|]). intros o c Ho. by apply elem_of_nil in Ho. }
  { intros pre x wa Hx (Hwa & Hoa & Haa & Hda & Hprev).
    apply elem_of_seqZ in Hx. pose proof Hwa as [L1 L2 L3 L4].
    unfold bind at 1, gets. unfold bind at 1.
    destruct (arr_get_Some (telnet_options wa) x) as [c Hc]; [lia|].
    rewrite Hc. cbn [lift ret].
    destruct (Z.eqb_spec c 0) as [Hc0|Hc0]; cbn [negb].
    - exists wa. split; [done|]. do 4 (split; [done|]).
      intros o c' Ho Hor Hc'0 Hoc. apply elem_of_app in Ho as [Ho|Ho].
      + by apply Hprev.
      + apply list_elem_of_singleton in Ho. subst o.
        rewrite Hoa in Hc. congruence.
    - assert (Hv : c = WILL \/ c = WONT).
      { rewrite Hoa in Hc.
        destruct (arr_get_elem _ _ _ _ Hst Hc) as [?|?]; [done|tauto]. }
      destruct (arr_get_Some (telnet_will_set wa) x) as [cur Hcur]; [lia|].
      rewrite (send_command_WILL_WONT Hok c x cur wa Hv ltac:(lia) Hcur).
      case_decide as Hcc; eexists; (split; [reflexivity|]).
      + do 4 (split; [done|]).
        intros o c' Ho Hor Hc'0 Hoc. apply elem_of_app in Ho as [Ho|Ho].
        * by apply Hprev.
        * apply list_elem_of_singleton in Ho. subst o cur.
          rewrite Hoa in Hc. congruence.
      + split; [split; cbn; rewrite ?length_insert; done|].
        do 3 (split; [done|]). cbn.
        intros o c' Ho Hor Hc'0 Hoc. apply elem_of_app in Ho as [Ho|Ho].
        * destruct (decide (o = x)) as [->|Hne].
          -- rewrite Hoa in Hc. rewrite arr_get_insert by lia. congruence.
          -- rewrite arr_get_insert_ne by lia. by apply Hprev.
        * apply list_elem_of_singleton in Ho. subst o.
          rewrite Hoa in Hc. rewrite arr_get_insert by lia. congruence. }
  exists w'. do 5 (split; [done|]).
  intros o c Ho Hc0 Hc. rewrite Ho' in Hc.
  apply Hall; try done. apply elem_of_seqZ. lia.
Qed.

(** The second loop: announcing what the peer is asked to do. *)
Lemma announce_willack w :
  tables_ok w ->
  Forall (fun c => c = 0 \/ c = DO \/ c = DONT) (telnet_willack w) ->
  exists w',
    for_each (seqZ 0 256) (fun option =>
      let* t := gets telnet_willack in
      let* v := lift (arr_get t option) in
      if negb (v =? 0) then send_command v option else ret tt) w
    = Ret tt w'
    /\ tables_ok w'
    /\ telnet_options w' = telnet_options w
    /\ telnet_willack w' = telnet_willack w
    /\ telnet_will_set w' = telnet_will_set w
    /\ forall o c, 0 <= o < 256 -> c <> 0 ->
                   arr_get (telnet_willack w') o = Some c ->
                   arr_get (telnet_do_set w') o = Some c.
Proof.
  intros Hw Hst.
  match goal with
  | |- exists w', for_each ?l ?b _ = _ /\ _ =>
      destruct (for_each_inv l b
                  (fun pre w' =>
                     tables_ok w'
                     /\ telnet_options w' = telnet_options w
                     /\ telnet_willack w' = telnet_willack w
                     /\ telnet_will_set w' = telnet_will_set w
                     /\ forall o c, o ∈ pre -> 0 <= o < 256 -> c <> 0 ->
                                    arr_get (telnet_willack w) o = Some c ->
                                    arr_get (telnet_do_set w') o = Some c)
                  w)
        as (w' & Hrun & Hw' & Ho' & Ha' & Hd' & Hall)
  end.
  { do 4 (split; [done|]). intros o c Ho. by apply elem_of_nil in Ho. }
  { intros pre x wa Hx (Hwa & Hoa & Haa & Hda & Hprev).
    apply elem_of_seqZ in Hx. pose proof Hwa as [L1 L2 L3 L4].
    unfold bind at 1, gets. unfold bind at 1.
    destruct (arr_get_Some (telnet_willack wa) x) as [c Hc]; [lia|].
    rewrite Hc. cbn [lift ret].
    destruct (Z.eqb_spec c 0) as [Hc0|Hc0]; cbn [negb].
    - exists wa. split; [done|]. do 4 (split; [done|]).
      intros o c' Ho Hor Hc'0 Hoc. apply elem_of_app in Ho as [Ho|Ho].
      + by apply Hprev.
      + apply list_elem_of_singleton in Ho. subst o.
        rewrite Haa in Hc. congruence.
    - assert (Hv : c = DO \/ c = DONT).
      { rewrite Haa in Hc.
        destruct (arr_get_elem _ _ _ _ Hst Hc) as [?|?]; [done|tauto]. }
      destruct (arr_get_Some (telnet_do_set wa) x) as [cur Hcur]; [lia|].
      rewrite (send_command_DO_DONT Hok c x cur wa Hv ltac:(lia) Hcur).
      case_decide as Hcc; eexists; (split; [reflexivity|]).
      + do 4 (split; [done|]).
        intros o c' Ho Hor Hc'0 Hoc. apply elem_of_app in Ho as [Ho|Ho].
        * by apply Hprev.
        * apply list_elem_of_singleton in Ho. subst o cur.
          rewrite Haa in Hc. congruence.
      + split; [split; cbn; rewrite ?length_insert; done|].
        do 3 (split; [done|]). cbn.
        intros o c' Ho Hor Hc'0 Hoc. apply elem_of_app in Ho as [Ho|Ho].
        * destruct (decide (o = x)) as [->|Hne].
          -- rewrite Haa in Hc. rewrite arr_get_insert by lia. congruence.
          -- rewrite arr_get_insert_ne by lia. by apply Hprev.
        * apply list_elem_of_singleton in Ho. subst o.
          rewrite Haa in Hc. rewrite arr_get_insert by lia. congruence. }
  exists w'. do 5 (split; [done|]).
  intros o c Ho Hc0 Hc. rewrite Ha' in Hc.
  apply Hall; try done. apply elem_of_seqZ. lia.
Qed.

(** [set_options] leaves every stance agreed. *)
Lemma set_options_settles w :
  tables_ok w -> stances_ok w ->
  exists w', set_options w = Ret tt w'
             /\ tables_ok w' /\ stances_ok w' /\ settled w'
             /\ input w' = input w.
Proof.
  intros Hw [Hso Hsa].
  destruct (verbs_are_bytes Hok) as (_ & HDONT & HDO & HWONT & HWILL).
  destruct (options_are_bytes Hok) as (HE & HS & HN & HT & HL & HNE).
  unfold set_options.
  set (T1 := <[Z.to_nat NEW_ENVIRON := WONT]>
               (<[Z.to_nat SGA := WILL]>
                  (<[Z.to_nat ECHO := WILL]> (telnet_options w)))).
  set (T2 := <[Z.to_nat NEW_ENVIRON := DO]>
               (<[Z.to_nat LINEMODE := DONT]>
                  (<[Z.to_nat TTYPE := DO]>
                     (<[Z.to_nat NAWS := DO]>
                        (<[Z.to_nat SGA := DO]>
                           (<[Z.to_nat ECHO := DONT]> (telnet_willack w))))))).
  set (w9 := set_telnet_willack T2 (set_telnet_options T1 w)).
  assert (Hw9 : tables_ok w9).
  { destruct Hw. subst w9 T1 T2.
    split; cbn; rewrite ?length_insert; done. }
  assert (Hs1 : Forall (fun c => c = 0 \/ c = WILL \/ c = WONT) T1).
  { subst T1. repeat apply Forall_insert; tauto. }
  assert (Hs2 : Forall (fun c => c = 0 \/ c = DO \/ c = DONT) T2).
  { subst T2. repeat apply Forall_insert; tauto. }
  destruct (announce_options w9 Hw9 Hs1)
    as (w10 & Hr1 & Hw10 & Ho10 & Ha10 & Hd10 & Hag1).
  destruct (announce_willack w10 Hw10 ltac:(by rewrite Ha10))
    as (w11 & Hr2 & Hw11 & Ho11 & Ha11 & Hd11 & Hag2).
  assert (Hrun : set_options w = Ret tt w11).
  { pose proof Hw as [L1 L2 L3 L4]. unfold set_options.
    repeat (unfold bind at 1;
            first [rewrite store_telnet_options_eq
                  |rewrite store_telnet_willack_eq];
            [|done|done|split; cbn; rewrite ?length_insert; done]).
    unfold bind at 1.
    replace (set_telnet_willack _ _) with w9
      by (subst w9 T1 T2; by destruct w).
    by rewrite Hr1. }
  exists w11. split; [done|]. split; [done|]. split.
  { split; [by rewrite Ho11, Ho10|by rewrite Ha11, Ha10]. }
  split.
  { intros o c Ho Hc0 [Hc|Hc].
    - right. rewrite Ho11 in Hc. split.
      + rewrite Ho10 in Hc.
        destruct (arr_get_elem _ _ _ _ Hs1 Hc) as [?|?]; [done|tauto].
      + rewrite Hd11. by apply Hag1.
    - left. split.
      + rewrite Ha11, Ha10 in Hc.
        destruct (arr_get_elem _ _ _ _ Hs2 Hc) as [?|?]; [done|tauto].
      + by apply Hag2. }
  destruct (wp_elim _ _ _ (wp_set_options w Hok Hw))
    as ([] & w0 & Hset & _ & [Hi _ _]).
  congruence.
Qed.

(** X17. [set_options] returns and leaves every stance agreed, so that
    the peer's answers to the announcements draw no reply: after it, a
    WILL or WONT for an option with a stance in [telnet_willack], and a
    DO or DONT for an option with a stance in [telnet_options], is read
    and answered with nothing (after WILL TTYPE with the request for the
    terminal type only). *)
Theorem announced_stances_draw_no_reply w v i o rest :
  tables_ok w -> stances_ok w ->
  exists w1,
    set_options w = Ret tt w1
    /\ forall c,
        c <> 0 ->
        (i = WILL \/ i = WONT ->
         arr_get (telnet_willack w1) (uchar o) = Some c ->
         negotiate_body v (with_pending (IAC :: i :: o :: rest) w1)
         = Ret v (set_output (output w1 ++ ttype_request i (uchar o))
                    (with_pending rest w1)))
        /\ (i = DO \/ i = DONT ->
            arr_get (telnet_options w1) (uchar o) = Some c ->
            negotiate_body v (with_pending (IAC :: i :: o :: rest) w1)
            = Ret (if uchar o =? ECHO
                   then set_do_echo (if i =? DO then 1 else 0) v else v)
                  (with_pending rest w1)).
Proof.
  intros Hw Hst.
  destruct (set_options_settles w Hw Hst) as (w1 & Hrun & Hw1 & _ & Hset & _).
  exists w1. split; [done|].
  intros c Hc0. split; intros Hi Hc.
  - rewrite (negotiate_body_WILL_WONT_agreed Hok v
               (with_pending (IAC :: i :: o :: rest) w1) i o rest c Hi eq_refl);
      [|done|done|].
    + by rewrite with_pending_twice.
    + apply (Hset (uchar o) c (uchar_range o) Hc0). by right.
  - rewrite (negotiate_body_DO_DONT_agreed Hok v
               (with_pending (IAC :: i :: o :: rest) w1) i o rest c Hi eq_refl);
      [|done|done|].
    + by rewrite with_pending_twice.
    + apply (Hset (uchar o) c (uchar_range o) Hc0). by left.
Qed.
End Settling.

(** ** drop_privileges *)

(** X18. Whatever the system calls do and return: when
    [drop_privileges] is entered as root and returns, the effective user
    and the effective group are not 0 any more; when it is entered as
    another user it returns at once and has called nothing (so there is
    no chroot then); and it never ends the process but as root, with the
    failure status. *)
Theorem drop_privileges_leaves_root_behind {K} `{posix K} (k : K) :
  match drop_privileges k with
  | Returned k' =>
      (geteuid k = 0 -> geteuid k' <> 0 /\ getegid k' <> 0)
      /\ (geteuid k <> 0 -> k' = k)
  | Exit status _ => status = EXIT_FAILURE /\ geteuid k = 0
  end.
Proof.
  unfold drop_privileges.
  destruct (Z.eqb_spec (geteuid k) 0) as [H0|H0]; [|done].
  destruct (getpwnam "nobody" k) as [[user|] k1]; [|done].
  destruct (chroot "/var/empty" k1) as [r2 k2].
  destruct (negb (r2 =? 0)); [done|].
  destruct (chdir "/" k2) as [r3 k3].
  destruct (negb (r3 =? 0)); [done|].
  destruct (setresgid _ _ _ k3) as [r4 k4].
  destruct (negb (r4 =? 0)); [done|].
  destruct (setgroups _ k4) as [r5 k5].
  destruct (negb (r5 =? 0)); [done|].
  destruct (setresuid _ _ _ k5) as [r6 k6].
  destruct (negb (r6 =? 0)); [done|].
  destruct (Z.eqb_spec (geteuid k6) 0); [done|].
  destruct (Z.eqb_spec (getegid k6) 0); [done|].
  cbn. split; [done|]. intros Hne. done.
Qed.

(** On a system that does as it is told: root becomes "nobody" inside
    /var/empty; a "nobody" that is root itself is caught by the last
    test; and without a "nobody" nothing is changed. *)
Example drop_privileges_as_root :
  @drop_privileges ids
    (plain_system (Some {| pw_uid := 65534; pw_gid := 65534 |}))
    {| k_euid := 0; k_egid := 0; k_groups := [0];
       k_root := "/"; k_cwd := "/root"; k_stderr := [] |}
  = Returned {| k_euid := 65534; k_egid := 65534; k_groups := [65534];
                k_root := "/var/empty"; k_cwd := "/"; k_stderr := [] |}.
Proof. reflexivity. Qed.

Example drop_privileges_to_root :
  @drop_privileges ids (plain_system (Some {| pw_uid := 0; pw_gid := 0 |}))
    {| k_euid := 0; k_egid := 0; k_groups := [0];
       k_root := "/"; k_cwd := "/root"; k_stderr := [] |}
  = Exit EXIT_FAILURE
      {| k_euid := 0; k_egid := 0; k_groups := [0];
         k_root := "/var/empty"; k_cwd := "/";
         k_stderr := bytes "Mysteriously still running as root... Goodbye."
                     ++ [10] |}.
Proof. reflexivity. Qed.

Example drop_privileges_without_nobody :
  @drop_privileges ids (plain_system None)
    {| k_euid := 0; k_egid := 0; k_groups := [0];
       k_root := "/"; k_cwd := "/root"; k_stderr := [] |}
  = Exit EXIT_FAILURE
      {| k_euid := 0; k_egid := 0; k_groups := [0];
         k_root := "/"; k_cwd := "/root";
         k_stderr := bytes "getpwnam: error" ++ [10] |}.
Proof. reflexivity. Qed.

Section NOP.
Context `{TH : telnet_h} `{CI : c_impl}.
Hypothesis Hok : telnet_h_ok.

Lemma send_command_raw cmd opt w :
  cmd <> DO -> cmd <> DONT -> cmd <> WILL -> cmd <> WONT ->
  send_command cmd opt w
  = Ret tt (set_output (output w ++ [uchar IAC; uchar cmd]) w).
Proof.
  intros. unfold send_command.
  destruct (Z.eqb_spec cmd DO); [done|]. destruct (Z.eqb_spec cmd DONT); [done|].
  destruct (Z.eqb_spec cmd WILL); [done|].
  by destruct (Z.eqb_spec cmd WONT).
Qed.

Lemma NOP_turn v w rest :
  pending (input w) = IAC :: NOP :: rest ->
  negotiate_body v w
  = Ret v (set_output (output w ++ [IAC; NOP]) (with_pending rest w)).
Proof.
  intros Hin.
  destruct (verbs_are_bytes Hok) as (HI & _).
  pose proof Hok as [Hbytes Hnd].
  assert (HNOP : 0 <= NOP < 256) by (forall_facts Hbytes; tauto).
  nodup_facts Hnd.
  rewrite (negotiate_body_command v w IAC NOP _ Hin) by (by apply uchar_byte).
  rewrite (uchar_byte NOP) by done. unfold neg_switch.
  destruct (Z.eqb_spec NOP SE); [intuition congruence|].
  rewrite Z.eqb_refl. unfold bind.
  rewrite send_command_raw by intuition congruence.
  by rewrite !uchar_byte by done.
Qed.

(** X13. IAC NOP is answered IAC NOP every time: [send_command] keeps
    no record of the commands that are not a negotiation verb, so [k]
    NOPs in a row draw [k] replies. *)
Theorem NOP_is_answered_every_time k n v w rest :
  eof_flag (stdin w) = false -> done v < 2 ->
  pending (input w) = concat (replicate k [IAC; NOP]) ++ rest ->
  negotiate_loop (k + n) v w
  = negotiate_loop n v
      (set_output (output w ++ concat (replicate k [IAC; NOP]))
         (with_pending rest w)).
Proof.
  intros Hs Hd. revert w Hs.
  induction k as [|k IH]; intros w Hs Hin.
  - cbn in *. rewrite app_nil_r. f_equal. destruct w as [[p e] ?].
    cbn in *. by subst.
  - cbn [replicate concat] in Hin. rewrite <- app_assoc in Hin.
    cbn [Nat.add].
    rewrite (negotiate_loop_turn _ v w v _
               ltac:(rewrite Hs; cbn; by apply Z.ltb_lt)
               (NOP_turn v w _ Hin)).
    rewrite IH by done. f_equal.
    cbn [replicate concat]. destruct w. cbn. by rewrite <- app_assoc.
Qed.
End NOP.

(* ===================================================================== *)
(** ** More concrete runs *)

Section ConcreteMore.
Local Existing Instance rfc854.
Local Existing Instance lp64_signed_char.

Lemma readline_returns_a_clean_field_witness :
  let w := fresh_world (bytes "root" ++ [13; 0]) in
  1 <= 1024 <= SIZE_MAX
  /\ Z.of_nat (length junk) = 1024
  /\ (length (pending (input w)) < 8)%nat
  /\ match readline 8 junk 1024 0 w with
     | Ret b w' =>
         length b = length junk
         /\ (exists s, cstring b = Some s /\ Z.of_nat (length s) < 1024
                       /\ Forall field_byte s)
         /\ talked w w'
         /\ (2 <= 1024 ->
             (length (pending (input w')) < length (pending (input w)))%nat)
     | Exited status w' => status = EXIT_SUCCESS /\ talked w w'
     | Fault | OutOfFuel => False
     end.
Proof.
  intros w.
  assert (H1 : 1 <= 1024 <= SIZE_MAX) by (vm_compute; split; discriminate).
  assert (H2 : Z.of_nat (length junk) = 1024) by (vm_compute; reflexivity).
  assert (H3 : (length (pending (input w)) < 8)%nat) by (vm_compute; lia).
  do 3 (split; [assumption|]).
  exact (readline_returns_a_clean_field 8 junk 1024 0 w H1 H2 H3).
Defined.

Lemma readline_carries_out_the_edition_witness :
  let keys := bytes "rooo" ++ [127] ++ bytes "t" in
  let w := fresh_world (keys ++ 13 :: [0]) in
  1 <= 1024 <= SIZE_MAX
  /\ Z.of_nat (length junk) = 1024
  /\ Forall edit_key keys
  /\ Z.of_nat (length keys) < 1024 - 1
  /\ (13 = 10 \/ 13 = 13)
  /\ input w = {| pending := keys ++ 13 :: [0]; eof_flag := false |}
  /\ (length keys < 8)%nat
  /\ exists b,
      readline 8 junk 1024 0 w
      = Ret b (set_output
                 (output w ++ ESC :: bytes "[?25h" ++ echoes 0 [] keys
                  ++ [13; 0; 10] ++ ESC :: bytes "[?25l")
                 (set_input {| pending := [0]; eof_flag := false |} w))
      /\ cstring b = Some (typed 0 keys)
      /\ length b = length junk.
Proof.
  intros keys w.
  assert (H1 : 1 <= 1024 <= SIZE_MAX) by (vm_compute; split; discriminate).
  assert (H2 : Z.of_nat (length junk) = 1024) by (vm_compute; reflexivity).
  assert (H3 : Forall edit_key keys)
    by (vm_compute; repeat (constructor; [cbv; repeat split; discriminate|]);
        constructor).
  assert (H4 : Z.of_nat (length keys) < 1024 - 1) by (vm_compute; reflexivity).
  assert (H5 : 13 = 10 \/ 13 = 13) by (right; reflexivity).
  assert (H6 : input w = {| pending := keys ++ 13 :: [0]; eof_flag := false |})
    by reflexivity.
  assert (H7 : (length keys < 8)%nat) by (vm_compute; lia).
  do 7 (split; [assumption|]).
  exact (readline_carries_out_the_edition 8 junk 1024 0 keys 13 [0] w
           H1 H2 H3 H4 H5 H6 H7).
Defined.

(** The field of the witness above is "root": the delete has taken the
    third "o" away. *)
Example typed_root :
  typed 0 (bytes "rooo" ++ [127] ++ bytes "t") = bytes "root"
  /\ typed 1 (bytes "rooo" ++ [127] ++ bytes "t") = bytes "t".
Proof. split; reflexivity. Qed.

Lemma readline_masks_password_witness :
  let s1 := bytes "secret" ++ [8] ++ bytes "x" ++ [13] in
  let s2 := bytes "123456" ++ [127] ++ bytes "y" ++ [10] in
  1 <> 0
  /\ length junk = length (replicate 1024%nat 0)
  /\ map key_class s1 = map key_class s2
  /\ view (readline 16 junk 1024 1 (with_pending s1 (fresh_world [])))
     = view (readline 16 (replicate 1024%nat 0) 1024 1
               (with_pending s2 (fresh_world []))).
Proof.
  intros s1 s2.
  assert (H1 : 1 <> 0) by discriminate.
  assert (H2 : length junk = length (replicate 1024%nat 0))
    by (vm_compute; reflexivity).
  assert (H3 : map key_class s1 = map key_class s2) by reflexivity.
  do 3 (split; [assumption|]).
  exact (readline_masks_password 16 1024 1 junk (replicate 1024%nat 0) s1 s2
           (fresh_world []) H1 H2 H3).
Defined.




(** With CR LF line ends the peer that types "root" and "toor" is logged
    as the user "root" and then as the user "toor", each time with an
    empty password. *)
Example CR_LF_session :
  exists w,
    handle_connection 64 peer_address junk junk
      (fresh_world (xterm_120 ++ bytes "root" ++ [13; 10]
                    ++ bytes "toor" ++ [13; 10]))
    = Exited EXIT_SUCCESS w
    /\ logfile w = bytes "::1 - root:" ++ [10] ++ bytes "::1 - toor:" ++ [10].
Proof. eexists. split; [vm_compute; reflexivity|]. vm_compute. reflexivity. Qed.

Lemma worker_ends_with_the_stream_witness :
  let w := fresh_world (xterm_120 ++ bytes "root" ++ [13; 0]
                        ++ bytes "toor" ++ [13; 0] ++ bytes "guest") in
  exists v w1,
    negotiate_telnet 64 w = Ret v w1
    /\ cstring peer_address = Some (bytes "::1")
    /\ length junk = 1024%nat /\ length junk = 1024%nat
    /\ (length (pending (input w)) < 64)%nat
    /\ alarm_timer w1 = 0
    /\ credentials_in (input w1) = [(bytes "root", bytes "toor")]
    /\ exists w',
        handle_connection 64 peer_address junk junk w
        = Exited EXIT_SUCCESS w'
        /\ logfile w'
           = logfile w ++ logged (bytes "::1") (credentials_in (input w1))
        /\ stderr w' = stderr w
        /\ stdin w' = stdin w
        /\ alarm_timer w' = 0
        /\ pending (input w') `suffix_of` pending (input w1).
Proof.
  intros w.
  eexists _, _. split; [vm_compute; reflexivity|].
  assert (H1 : cstring peer_address = Some (bytes "::1")) by reflexivity.
  assert (H2 : length junk = 1024%nat) by (vm_compute; reflexivity).
  assert (H3 : (length (pending (input w)) < 64)%nat) by (vm_compute; lia).
  do 4 (split; [assumption|]).
  split; [reflexivity|]. split; [vm_compute; reflexivity|].
  refine (worker_ends_with_the_stream 64 peer_address (bytes "::1") junk junk
            w _ _ H1 H2 H2 H3 _ _); [vm_compute; reflexivity|reflexivity].
Defined.

(** [read_field] on a few streams: an erased character; a NUL after a
    NUL, which is stored and cuts the field that is read back; 0xff inside
    a field; and a line that fills the array, whose last character and
    line end are left in the stream. *)
Example read_field_cases :
  read_field 1023 0 [] false (bytes "ab" ++ [8] ++ bytes "c" ++ [13; 0; 120])
  = Some (bytes "ac", [0; 120])
  /\ read_field 1023 0 [] false [0; 0; 97; 13] = Some ([0; 97], [])
  /\ until_nul [0; 97] = []
  /\ read_field 1023 1 [] false (bytes "ab" ++ [255; 13]) = None
  /\ read_field 1023 0 [] false (replicate 1024%nat 97 ++ [13])
     = Some (replicate 1023%nat 97, [97; 13]).
Proof. repeat split; vm_compute; reflexivity. Qed.

Lemma negotiation_only_talks_to_the_peer_witness :
  let w := fresh_world xterm_120 in
  telnet_h_ok /\ IAC = 255 /\ tables_ok w
  /\ (length (pending (input w)) < 32)%nat
  /\ exists v w',
      negotiate_telnet 32 w = Ret v w'
      /\ pending (input w') `suffix_of` pending (input w)
      /\ output w `prefix_of` output w'
      /\ stdin w' = stdin w /\ logfile w' = logfile w
      /\ stdout w' = stdout w /\ stderr w' = stderr w.
Proof.
  intros w.
  assert (Hok : telnet_h_ok) by exact rfc854_ok.
  assert (H1 : IAC = 255) by reflexivity.
  assert (H2 : tables_ok w) by (split; reflexivity).
  assert (H3 : (length (pending (input w)) < 32)%nat) by (vm_compute; lia).
  do 4 (split; [assumption|]).
  exact (negotiation_only_talks_to_the_peer 32 w Hok H1 H2 H3).
Defined.

Lemma data_outside_subnegotiation_is_dropped_witness :
  let d := bytes "root" ++ [13; 0] in
  let w := loop_start (d ++ xterm_120) in
  vars_ok neg_init /\ eof_flag (stdin w) = false /\ done neg_init < 2
  /\ sb_mode neg_init = 0
  /\ Forall (fun b => uchar b <> IAC) d
  /\ pending (input w) = d ++ xterm_120
  /\ negotiate_loop (length d + 16) neg_init w
     = negotiate_loop 16 neg_init (with_pending xterm_120 w).
Proof.
  intros d w.
  assert (Hv : vars_ok neg_init) by exact vars_ok_init.
  assert (H1 : eof_flag (stdin w) = false) by reflexivity.
  assert (H2 : done neg_init < 2) by reflexivity.
  assert (H3 : sb_mode neg_init = 0) by reflexivity.
  assert (H4 : Forall (fun b => uchar b <> IAC) d)
    by (repeat constructor; discriminate).
  assert (H5 : pending (input w) = d ++ xterm_120) by reflexivity.
  do 6 (split; [assumption|]).
  exact (data_outside_subnegotiation_is_dropped d 16 neg_init w xterm_120
           Hv H1 H2 H3 H4 H5).
Defined.

Lemma option_without_stance_is_refused_witness :
  let w := loop_start [255; 251; 99] in
  telnet_h_ok /\ tables_ok w
  /\ pending (input w) = IAC :: WILL :: 99 :: []
  /\ (WILL = WILL \/ WILL = WONT)
  /\ arr_get (telnet_willack w) (uchar 99) = Some 0
  /\ arr_get (telnet_will_set w) (uchar 99) <> Some WONT
  /\ exists w',
      negotiate_body neg_init w = Ret neg_init w'
      /\ output w' = output w ++ [IAC; WONT; uchar 99]
                     ++ ttype_request WILL (uchar 99)
      /\ arr_get (telnet_willack w') (uchar 99) = Some WONT
      /\ arr_get (telnet_will_set w') (uchar 99) = Some WONT
      /\ pending (input w') = [].
Proof.
  intros w.
  assert (Hok : telnet_h_ok) by exact rfc854_ok.
  assert (H1 : tables_ok w) by (split; reflexivity).
  assert (H2 : pending (input w) = IAC :: WILL :: 99 :: []) by reflexivity.
  assert (H3 : WILL = WILL \/ WILL = WONT) by (left; reflexivity).
  assert (H4 : arr_get (telnet_willack w) (uchar 99) = Some 0)
    by (vm_compute; reflexivity).
  assert (H5 : arr_get (telnet_will_set w) (uchar 99) <> Some WONT)
    by (vm_compute; discriminate).
  do 6 (split; [assumption|]).
  exact (proj1 (option_without_stance_is_refused Hok neg_init w WILL 99 []
                  H1 H2) H3 H4 H5).
Defined.

Lemma alternating_commands_are_answered_every_time_witness :
  let w := loop_start
             (concat (replicate 2 [IAC; DO; NAWS; IAC; WILL; NAWS])
              ++ xterm_120) in
  telnet_h_ok /\ DO <> 0 /\ DONT <> 0 /\ tables_ok w
  /\ 0 <= NAWS < 256 /\ NAWS <> ECHO
  /\ eof_flag (stdin w) = false /\ done neg_init < 2
  /\ arr_get (telnet_willack w) NAWS = Some DO
  /\ (arr_get (telnet_options w) NAWS = Some 0
      \/ arr_get (telnet_options w) NAWS = Some DONT)
  /\ arr_get (telnet_do_set w) NAWS = Some DO
  /\ pending (input w)
     = concat (replicate 2 [IAC; DO; NAWS; IAC; WILL; NAWS]) ++ xterm_120
  /\ exists w',
      negotiate_loop (2 * 2 + 16) neg_init w = negotiate_loop 16 neg_init w'
      /\ output w' = output w
                     ++ concat (replicate 2 ([IAC; DONT; NAWS; IAC; DO; NAWS]
                                             ++ ttype_request WILL NAWS))
      /\ pending (input w') = xterm_120.
Proof.
  intros w.
  assert (Hok : telnet_h_ok) by exact rfc854_ok.
  assert (H1 : DO <> 0) by discriminate.
  assert (H2 : DONT <> 0) by discriminate.
  assert (H3 : tables_ok w) by (split; reflexivity).
  assert (H4 : 0 <= NAWS < 256)
    by (vm_compute; split; [discriminate|reflexivity]).
  assert (H5 : NAWS <> ECHO) by discriminate.
  assert (H6 : eof_flag (stdin w) = false) by reflexivity.
  assert (H7 : done neg_init < 2) by reflexivity.
  assert (H8 : arr_get (telnet_willack w) NAWS = Some DO)
    by (vm_compute; reflexivity).
  assert (H9 : arr_get (telnet_options w) NAWS = Some 0
               \/ arr_get (telnet_options w) NAWS = Some DONT)
    by (left; vm_compute; reflexivity).
  assert (H10 : arr_get (telnet_do_set w) NAWS = Some DO)
    by (vm_compute; reflexivity).
  assert (H11 : pending (input w)
                = concat (replicate 2 [IAC; DO; NAWS; IAC; WILL; NAWS])
                  ++ xterm_120) by reflexivity.
  do 12 (split; [assumption|]).
  exact (alternating_commands_are_answered_every_time Hok 2 16 neg_init w
           NAWS xterm_120 H1 H2 H3 H4 H5 H6 H7 H8 H9 H10 H11).
Defined.

Lemma NOP_is_answered_every_time_witness :
  let w := loop_start (concat (replicate 3 [IAC; NOP]) ++ xterm_120) in
  telnet_h_ok /\ eof_flag (stdin w) = false /\ done neg_init < 2
  /\ pending (input w) = concat (replicate 3 [IAC; NOP]) ++ xterm_120
  /\ negotiate_loop (3 + 16) neg_init w
     = negotiate_loop 16 neg_init
         (set_output (output w ++ concat (replicate 3 [IAC; NOP]))
            (with_pending xterm_120 w)).
Proof.
  intros w.
  assert (Hok : telnet_h_ok) by exact rfc854_ok.
  assert (H1 : eof_flag (stdin w) = false) by reflexivity.
  assert (H2 : done neg_init < 2) by reflexivity.
  assert (H3 : pending (input w)
               = concat (replicate 3 [IAC; NOP]) ++ xterm_120)
    by reflexivity.
  do 4 (split; [assumption|]).
  exact (NOP_is_answered_every_time Hok 3 16 neg_init w xterm_120 H1 H2 H3).
Defined.

Lemma terminal_type_is_captured_witness :
  let name := bytes "vt100" in
  let w := loop_start (IAC :: SB :: (TTYPE :: 0 :: name) ++ IAC :: SE :: []) in
  telnet_h_ok /\ TTYPE <> IAC /\ char_val TTYPE = TTYPE
  /\ vars_ok neg_init /\ eof_flag (stdin w) = false /\ done neg_init < 2
  /\ uchar 0 <> IAC /\ Forall (fun b => uchar b <> IAC) name
  /\ pending (input w)
     = IAC :: SB :: (TTYPE :: 0 :: name) ++ IAC :: SE :: []
  /\ Forall (fun b => uchar b <> 0) name /\ (length name <= 1021)%nat
  /\ exists v',
      negotiate_loop (length name + 4 + 8) neg_init w
      = negotiate_loop 8 v' (set_alarm_timer 0 (with_pending [] w))
      /\ cstring (term v') = Some (map uchar name)
      /\ done v' = done neg_init + 1
      /\ terminal_width v' = terminal_width neg_init.
Proof.
  intros name w.
  assert (Hok : telnet_h_ok) by exact rfc854_ok.
  assert (H1 : TTYPE <> IAC) by discriminate.
  assert (H2 : char_val TTYPE = TTYPE) by reflexivity.
  assert (H3 : vars_ok neg_init) by exact vars_ok_init.
  assert (H4 : eof_flag (stdin w) = false) by reflexivity.
  assert (H5 : done neg_init < 2) by reflexivity.
  assert (H6 : uchar 0 <> IAC) by discriminate.
  assert (H7 : Forall (fun b => uchar b <> IAC) name)
    by (repeat constructor; discriminate).
  assert (H8 : pending (input w)
               = IAC :: SB :: (TTYPE :: 0 :: name) ++ IAC :: SE :: [])
    by reflexivity.
  assert (H9 : Forall (fun b => uchar b <> 0) name)
    by (repeat constructor; discriminate).
  assert (H10 : (length name <= 1021)%nat) by (vm_compute; lia).
  do 11 (split; [assumption|]).
  destruct (terminal_type_is_captured Hok 8 neg_init w 0 name []
              H1 H2 H3 H4 H5 H6 H7 H8) as (v' & Hrun & _ & Hfull & Hd & Hwd).
  exists v'.
  split; [exact Hrun|]. split; [exact (Hfull H9 H10)|].
  split; [exact Hd|exact Hwd].
Defined.

Lemma bare_SE_counts_the_last_payload_again_witness :
  let name := bytes "vt100" in
  let w := loop_start (IAC :: SB :: (TTYPE :: 0 :: name)
                       ++ IAC :: SE :: IAC :: SE :: bytes "root") in
  telnet_h_ok /\ TTYPE <> IAC /\ char_val TTYPE = TTYPE
  /\ vars_ok neg_init /\ eof_flag (stdin w) = false /\ done neg_init = 0
  /\ uchar 0 <> IAC /\ Forall (fun b => uchar b <> IAC) name
  /\ pending (input w)
     = IAC :: SB :: (TTYPE :: 0 :: name)
       ++ IAC :: SE :: IAC :: SE :: bytes "root"
  /\ exists v',
      negotiate_loop (length name + 5 + 8) neg_init w
      = Ret v' (set_alarm_timer 0 (with_pending (bytes "root") w))
      /\ done v' = 2
      /\ terminal_width v' = terminal_width neg_init
      /\ cstring (term v') = Some (until_nul (take 1021 (map uchar name))).
Proof.
  intros name w.
  assert (Hok : telnet_h_ok) by exact rfc854_ok.
  assert (H1 : TTYPE <> IAC) by discriminate.
  assert (H2 : char_val TTYPE = TTYPE) by reflexivity.
  assert (H3 : vars_ok neg_init) by exact vars_ok_init.
  assert (H4 : eof_flag (stdin w) = false) by reflexivity.
  assert (H5 : done neg_init = 0) by reflexivity.
  assert (H6 : uchar 0 <> IAC) by discriminate.
  assert (H7 : Forall (fun b => uchar b <> IAC) name)
    by (repeat constructor; discriminate).
  assert (H8 : pending (input w)
               = IAC :: SB :: (TTYPE :: 0 :: name)
                 ++ IAC :: SE :: IAC :: SE :: bytes "root")
    by reflexivity.
  do 9 (split; [assumption|]).
  exact (bare_SE_counts_the_last_payload_again Hok 8 neg_init w 0 name
           (bytes "root") H1 H2 H3 H4 H5 H6 H7 H8).
Defined.

Lemma captured_capabilities_are_well_formed_witness :
  exists v w',
    after_empty_ttype = Looping v w'
    /\ telnet_h_ok /\ tables_ok (fresh_world empty_ttype)
    /\ (set_options >> alarm 1) (fresh_world empty_ttype)
       = Ret tt (loop_start empty_ttype)
    /\ (rtc neg_step (Looping neg_init (loop_start empty_ttype))
          (Looping v w')
        \/ rtc neg_step (Looping neg_init (loop_start empty_ttype))
             (Left v w'))
    /\ (exists s, cstring (term v) = Some s /\ (length s <= 1021)%nat)
    /\ -128 <= terminal_width v <= 255
    /\ (do_echo v = 0 \/ do_echo v = 1)
    /\ 0 <= done v <= 2.
Proof.
  eexists _, _. split; [vm_compute; reflexivity|].
  match goal with
  | |- _ /\ _ /\ _ /\ (rtc _ _ (Looping ?v ?w') \/ _) /\ _ =>
      assert (E : after_empty_ttype = Looping v w')
        by (vm_compute; reflexivity)
  end.
  assert (Hok : telnet_h_ok) by exact rfc854_ok.
  assert (H1 : tables_ok (fresh_world empty_ttype)) by (split; reflexivity).
  assert (H2 : (set_options >> alarm 1) (fresh_world empty_ttype)
               = Ret tt (loop_start empty_ttype))
    by (vm_compute; reflexivity).
  pose proof empty_ttype_reached as Hr. rewrite E in Hr.
  split; [exact Hok|]. split; [exact H1|]. split; [exact H2|].
  split; [left; exact Hr|].
  exact (captured_capabilities_are_well_formed _ _ _ _ Hok H1 H2
           (or_introl Hr)).
Defined.

Lemma announced_stances_draw_no_reply_witness :
  let w := fresh_world [] in
  telnet_h_ok /\ tables_ok w /\ stances_ok w
  /\ exists w1,
      set_options w = Ret tt w1
      /\ DO <> 0 /\ (WILL = WILL \/ WILL = WONT)
      /\ arr_get (telnet_willack w1) (uchar TTYPE) = Some DO
      /\ negotiate_body neg_init
           (with_pending (IAC :: WILL :: TTYPE :: []) w1)
         = Ret neg_init
             (set_output (output w1 ++ ttype_request WILL (uchar TTYPE))
                (with_pending [] w1)).
Proof.
  intros w.
  assert (Hok : telnet_h_ok) by exact rfc854_ok.
  assert (H1 : tables_ok w) by (split; reflexivity).
  assert (H2 : stances_ok w)
    by (split; apply Forall_replicate; left; reflexivity).
  do 3 (split; [assumption|]).
  destruct (announced_stances_draw_no_reply Hok w neg_init WILL TTYPE []
              H1 H2) as (w1 & Hset & Hc).
  assert (H3 : DO <> 0) by discriminate.
  assert (H4 : WILL = WILL \/ WILL = WONT) by (left; reflexivity).
  assert (H5 : arr_get (telnet_willack w1) (uchar TTYPE) = Some DO).
  { vm_compute in Hset. injection Hset as <-. vm_compute. reflexivity. }
  exists w1. do 4 (split; [assumption|]).
  exact (proj1 (Hc DO H3) H4 H5).
Defined.

End ConcreteMore.
